(** * Uniswap LP analytics: swap-event aggregation and fee-view synthesis

    A shallow embedding of the subgraph mappings (the two [handleSwap]
    handlers, the registration handlers and their helpers) and of the
    PL/pgSQL blocks that generate the USD-fee views, together with the
    properties established about them.

    Layout:
    - [I32], [BigInt], [BigDecimal]: the host value types the mappings use;
    - [Token], [Pool], [PoolDayData], [PoolHourData], [PoolPriceHour],
      [Store]: the entities and the subgraph store;
    - [V3PoolPlain]: the volume-only swap mapping;
    - [V3Pool]: the unified swap mapping (volumes, price snapshot, TVL);
    - [FeeViews]: the view generator over [information_schema.columns];
    - [Factory]: registration of tokens and pools;
    - [Approx], [Volumes], [Exact], [Snapshot], [Sample], [Registered]:
      quantities and data used in the statements. *)

From Stdlib Require Import ZArith QArith Qround Qpower Lqa String Ascii List Lia Bool.
From stdpp Require Import base gmap strings pretty.

Open Scope Z_scope.

(** ** AssemblyScript [i32] *)

Module I32.

(** Two's-complement wrap-around into [-2^31, 2^31). *)
Definition wrap (z : Z) : Z := (z + 2 ^ 31) mod 2 ^ 32 - 2 ^ 31.

Definition add (x y : Z) : Z := wrap (x + y).

(** [x / y] on [i32] truncates toward zero. *)
Definition div (x y : Z) : Z := wrap (Z.quot x y).

(** [x.toString()] *)
Definition toString (x : Z) : string := pretty x.

Definition in_range (z : Z) : Prop := - 2 ^ 31 <= z < 2 ^ 31.

End I32.

(** ** graph-ts [BigInt] : unbounded integers *)

Module BigInt.

Definition t := Z.

Definition zero : t := 0.
Definition fromI32 (x : Z) : t := x.
Definition times (x y : t) : t := x * y.
Definition pow (x : t) (e : Z) : t := x ^ e.
Definition ge (x y : t) : bool := y <=? x.
Definition lt (x y : t) : bool := x <? y.

(** The integers whose two's-complement bytes beyond the fourth are all
    sign padding. *)
Definition fits_i32 (x : t) : bool := (- 2 ^ 32 <=? x) && (x <? 2 ^ 32).

(** [x.toI32()] reads the four low bytes as a signed integer; it aborts the
    handler ([None]) when a higher byte is not sign padding. *)
Definition toI32 (x : t) : option Z :=
  if fits_i32 x then Some (I32.wrap x) else None.

End BigInt.

(** ** graph-ts [BigDecimal]

    The decimal type is provided by the host, which normalises every value
    it builds (from an integer, a sum, a product, a quotient) to 34
    significant decimal digits, rounding half up.  Values are rationals;
    [normalized] is that rounding.  Dividing by zero traps in the host,
    which [div] reports as [None].  The amounts the mappings handle are
    non-negative; a negative value is rounded as its opposite is. *)

Module BigDecimal.

Definition t := Q.

(** [10^e] for an exponent of either sign. *)
Definition pow10 (e : Z) : Q := Qpower (inject_Z 10) e.

(** The position of the leading digit of a positive [x], that is the [k]
    with [10^k <= x < 10^(k+1)].  With [m] the difference of the bit
    lengths of numerator and denominator, [2^(m-2) <= x < 2^m], so [k] lies
    between [min (m - 2) 0] and [max m 0]; it is looked for downward. *)
Fixpoint ilog10_search (fuel : nat) (k : Z) (x : Q) : Z :=
  match fuel with
  | O => k
  | S fuel' =>
      if Qle_bool (pow10 k) x then k else ilog10_search fuel' (k - 1) x
  end.

Definition ilog10 (x : Q) : Z :=
  let m := Z.log2 (Qnum x) - Z.log2 (Zpos (Qden x)) + 1 in
  let high := Z.max m 0 in
  let low := Z.min (m - 2) 0 in
  ilog10_search (Z.to_nat (high - low)) high x.

(** A positive [x] rounded at its 34th significant digit. *)
Definition round34 (x : Q) : Q :=
  let e := ilog10 x - 33 in
  (inject_Z (Qfloor (x / pow10 e + (1 # 2))) * pow10 e)%Q.

Definition normalized (q : Q) : t :=
  let r := Qred q in
  if Qeq_bool r 0 then 0%Q
  else if Qle_bool 0 r then Qred (round34 r)
  else Qred (- round34 (- r)).

(** [BigInt.toBigDecimal()], and [BigDecimal.fromString] on the decimal
    rendering of an integer. *)
Definition fromZ (z : Z) : t := normalized (inject_Z z).

Definition zero : t := fromZ 0.   (* BigDecimal.fromString("0") *)
Definition one : t := fromZ 1.    (* BigDecimal.fromString("1") *)
Definition ten : t := fromZ 10.   (* BigDecimal.fromString("10") *)

Definition plus (x y : t) : t := normalized (x + y).
Definition times (x y : t) : t := normalized (x * y).
Definition equals (x y : t) : bool := Qeq_bool x y.
Definition div (x y : t) : option t :=
  if equals y zero then None else Some (normalized (x / y)).

(** Half a unit in the 34th significant digit, relative to the value. *)
Definition unit : Q := 1 # 2000000000000000000000000000000000.

End BigDecimal.

(** ** Store entities

    Each record keeps the fields the swap handlers read or write. *)

Module Token.
Record t := mk { id : string; decimals : Z }.
End Token.

Module Pool.
Record t := mk { id : string; token0 : string; token1 : string }.
End Pool.

Module PoolDayData.
Record t := mk {
  id : string;
  pool : string;
  date : Z;
  volumeToken0 : BigDecimal.t;
  volumeToken1 : BigDecimal.t;
  swapCount : Z;
  volumeUSD : BigDecimal.t;
  feesUSD : BigDecimal.t;
  tvlUSD : BigDecimal.t
}.
End PoolDayData.

Module PoolHourData.
Record t := mk {
  id : string;
  pool : string;
  hourStartUnix : Z;
  volumeToken0 : BigDecimal.t;
  volumeToken1 : BigDecimal.t;
  swapCount : Z;
  volumeUSD : BigDecimal.t;
  feesUSD : BigDecimal.t;
  tvlUSD : BigDecimal.t
}.
End PoolHourData.

Module PoolPriceHour.
Record t := mk {
  id : string;
  pool : string;
  hourStartUnix : Z;
  sqrtPriceX96 : BigInt.t;
  price0 : BigDecimal.t;
  price1 : BigDecimal.t;
  liquidity : BigInt.t;
  updatedAt : Z
}.
End PoolPriceHour.

(** The subgraph store: one table per entity type, keyed by entity id. *)
Module Store.
Record t := mk {
  pools : gmap string Pool.t;
  tokens : gmap string Token.t;
  dayData : gmap string PoolDayData.t;
  hourData : gmap string PoolHourData.t;
  priceHour : gmap string PoolPriceHour.t
}.

(** [entity.save()] writes the in-memory entity under its id. *)
Definition saveDay (st : t) (e : PoolDayData.t) : t :=
  mk (pools st) (tokens st) (<[PoolDayData.id e := e]> (dayData st))
     (hourData st) (priceHour st).
Definition saveHour (st : t) (e : PoolHourData.t) : t :=
  mk (pools st) (tokens st) (dayData st)
     (<[PoolHourData.id e := e]> (hourData st)) (priceHour st).
Definition savePriceHour (st : t) (e : PoolPriceHour.t) : t :=
  mk (pools st) (tokens st) (dayData st) (hourData st)
     (<[PoolPriceHour.id e := e]> (priceHour st)).
End Store.

(** The [Swap] event as the handlers read it.  [address] is the emitting
    contract rendered by [toHex()]. *)
Module Swap.
Record t := mk {
  address : string;
  amount0 : BigInt.t;
  amount1 : BigInt.t;
  sqrtPriceX96 : BigInt.t;
  liquidity : BigInt.t;
  timestamp : BigInt.t
}.
End Swap.

(** [String.prototype.toLowerCase] on ASCII text. *)
Definition lower_ascii (c : ascii) : ascii :=
  let n := nat_of_ascii c in
  if (andb (Nat.leb 65 n) (Nat.leb n 90)) then ascii_of_nat (n + 32) else c.

Fixpoint toLowerCase (s : string) : string :=
  match s with
  | EmptyString => EmptyString
  | String c s' => String (lower_ascii c) (toLowerCase s')
  end.

(** Entity lookup by id.  The entity handed back by [load] carries the id it
    was asked for. *)
Module Load.
Definition dayData (st : Store.t) (id : string) : option PoolDayData.t :=
  match Store.dayData st !! id with
  | Some e =>
      Some (PoolDayData.mk id (PoolDayData.pool e) (PoolDayData.date e)
              (PoolDayData.volumeToken0 e) (PoolDayData.volumeToken1 e)
              (PoolDayData.swapCount e) (PoolDayData.volumeUSD e)
              (PoolDayData.feesUSD e) (PoolDayData.tvlUSD e))
  | None => None
  end.
Definition hourData (st : Store.t) (id : string) : option PoolHourData.t :=
  match Store.hourData st !! id with
  | Some e =>
      Some (PoolHourData.mk id (PoolHourData.pool e) (PoolHourData.hourStartUnix e)
              (PoolHourData.volumeToken0 e) (PoolHourData.volumeToken1 e)
              (PoolHourData.swapCount e) (PoolHourData.volumeUSD e)
              (PoolHourData.feesUSD e) (PoolHourData.tvlUSD e))
  | None => None
  end.
Definition priceHour (st : Store.t) (id : string) : option PoolPriceHour.t :=
  match Store.priceHour st !! id with
  | Some e =>
      Some (PoolPriceHour.mk id (PoolPriceHour.pool e) (PoolPriceHour.hourStartUnix e)
              (PoolPriceHour.sqrtPriceX96 e) (PoolPriceHour.price0 e)
              (PoolPriceHour.price1 e) (PoolPriceHour.liquidity e)
              (PoolPriceHour.updatedAt e))
  | None => None
  end.
End Load.

(** Field assignments on the in-memory bucket entities. *)
Module Assign.
Definition dayVolume (e : PoolDayData.t) (v0 v1 : BigDecimal.t) (n : Z) : PoolDayData.t :=
  PoolDayData.mk (PoolDayData.id e) (PoolDayData.pool e) (PoolDayData.date e)
    v0 v1 n (PoolDayData.volumeUSD e) (PoolDayData.feesUSD e) (PoolDayData.tvlUSD e).
Definition hourVolume (e : PoolHourData.t) (v0 v1 : BigDecimal.t) (n : Z) : PoolHourData.t :=
  PoolHourData.mk (PoolHourData.id e) (PoolHourData.pool e) (PoolHourData.hourStartUnix e)
    v0 v1 n (PoolHourData.volumeUSD e) (PoolHourData.feesUSD e) (PoolHourData.tvlUSD e).
Definition dayTvl (e : PoolDayData.t) (tvl : BigDecimal.t) : PoolDayData.t :=
  PoolDayData.mk (PoolDayData.id e) (PoolDayData.pool e) (PoolDayData.date e)
    (PoolDayData.volumeToken0 e) (PoolDayData.volumeToken1 e) (PoolDayData.swapCount e)
    (PoolDayData.volumeUSD e) (PoolDayData.feesUSD e) tvl.
Definition hourTvl (e : PoolHourData.t) (tvl : BigDecimal.t) : PoolHourData.t :=
  PoolHourData.mk (PoolHourData.id e) (PoolHourData.pool e) (PoolHourData.hourStartUnix e)
    (PoolHourData.volumeToken0 e) (PoolHourData.volumeToken1 e) (PoolHourData.swapCount e)
    (PoolHourData.volumeUSD e) (PoolHourData.feesUSD e) tvl.
End Assign.

(** ** The volume-only swap mapping *)

Module V3PoolPlain.

Definition absBigInt (x : BigInt.t) : BigInt.t :=
  if BigInt.lt x BigInt.zero then BigInt.times x (BigInt.fromI32 (-1)) else x.

(** The [for (i = 0; i < decimals; i++)] loop, by its number of rounds. *)
Fixpoint pow10BD_loop (rounds : nat) (result : BigDecimal.t) : BigDecimal.t :=
  match rounds with
  | O => result
  | S rounds' => pow10BD_loop rounds' (BigDecimal.times result BigDecimal.ten)
  end.

Definition pow10BD (decimals : Z) : BigDecimal.t :=
  pow10BD_loop (Z.to_nat decimals) BigDecimal.one.

Definition toDecimal (amount : BigInt.t) (decimals : Z) : option BigDecimal.t :=
  let bdAmount := BigDecimal.fromZ amount in
  BigDecimal.div bdAmount (pow10BD decimals).

(** The identifiers computed at the head of [ensureDay] and [ensureHour];
    [None] when [ts.toI32()] aborts. *)
Definition dayKey (poolId : string) (ts : BigInt.t) : option string :=
  t ← BigInt.toI32 ts;
  Some (poolId +:+ "-" +:+ I32.toString (I32.div t 86400)).

Definition hourKey (poolId : string) (ts : BigInt.t) : option string :=
  t ← BigInt.toI32 ts;
  Some (poolId +:+ "-" +:+ I32.toString (I32.div t 3600)).

Definition ensureDay (st : Store.t) (poolId : string) (ts : BigInt.t)
  : option PoolDayData.t :=
  t ← BigInt.toI32 ts;
  let dayId := I32.div t 86400 in
  let id := poolId +:+ "-" +:+ I32.toString dayId in
  match Load.dayData st id with
  | Some ent => Some ent
  | None =>
      Some (PoolDayData.mk id poolId dayId BigDecimal.zero BigDecimal.zero 0
              BigDecimal.zero BigDecimal.zero BigDecimal.zero)
  end.

Definition ensureHour (st : Store.t) (poolId : string) (ts : BigInt.t)
  : option PoolHourData.t :=
  t ← BigInt.toI32 ts;
  let hourId := I32.div t 3600 in
  let id := poolId +:+ "-" +:+ I32.toString hourId in
  match Load.hourData st id with
  | Some ent => Some ent
  | None =>
      Some (PoolHourData.mk id poolId hourId BigDecimal.zero BigDecimal.zero 0
              BigDecimal.zero BigDecimal.zero BigDecimal.zero)
  end.

(** [None] stands for a trap inside the handler. *)
Definition handleSwap (st : Store.t) (event : Swap.t) : option Store.t :=
  let poolId := toLowerCase (Swap.address event) in
  match Store.pools st !! poolId with
  | None => Some st
  | Some pool =>
      match Store.tokens st !! Pool.token0 pool,
            Store.tokens st !! Pool.token1 pool with
      | Some token0, Some token1 =>
          let a0Abs := absBigInt (Swap.amount0 event) in
          let a1Abs := absBigInt (Swap.amount1 event) in
          amt0 ← toDecimal a0Abs (Token.decimals token0);
          amt1 ← toDecimal a1Abs (Token.decimals token1);
          day ← ensureDay st poolId (Swap.timestamp event);
          hour ← ensureHour st poolId (Swap.timestamp event);
          let day :=
            Assign.dayVolume day
              (BigDecimal.plus (PoolDayData.volumeToken0 day) amt0)
              (BigDecimal.plus (PoolDayData.volumeToken1 day) amt1)
              (I32.add (PoolDayData.swapCount day) 1) in
          let st := Store.saveDay st day in
          let hour :=
            Assign.hourVolume hour
              (BigDecimal.plus (PoolHourData.volumeToken0 hour) amt0)
              (BigDecimal.plus (PoolHourData.volumeToken1 hour) amt1)
              (I32.add (PoolHourData.swapCount hour) 1) in
          Some (Store.saveHour st hour)
      | _, _ => Some st
      end
  end.

(** Events are handled one after the other. *)
Fixpoint handleSwaps (st : Store.t) (events : list Swap.t) : option Store.t :=
  match events with
  | [] => Some st
  | event :: rest => st' ← handleSwap st event; handleSwaps st' rest
  end.

End V3PoolPlain.

(** ** The unified swap mapping *)

Module V3Pool.

Definition USDC : string := "0xa0b86991c6218b36c1d19d4a2e9eb0ce3606eb48".
Definition USDT : string := "0xdac17f958d2ee523a2206206994597c13d831ec7".

Definition isStable (addr : string) : bool :=
  let a := toLowerCase addr in
  String.eqb a USDC || String.eqb a USDT.

(** The ERC-20 [balanceOf] call goes to the chain; [erc20] is the contract
    state it reads, [None] a reverted call. *)
Definition safeBalanceOf (erc20 : string -> string -> option BigInt.t)
    (tokenAddr : string) (owner : string) : option BigInt.t :=
  erc20 tokenAddr owner.

Fixpoint exponentToBigDecimal_loop (rounds : nat) (ten result : BigDecimal.t)
  : BigDecimal.t :=
  match rounds with
  | O => result
  | S rounds' => exponentToBigDecimal_loop rounds' ten (BigDecimal.times result ten)
  end.

Definition exponentToBigDecimal (decimals : Z) : BigDecimal.t :=
  let result := BigDecimal.one in
  let ten := BigDecimal.ten in
  exponentToBigDecimal_loop (Z.to_nat decimals) ten result.

(** [None] when [ts.toI32()] aborts. *)
Definition hourId (ts : BigInt.t) : option Z :=
  t ← BigInt.toI32 ts; Some (I32.div t 3600).
Definition dayId (ts : BigInt.t) : option Z :=
  t ← BigInt.toI32 ts; Some (I32.div t 86400).

Definition ensurePoolDayData (st : Store.t) (poolId : string) (ts : BigInt.t)
  : option PoolDayData.t :=
  d ← dayId ts;
  let id := poolId +:+ "-" +:+ I32.toString d in
  match Load.dayData st id with
  | Some p => Some p
  | None =>
      date ← dayId ts;
      Some (PoolDayData.mk id poolId date BigDecimal.zero BigDecimal.zero 0
              BigDecimal.zero BigDecimal.zero BigDecimal.zero)
  end.

Definition ensurePoolHourData (st : Store.t) (poolId : string) (ts : BigInt.t)
  : option PoolHourData.t :=
  h ← hourId ts;
  let id := poolId +:+ "-" +:+ I32.toString h in
  match Load.hourData st id with
  | Some p => Some p
  | None =>
      hourStartUnix ← hourId ts;
      Some (PoolHourData.mk id poolId hourStartUnix BigDecimal.zero
              BigDecimal.zero 0 BigDecimal.zero BigDecimal.zero BigDecimal.zero)
  end.

Definition ensurePriceHour (st : Store.t) (poolId : string) (ts : BigInt.t)
  : option PoolPriceHour.t :=
  h ← hourId ts;
  let id := poolId +:+ "-" +:+ I32.toString h in
  match Load.priceHour st id with
  | Some ph => Some ph
  | None =>
      hourStartUnix ← hourId ts;
      Some (PoolPriceHour.mk id poolId hourStartUnix BigInt.zero
              BigDecimal.zero BigDecimal.zero BigInt.zero 0)
  end.

Definition absBigInt (x : BigInt.t) : BigInt.t :=
  if BigInt.ge x BigInt.zero then x else BigInt.times x (BigInt.fromI32 (-1)).

(** Returns the two-element array [[p0, p1]] as a pair. *)
Definition pricesFromSqrt (sqrtPriceX96 : BigInt.t)
    (token0Decimals token1Decimals : Z)
  : option (BigDecimal.t * BigDecimal.t) :=
  let Q192 := BigInt.pow (BigInt.fromI32 2) 192 in
  let num := BigDecimal.fromZ (BigInt.times sqrtPriceX96 sqrtPriceX96) in
  let denom := BigDecimal.fromZ Q192 in
  ratio ← BigDecimal.div num denom;
  adj ← BigDecimal.div (exponentToBigDecimal token0Decimals)
                       (exponentToBigDecimal token1Decimals);
  let p0 := BigDecimal.times ratio adj in
  if BigDecimal.equals p0 BigDecimal.zero
  then Some (BigDecimal.zero, BigDecimal.zero)
  else p1 ← BigDecimal.div BigDecimal.one p0; Some (p0, p1).

(** The body of [handleSwap] reads two identifiers [p0] and [p1] that no
    declaration in the function or the file binds; they are parameters
    here.  [erc20] is the chain state behind [safeBalanceOf]. *)
Definition handleSwap
    (erc20 : string -> string -> option BigInt.t) (p0 p1 : BigDecimal.t)
    (st : Store.t) (event : Swap.t) : option Store.t :=
  let poolId := toLowerCase (Swap.address event) in
  match Store.pools st !! poolId with
  | None => Some st
  | Some pool =>
      day ← ensurePoolDayData st poolId (Swap.timestamp event);
      hour ← ensurePoolHourData st poolId (Swap.timestamp event);
      let v0 := BigDecimal.fromZ (absBigInt (Swap.amount0 event)) in
      let v1 := BigDecimal.fromZ (absBigInt (Swap.amount1 event)) in
      match Store.tokens st !! Pool.token0 pool,
            Store.tokens st !! Pool.token1 pool with
      | Some t0, Some t1 =>
          let d0 := exponentToBigDecimal (Token.decimals t0) in
          let d1 := exponentToBigDecimal (Token.decimals t1) in
          dv0 ← BigDecimal.div v0 d0;
          dv1 ← BigDecimal.div v1 d1;
          let day :=
            Assign.dayVolume day
              (BigDecimal.plus (PoolDayData.volumeToken0 day) dv0)
              (BigDecimal.plus (PoolDayData.volumeToken1 day) dv1)
              (I32.add (PoolDayData.swapCount day) 1) in
          let st := Store.saveDay st day in
          hv0 ← BigDecimal.div v0 d0;
          hv1 ← BigDecimal.div v1 d1;
          let hour :=
            Assign.hourVolume hour
              (BigDecimal.plus (PoolHourData.volumeToken0 hour) hv0)
              (BigDecimal.plus (PoolHourData.volumeToken1 hour) hv1)
              (I32.add (PoolHourData.swapCount hour) 1) in
          let st := Store.saveHour st hour in
          ph ← ensurePriceHour st poolId (Swap.timestamp event);
          updatedAt ← BigInt.toI32 (Swap.timestamp event);
          let ph :=
            PoolPriceHour.mk (PoolPriceHour.id ph) (PoolPriceHour.pool ph)
              (PoolPriceHour.hourStartUnix ph)
              (Swap.sqrtPriceX96 event) p0 p1 (Swap.liquidity event)
              updatedAt in
          let st := Store.savePriceHour st ph in
          let poolAddr := Swap.address event in
          bal0Raw ← safeBalanceOf erc20 (Pool.token0 pool) poolAddr;
          bal1Raw ← safeBalanceOf erc20 (Pool.token1 pool) poolAddr;
          amt0 ← BigDecimal.div (BigDecimal.fromZ bal0Raw)
                   (exponentToBigDecimal (Token.decimals t0));
          amt1 ← BigDecimal.div (BigDecimal.fromZ bal1Raw)
                   (exponentToBigDecimal (Token.decimals t1));
          let tvlUSD :=
            if isStable (Pool.token0 pool) && negb (isStable (Pool.token1 pool))
            then BigDecimal.plus amt0 (BigDecimal.times amt1 p1)
            else if isStable (Pool.token1 pool) && negb (isStable (Pool.token0 pool))
            then BigDecimal.plus amt1 (BigDecimal.times amt0 p0)
            else BigDecimal.zero in
          let day := Assign.dayTvl day tvlUSD in
          let st := Store.saveDay st day in
          let hour := Assign.hourTvl hour tvlUSD in
          Some (Store.saveHour st hour)
      | _, _ => Some st
      end
  end.

End V3Pool.

(** ** The fee-view generator (PL/pgSQL [DO] blocks) *)

Module FeeViews.

(** A row of [information_schema.columns]. *)
Record column := mkColumn {
  table_name : string;
  column_name : string;
  data_type : string;
  ordinal_position : Z
}.

(** SQL [s LIKE pat]: [%] matches any run of characters, [_] any single
    character, every other character itself. *)
Fixpoint like (pat : string) : string -> bool :=
  match pat with
  | EmptyString => fun s => match s with EmptyString => true | _ => false end
  | String c pat' =>
      if Ascii.eqb c "%"%char then
        fix any_run (s : string) : bool :=
          like pat' s
          || match s with EmptyString => false | String _ s' => any_run s' end
      else if Ascii.eqb c "_"%char then
        fun s => match s with EmptyString => false | String _ s' => like pat' s' end
      else
        fun s =>
          match s with
          | EmptyString => false
          | String d s' => Ascii.eqb c d && like pat' s'
          end
  end.

(** [x IN (...)] *)
Definition in_list (x : string) (names : list string) : bool :=
  existsb (String.eqb x) names.

Definition like_any (x : string) (pats : list string) : bool :=
  existsb (fun pat => like pat x) pats.

Definition fee0_names : list string :=
  ["f0"; "fee0"; "fees0"; "fee_token0"; "fees_token0"; "token0_fee";
   "token0_fees"; "collected_fee0"; "collected_fees0"]%string.
Definition fee0_patterns : list string :=
  ["fee0%"; "fees0%"; "fee_token0%"; "fees_token0%"; "token0_fee%";
   "token0_fees%"]%string.
Definition fee1_names : list string :=
  ["f1"; "fee1"; "fees1"; "fee_token1"; "fees_token1"; "token1_fee";
   "token1_fees"; "collected_fee1"; "collected_fees1"]%string.
Definition fee1_patterns : list string :=
  ["fee1%"; "fees1%"; "fee_token1%"; "fees_token1%"; "token1_fee%";
   "token1_fees%"]%string.
Definition hour_time_names : list string :=
  ["hour_start_unix"; "hour_start"; "hour_ts"; "ts"; "timestamp"; "ts_unix";
   "started_at"]%string.
Definition day_time_names : list string :=
  ["date"; "day"; "day_start"; "day_start_unix"; "started_at"]%string.

(** The [WHERE] clause of the three look-ups. *)
Definition where_fee (tbl : string) (names pats : list string) (c : column) : bool :=
  String.eqb (table_name c) tbl
  && (in_list (column_name c) names || like_any (column_name c) pats).

Definition where_time (tbl : string) (names : list string) (c : column) : bool :=
  String.eqb (table_name c) tbl && in_list (column_name c) names.

(** [ORDER BY ordinal_position LIMIT 1]: the row with the least position
    (the earliest such row of the catalog when positions tie). *)
Fixpoint order_limit1 (rows : list column) : option column :=
  match rows with
  | [] => None
  | r :: rest =>
      match order_limit1 rest with
      | None => Some r
      | Some m => if ordinal_position r <=? ordinal_position m then Some r else Some m
      end
  end.

(** [SELECT ... INTO v FROM information_schema.columns WHERE ... ORDER BY
    ordinal_position LIMIT 1]; no row leaves the variable [NULL]. *)
Definition select_into (cond : column -> bool) (catalog : list column)
  : option column :=
  order_limit1 (List.filter cond catalog).

Definition col_f0 (tbl : string) (catalog : list column) : option string :=
  column_name <$> select_into (where_fee tbl fee0_names fee0_patterns) catalog.
Definition col_f1 (tbl : string) (catalog : list column) : option string :=
  column_name <$> select_into (where_fee tbl fee1_names fee1_patterns) catalog.
Definition col_time (tbl : string) (names : list string) (catalog : list column)
  : option column :=
  select_into (where_time tbl names) catalog.

(** How [RAISE] renders a parameter: [NULL] prints as [<NULL>]. *)
Definition raise_param (v : option string) : string :=
  match v with Some s => s | None => "<NULL>" end.

Definition integral_type (typ : string) : bool :=
  in_list typ ["integer"; "bigint"; "numeric"]%string.

(** What a block does: abort with a message, or [EXECUTE] a statement. *)
Inductive outcome :=
| Raise (message : string)
| Execute (dyn_sql : string).

Definition hour_block (quote_ident : string -> string) (catalog : list column)
  : outcome :=
  let f0 := col_f0 "pool_hour_data" catalog in
  let f1 := col_f1 "pool_hour_data" catalog in
  let tm := col_time "pool_hour_data" hour_time_names catalog in
  match f0, f1, tm with
  | Some c0, Some c1, Some ct =>
      Execute
        ("drop view if exists v_pool_hour_fees_usd_partial; " +:+
         "create view v_pool_hour_fees_usd_partial as " +:+
         "select h.pool_id, " +:+
         (if integral_type (data_type ct)
          then "to_timestamp(h." +:+ column_name ct +:+ ")"
          else "h." +:+ quote_ident (column_name ct)) +:+
         " as hour_start_unix, " +:+
         "case when rs0.is_stable then h." +:+ quote_ident c0 +:+ " " +:+
         "when rs1.is_stable then h." +:+ quote_ident c1 +:+ " " +:+
         "else null end as fees_usd " +:+
         "from pool_hour_data h " +:+
         "join pools p on p.id=h.pool_id " +:+
         "join tokens t0 on t0.id=p.token0_id " +:+
         "join tokens t1 on t1.id=p.token1_id " +:+
         "left join ref_tokens rs0 on upper(t0.symbol)=rs0.symbol " +:+
         "left join ref_tokens rs1 on upper(t1.symbol)=rs1.symbol " +:+
         "where p.chain_id=1")
  | _, _, _ =>
      Raise
        ("Required columns not found in pool_hour_data (fee0: " +:+ raise_param f0 +:+
         ", fee1: " +:+ raise_param f1 +:+
         ", time: " +:+ raise_param (column_name <$> tm) +:+ ")")
  end.

Definition day_block (quote_ident : string -> string) (catalog : list column)
  : outcome :=
  let f0 := col_f0 "pool_day_data" catalog in
  let f1 := col_f1 "pool_day_data" catalog in
  let dt := col_time "pool_day_data" day_time_names catalog in
  match f0, f1, dt with
  | Some c0, Some c1, Some cd =>
      let date_expr :=
        if integral_type (data_type cd)
        then "to_timestamp(d." +:+ column_name cd +:+ ")::date"
        else "d." +:+ quote_ident (column_name cd) +:+ "::date" in
      Execute
        ("drop view if exists v_pool_day_fees_usd_partial; " +:+
         "create view v_pool_day_fees_usd_partial as " +:+
         "select d.pool_id, " +:+ date_expr +:+ " as date, " +:+
         "case when rs0.is_stable then d." +:+ quote_ident c0 +:+ " " +:+
         "when rs1.is_stable then d." +:+ quote_ident c1 +:+ " " +:+
         "else null end as fees_usd " +:+
         "from pool_day_data d " +:+
         "join pools p on p.id=d.pool_id " +:+
         "join tokens t0 on t0.id=p.token0_id " +:+
         "join tokens t1 on t1.id=p.token1_id " +:+
         "left join ref_tokens rs0 on upper(t0.symbol)=rs0.symbol " +:+
         "left join ref_tokens rs1 on upper(t1.symbol)=rs1.symbol " +:+
         "where p.chain_id=1")
  | _, _, _ =>
      Raise
        ("Required columns not found in pool_day_data (fee0: " +:+ raise_param f0 +:+
         ", fee1: " +:+ raise_param f1 +:+
         ", date: " +:+ raise_param (column_name <$> dt) +:+ ")")
  end.

(** The views of the database, by name, with the statement that defined
    them.  A raised exception rolls the block back. *)
Definition run_block (view : string) (o : outcome) (views : gmap string string)
  : gmap string string :=
  match o with
  | Raise _ => views
  | Execute dyn_sql => <[view := dyn_sql]> views
  end.

(** The [fees_usd] column both views select:
    [case when rs0.is_stable then fee0 when rs1.is_stable then fee1 else
    null end].  A flag is [None] when the left join found no reference
    token (SQL [NULL]); a [WHEN] arm is taken only on [TRUE]. *)
Definition fees_usd {V : Type} (rs0_is_stable rs1_is_stable : option bool)
    (fee0 fee1 : option V) : option V :=
  match rs0_is_stable with
  | Some true => fee0
  | _ =>
      match rs1_is_stable with
      | Some true => fee1
      | _ => None
      end
  end.

(** The bucket tables as the repository declares them. *)
Definition declared_catalog : list column :=
  [ mkColumn "pool_day_data" "id" "text" 1;
    mkColumn "pool_day_data" "pool_id" "text" 2;
    mkColumn "pool_day_data" "date" "integer" 3;
    mkColumn "pool_day_data" "volume_token0" "numeric" 4;
    mkColumn "pool_day_data" "volume_token1" "numeric" 5;
    mkColumn "pool_day_data" "approx_fee_token0" "numeric" 6;
    mkColumn "pool_day_data" "approx_fee_token1" "numeric" 7;
    mkColumn "pool_day_data" "swap_count" "integer" 8;
    mkColumn "pool_hour_data" "id" "text" 1;
    mkColumn "pool_hour_data" "pool_id" "text" 2;
    mkColumn "pool_hour_data" "hour_start_unix" "integer" 3;
    mkColumn "pool_hour_data" "volume_token0" "numeric" 4;
    mkColumn "pool_hour_data" "volume_token1" "numeric" 5;
    mkColumn "pool_hour_data" "approx_fee_token0" "numeric" 6;
    mkColumn "pool_hour_data" "approx_fee_token1" "numeric" 7;
    mkColumn "pool_hour_data" "swap_count" "integer" 8 ]%string.

End FeeViews.

(** ** Derived quantities used in the statements *)

(** The TVL the handler assigns, from the two scaled balances. *)
Definition assigned_tvl (pool : Pool.t) (p0 p1 amt0 amt1 : BigDecimal.t)
  : BigDecimal.t :=
  if V3Pool.isStable (Pool.token0 pool) && negb (V3Pool.isStable (Pool.token1 pool))
  then BigDecimal.plus amt0 (BigDecimal.times amt1 p1)
  else if V3Pool.isStable (Pool.token1 pool) && negb (V3Pool.isStable (Pool.token0 pool))
  then BigDecimal.plus amt1 (BigDecimal.times amt0 p0)
  else BigDecimal.zero.

(** A look-up result [name] is right for a condition [cond] when it names a
    catalog row that satisfies [cond] and no satisfying row has a smaller
    ordinal position, or when it is [NULL] and no row satisfies [cond]. *)
Definition selects (cond : FeeViews.column -> bool)
    (catalog : list FeeViews.column) (name : option string) : Prop :=
  match name with
  | Some n =>
      exists c, In c catalog /\ FeeViews.column_name c = n /\ cond c = true
        /\ forall c', In c' catalog -> cond c' = true ->
              FeeViews.ordinal_position c <= FeeViews.ordinal_position c'
  | None => forall c', In c' catalog -> cond c' = false
  end.

(** A table whose second column has an allow-listed fee name and whose
    first column only starts like one. *)
Definition prefix_before_exact : list FeeViews.column :=
  [ FeeViews.mkColumn "pool_hour_data" "fee0_raw" "numeric" 1;
    FeeViews.mkColumn "pool_hour_data" "fee0" "numeric" 2;
    FeeViews.mkColumn "pool_hour_data" "fee1" "numeric" 3;
    FeeViews.mkColumn "pool_hour_data" "hour_start_unix" "integer" 4 ]%string.

(** ** Relative accuracy *)

Module Approx.

(** [x] lies between [lo] times and [hi] times the reference value [a]. *)
Definition within (lo hi x a : Q) : Prop := (lo * a <= x /\ x <= hi * a)%Q.

(** Relative tolerance of a result reached through [n] roundings at
    most: [n / 10^33]. *)
Definition tol (n : Z) : Q := inject_Z n * (2 * BigDecimal.unit).

End Approx.

(** The aggregate fields of a bucket row, hour or day, and what the
    volume-only handler does to them. *)
Module Volumes.

Record bucket := mkBucket {
  swapCount : Z;
  volumeToken0 : BigDecimal.t;
  volumeToken1 : BigDecimal.t;
  volumeUSD : BigDecimal.t;
  feesUSD : BigDecimal.t;
  tvlUSD : BigDecimal.t
}.

Definition ofHour (e : PoolHourData.t) : bucket :=
  mkBucket (PoolHourData.swapCount e) (PoolHourData.volumeToken0 e)
    (PoolHourData.volumeToken1 e) (PoolHourData.volumeUSD e)
    (PoolHourData.feesUSD e) (PoolHourData.tvlUSD e).

Definition ofDay (e : PoolDayData.t) : bucket :=
  mkBucket (PoolDayData.swapCount e) (PoolDayData.volumeToken0 e)
    (PoolDayData.volumeToken1 e) (PoolDayData.volumeUSD e)
    (PoolDayData.feesUSD e) (PoolDayData.tvlUSD e).

Definition hourView (st : Store.t) (id : string) : option bucket :=
  ofHour <$> Store.hourData st !! id.
Definition dayView (st : Store.t) (id : string) : option bucket :=
  ofDay <$> Store.dayData st !! id.

(** A row on first reference. *)
Definition fresh : bucket :=
  mkBucket 0 BigDecimal.zero BigDecimal.zero BigDecimal.zero BigDecimal.zero
    BigDecimal.zero.

(** One application of a swap's two amounts. *)
Definition bump (b : bucket) (amt0 amt1 : BigDecimal.t) : bucket :=
  mkBucket (I32.add (swapCount b) 1)
    (BigDecimal.plus (volumeToken0 b) amt0)
    (BigDecimal.plus (volumeToken1 b) amt1)
    (volumeUSD b) (feesUSD b) (tvlUSD b).

(** The two tokens of the event's pool, when pool and tokens are known. *)
Definition resolve (pools : gmap string Pool.t) (tokens : gmap string Token.t)
    (event : Swap.t) : option (Token.t * Token.t) :=
  match pools !! toLowerCase (Swap.address event) with
  | None => None
  | Some pool =>
      match tokens !! Pool.token0 pool, tokens !! Pool.token1 pool with
      | Some token0, Some token1 => Some (token0, token1)
      | _, _ => None
      end
  end.

(** The decimal-adjusted absolute amounts of an event. *)
Definition scaled0 (pools : gmap string Pool.t)
    (tokens : gmap string Token.t) (event : Swap.t) : BigDecimal.t :=
  match resolve pools tokens event with
  | Some (token0, _) =>
      default BigDecimal.zero
        (V3PoolPlain.toDecimal (V3PoolPlain.absBigInt (Swap.amount0 event))
           (Token.decimals token0))
  | None => BigDecimal.zero
  end.

Definition scaled1 (pools : gmap string Pool.t)
    (tokens : gmap string Token.t) (event : Swap.t) : BigDecimal.t :=
  match resolve pools tokens event with
  | Some (_, token1) =>
      default BigDecimal.zero
        (V3PoolPlain.toDecimal (V3PoolPlain.absBigInt (Swap.amount1 event))
           (Token.decimals token1))
  | None => BigDecimal.zero
  end.

(** The bucket identifiers of an event whose timestamp converts: the pool
    address, a dash, and the quotient of the four low bytes of the
    timestamp. *)
Definition hourKeyOf (event : Swap.t) : string :=
  toLowerCase (Swap.address event) +:+ "-"
    +:+ I32.toString (I32.div (I32.wrap (Swap.timestamp event)) 3600).
Definition dayKeyOf (event : Swap.t) : string :=
  toLowerCase (Swap.address event) +:+ "-"
    +:+ I32.toString (I32.div (I32.wrap (Swap.timestamp event)) 86400).

(** The timestamp of the event converts to [i32]. *)
Definition converts (event : Swap.t) : bool :=
  BigInt.fits_i32 (Swap.timestamp event).

(** The event is applied to the bucket [id]: it resolves and its key is
    [id]. *)
Definition applied (key : Swap.t -> string) (pools : gmap string Pool.t)
    (tokens : gmap string Token.t) (id : string) (event : Swap.t) : bool :=
  match resolve pools tokens event with
  | Some _ => String.eqb (key event) id
  | None => false
  end.

Definition total (f : Swap.t -> Q) (events : list Swap.t) : Q :=
  fold_right (fun event acc => (f event + acc)%Q) 0%Q events.

(** The bucket [id] after [n] applications whose unrounded amounts sum to
    [e0] and [e1]: the count is [n] on [i32], the USD fields are zero, and
    while [n] is below [2^31] each recorded volume is the sum to a relative
    error of [(n + 2) / 10^33]. *)
Definition accumulated (view : option bucket) (n : Z) (e0 e1 : Q) : Prop :=
  (0 <= e0)%Q /\ (0 <= e1)%Q /\
  match view with
  | None => n = 0 /\ (e0 == 0)%Q /\ (e1 == 0)%Q
  | Some b =>
      0 < n /\ swapCount b = I32.wrap n
      /\ volumeUSD b = BigDecimal.zero /\ feesUSD b = BigDecimal.zero
      /\ tvlUSD b = BigDecimal.zero
      /\ (n < 2 ^ 31 ->
          Approx.within (1 - Approx.tol (n + 2)) (1 + Approx.tol (n + 2))
            (volumeToken0 b) e0
          /\ Approx.within (1 - Approx.tol (n + 2)) (1 + Approx.tol (n + 2))
               (volumeToken1 b) e1)
  end.

End Volumes.

(** A table with suffixed fee columns. *)
Definition raw_fee_columns : list FeeViews.column :=
  [ FeeViews.mkColumn "pool_hour_data" "pool_id" "text" 1;
    FeeViews.mkColumn "pool_hour_data" "fees0_raw" "numeric" 2;
    FeeViews.mkColumn "pool_hour_data" "fees1_raw" "numeric" 3;
    FeeViews.mkColumn "pool_hour_data" "hour_start_unix" "bigint" 4 ]%string.

(** ** Sample data *)

Module Sample.

Definition empty_store : Store.t := Store.mk ∅ ∅ ∅ ∅ ∅.

Definition WETH : string := "0xc02aaa39b223fe8d0a0e5c4f27ead9083c756cc2".
Definition WBTC : string := "0x2260fac5e5542a773aa44fbcfedf7c193bc2c599".
Definition pool_usdc_weth : string := "0x88e6a0c2ddd26feeb64f039a2c41296fcb3f5640".
Definition pool_wbtc_weth : string := "0xcbcdf9626bc03e24f779434178a73a0b4bad62ed".

Definition tokens : gmap string Token.t :=
  <[V3Pool.USDC := Token.mk V3Pool.USDC 6]>
    (<[WETH := Token.mk WETH 18]> (<[WBTC := Token.mk WBTC 8]> ∅)).

Definition pools : gmap string Pool.t :=
  <[pool_usdc_weth := Pool.mk pool_usdc_weth V3Pool.USDC WETH]>
    (<[pool_wbtc_weth := Pool.mk pool_wbtc_weth WBTC WETH]> ∅).

(** Pools and tokens indexed, no bucket yet. *)
Definition store : Store.t := Store.mk pools tokens ∅ ∅ ∅.

(** Every balance query answers. *)
Definition erc20 (token owner : string) : option BigInt.t := Some 123456789.

(** A swap on the WBTC/WETH pool (neither side is a stable asset). *)
Definition swap_wbtc_weth : Swap.t :=
  Swap.mk "0xCBCDF9626bC03E24f779434178A73a0B4bad62eD"
    (-100000000) 15000000000000000000
    (2 ^ 96) 1000000 1700000000.

(** A swap on the USDC/WETH pool. *)
Definition swap_usdc_weth : Swap.t :=
  Swap.mk "0x88e6A0c2dDD26FEEb64F039a2c41296FcB3f5640"
    2500000000 (-1000000000000000000)
    (2 ^ 96) 1000000 1700000000.

(** Two swaps on one pool with a swap on another pool in between. *)
Definition interleaved : list Swap.t :=
  [swap_wbtc_weth; swap_usdc_weth; swap_wbtc_weth].

Definition hour_key : string := pool_wbtc_weth +:+ "-472222".
Definition day_key : string := pool_wbtc_weth +:+ "-19675".

(** The same store with the hour and day buckets of [swap_wbtc_weth]
    already present and carrying a TVL of 5. *)
Definition store_with_tvl : Store.t :=
  Store.mk pools tokens
    (<[day_key := PoolDayData.mk day_key pool_wbtc_weth 19675
                    (inject_Z 3) (inject_Z 4) 2 (inject_Z 7) (inject_Z 1)
                    (inject_Z 5)]> ∅)
    (<[hour_key := PoolHourData.mk hour_key pool_wbtc_weth 472222
                     (inject_Z 3) (inject_Z 4) 2 (inject_Z 7) (inject_Z 1)
                     (inject_Z 5)]> ∅)
    ∅.

(** Two swaps on the WBTC/WETH pool, of [10^34] and of one whole WBTC. *)
Definition swap_wbtc_large : Swap.t :=
  Swap.mk "0xCBCDF9626bC03E24f779434178A73a0B4bad62eD"
    (10 ^ 42) (-15000000000000000000)
    (2 ^ 96) 1000000 1700000000.

Definition swap_wbtc_unit : Swap.t :=
  Swap.mk "0xCBCDF9626bC03E24f779434178A73a0B4bad62eD"
    (10 ^ 8) (-15000000000000000000)
    (2 ^ 96) 1000000 1700000000.

(** The pools indexed, their tokens not. *)
Definition store_without_tokens : Store.t := Store.mk pools ∅ ∅ ∅ ∅.

(** A swap on the WBTC/WETH pool in a block stamped [2^32]. *)
Definition swap_late : Swap.t :=
  Swap.mk "0xCBCDF9626bC03E24f779434178A73a0B4bad62eD"
    (-100000000) 15000000000000000000
    (2 ^ 96) 1000000 (2 ^ 32).

End Sample.

(** ** Snapshot fields of a bucket *)

Module Snapshot.

(** The bucket with its TVL replaced. *)
Definition withTvl (b : Volumes.bucket) (tvl : BigDecimal.t) : Volumes.bucket :=
  Volumes.mkBucket (Volumes.swapCount b) (Volumes.volumeToken0 b)
    (Volumes.volumeToken1 b) (Volumes.volumeUSD b) (Volumes.feesUSD b) tvl.

(** Everything in a bucket but its TVL. *)
Definition additive (b : Volumes.bucket)
  : Z * BigDecimal.t * BigDecimal.t * BigDecimal.t * BigDecimal.t :=
  (Volumes.swapCount b, Volumes.volumeToken0 b, Volumes.volumeToken1 b,
   Volumes.volumeUSD b, Volumes.feesUSD b).

End Snapshot.

(** ** Unrounded amounts *)

Module Exact.

(** The absolute amounts of an event divided by the powers of ten of the
    token decimals, before any digit is dropped. *)
Definition amount0 (pools : gmap string Pool.t) (tokens : gmap string Token.t)
    (event : Swap.t) : Q :=
  match Volumes.resolve pools tokens event with
  | Some (token0, _) =>
      (inject_Z (Z.abs (Swap.amount0 event))
       / inject_Z (10 ^ Z.max 0 (Token.decimals token0)))%Q
  | None => 0%Q
  end.

Definition amount1 (pools : gmap string Pool.t) (tokens : gmap string Token.t)
    (event : Swap.t) : Q :=
  match Volumes.resolve pools tokens event with
  | Some (_, token1) =>
      (inject_Z (Z.abs (Swap.amount1 event))
       / inject_Z (10 ^ Z.max 0 (Token.decimals token1)))%Q
  | None => 0%Q
  end.

(** The price of one token0 in token1 that a square-root price stands
    for, decimals adjusted. *)
Definition price0 (sqrtP dec0 dec1 : Z) : Q :=
  (inject_Z (sqrtP * sqrtP) / inject_Z (2 ^ 192)
   * (inject_Z (10 ^ dec0) / inject_Z (10 ^ dec1)))%Q.

End Exact.

(** ** Proof automation *)

(** Closed inequalities between rational constants. *)
Ltac qcompute := apply Qle_bool_iff; vm_compute; reflexivity.

(** ** Pool and token registration (factory and pool-manager mappings)

    The entities as the registration handlers fill them, with every field
    they assign. *)

Module TokenEntity.
Record t := mk {
  id : string;
  decimals : Z;
  symbol : option string;
  name : option string;
  chainId : Z;
  createdAtTimestamp : BigInt.t
}.
End TokenEntity.

Module PoolEntity.
Record t := mk {
  id : string;
  version : Z;
  chainId : Z;
  token0 : string;
  token1 : string;
  feeTierBps : Z;
  tickSpacing : Z;
  createdAtTimestamp : BigInt.t
}.
End PoolEntity.

(** The two tables the registration handlers read and write. *)
Module Registry.
Record t := mk {
  tokens : gmap string TokenEntity.t;
  pools : gmap string PoolEntity.t
}.

(** The part of a registered token and pool that the swap handlers read. *)
Definition tokenRef (e : TokenEntity.t) : Token.t :=
  Token.mk (TokenEntity.id e) (TokenEntity.decimals e).
Definition poolRef (e : PoolEntity.t) : Pool.t :=
  Pool.mk (PoolEntity.id e) (PoolEntity.token0 e) (PoolEntity.token1 e).

(** The store a swap handler sees: the registry next to the bucket tables
    of [buckets]. *)
Definition toStore (r : t) (buckets : Store.t) : Store.t :=
  Store.mk (poolRef <$> pools r) (tokenRef <$> tokens r)
    (Store.dayData buckets) (Store.hourData buckets) (Store.priceHour buckets).

(** Every pool names two registered tokens. *)
Definition closed (r : t) : Prop :=
  forall id pool,
    pools r !! id = Some pool ->
    is_Some (tokens r !! PoolEntity.token0 pool)
    /\ is_Some (tokens r !! PoolEntity.token1 pool).
End Registry.

(** The ERC-20 contracts behind [ERC20.bind(addr)]: each [try_] call
    answers with a value or reverts ([None]). *)
Module ERC20.
Record t := mk {
  try_decimals : string -> option Z;
  try_symbol : string -> option string;
  try_name : string -> option string
}.
End ERC20.

Module PoolCreated.
Record t := mk {
  token0 : string;
  token1 : string;
  fee : Z;
  tickSpacing : Z;
  pool : string;
  timestamp : BigInt.t
}.
End PoolCreated.

Module Initialize.
Record t := mk {
  id : string;
  currency0 : string;
  currency1 : string;
  fee : Z;
  tickSpacing : Z;
  timestamp : BigInt.t
}.
End Initialize.

Module Factory.

(** [x as i32] *)
Definition as_i32 (x : Z) : Z := I32.wrap x.

(** Returns the token id with the registry after the call.  The three
    registration mappings carry the same text of this function. *)
Definition getOrCreateToken (erc20 : ERC20.t) (r : Registry.t)
    (addr : string) (chainId : Z) (ts : BigInt.t) : Registry.t * string :=
  let id := toLowerCase addr in
  match Registry.tokens r !! id with
  | Some _ => (r, id)
  | None =>
      let token :=
        TokenEntity.mk id
          (match ERC20.try_decimals erc20 addr with
           | None => 18
           | Some value => as_i32 value
           end)
          (ERC20.try_symbol erc20 addr)
          (ERC20.try_name erc20 addr)
          chainId ts in
      (Registry.mk (<[id := token]> (Registry.tokens r)) (Registry.pools r), id)
  end.

Definition handlePoolCreated (erc20 : ERC20.t) (r : Registry.t)
    (event : PoolCreated.t) : Registry.t :=
  let poolId := toLowerCase (PoolCreated.pool event) in
  let '(r, t0) :=
    getOrCreateToken erc20 r (PoolCreated.token0 event) 1 (PoolCreated.timestamp event) in
  let '(r, t1) :=
    getOrCreateToken erc20 r (PoolCreated.token1 event) 1 (PoolCreated.timestamp event) in
  let pool :=
    PoolEntity.mk poolId 3 1 t0 t1 (as_i32 (PoolCreated.fee event))
      (as_i32 (PoolCreated.tickSpacing event)) (PoolCreated.timestamp event) in
  Registry.mk (Registry.tokens r) (<[poolId := pool]> (Registry.pools r)).

Definition handleInitialize (erc20 : ERC20.t) (r : Registry.t)
    (event : Initialize.t) : Registry.t :=
  let poolId := toLowerCase (Initialize.id event) in
  let '(r, t0) :=
    getOrCreateToken erc20 r (Initialize.currency0 event) 1 (Initialize.timestamp event) in
  let '(r, t1) :=
    getOrCreateToken erc20 r (Initialize.currency1 event) 1 (Initialize.timestamp event) in
  let pool :=
    PoolEntity.mk poolId 4 1 t0 t1 (as_i32 (Initialize.fee event))
      (as_i32 (Initialize.tickSpacing event)) (Initialize.timestamp event) in
  Registry.mk (Registry.tokens r) (<[poolId := pool]> (Registry.pools r)).

End Factory.

(** ** Sample registration data *)

Module Registered.

(** Token contracts: USDC answers every call, WETH reverts on
    [decimals()]. *)
Definition erc20_meta : ERC20.t :=
  ERC20.mk
    (fun addr => if String.eqb (toLowerCase addr) V3Pool.USDC then Some 6 else None)
    (fun addr => if String.eqb (toLowerCase addr) V3Pool.USDC then Some "USDC"%string
                 else Some "WETH"%string)
    (fun addr => None).

(** Creation of the USDC/WETH pool, as the factory and as the pool manager
    announce it. *)
Definition created : PoolCreated.t :=
  PoolCreated.mk "0xA0b86991c6218b36c1d19D4a2e9Eb0cE3606eB48"
    "0xC02aaA39b223FE8D0A0e5C4F27eAD9083C756Cc2" 500 10
    "0x88e6A0c2dDD26FEEb64F039a2c41296FcB3f5640" 1620000000.
Definition initialized : Initialize.t :=
  Initialize.mk "0x88e6A0c2dDD26FEEb64F039a2c41296FcB3f5640"
    "0xA0b86991c6218b36c1d19D4a2e9Eb0cE3606eB48"
    "0xC02aaA39b223FE8D0A0e5C4F27eAD9083C756Cc2" 500 10 1620000000.

End Registered.

(** * Properties *)

(** ** Host decimals: rounding to 34 significant digits *)

Section Rounding.

Local Open Scope Q_scope.

Lemma pow10_pos (e : Z) : 0 < BigDecimal.pow10 e.
Proof. apply Qpower_0_lt. reflexivity. Qed.

Lemma pow10_add (a b : Z) :
  BigDecimal.pow10 (a + b) == BigDecimal.pow10 a * BigDecimal.pow10 b.
Proof. apply Qpower_plus. discriminate. Qed.

Lemma pow10_Z (e : Z) : (0 <= e)%Z -> BigDecimal.pow10 e == inject_Z (10 ^ e).
Proof. intros He. unfold BigDecimal.pow10. now rewrite Zpower_Qpower. Qed.

Lemma inject_Z_lt0 (z : Z) : (0 < z)%Z -> 0 < inject_Z z.
Proof. intros Hz. change (inject_Z 0 < inject_Z z). now rewrite <- Zlt_Qlt. Qed.

Lemma pow10_mono (a b : Z) : (a <= b)%Z -> BigDecimal.pow10 a <= BigDecimal.pow10 b.
Proof.
  intros Hab. replace b with (a + (b - a))%Z by lia. rewrite pow10_add.
  rewrite <- (Qmult_1_r (BigDecimal.pow10 a)) at 1.
  apply Qmult_le_l; [apply pow10_pos|].
  rewrite pow10_Z by lia. change 1 with (inject_Z 1). rewrite <- Zle_Qle.
  pose proof (Z.pow_pos_nonneg 10 (b - a) ltac:(lia) ltac:(lia)). lia.
Qed.

Lemma below_pow10 (n : Z) (d : positive) (e : Z) :
  (0 <= e)%Z -> (n < Z.pos d * 10 ^ e)%Z -> (n # d) < BigDecimal.pow10 e.
Proof.
  intros He H. rewrite pow10_Z by exact He.
  unfold Qlt. cbn. lia.
Qed.

Lemma above_pow10_opp (n : Z) (d : positive) (j : Z) :
  (0 <= j)%Z -> (Z.pos d <= n * 10 ^ j)%Z -> BigDecimal.pow10 (- j) <= (n # d).
Proof.
  intros Hj H. unfold BigDecimal.pow10. rewrite Qpower_opp.
  fold (BigDecimal.pow10 j). rewrite pow10_Z by exact Hj.
  pose proof (Z.pow_pos_nonneg 10 j ltac:(lia) Hj) as Hpos.
  unfold Qle, Qinv. cbn.
  destruct (10 ^ j)%Z as [|p|p] eqn:Ep; try lia.
  cbn. lia.
Qed.

(** The bit lengths bracket a positive rational between two powers of
    ten. *)
Lemma ilog10_bracket (x : Q) :
  0 < x ->
  let m := (Z.log2 (Qnum x) - Z.log2 (Zpos (Qden x)) + 1)%Z in
  BigDecimal.pow10 (Z.min (m - 2) 0) <= x /\ x < BigDecimal.pow10 (Z.max m 0).
Proof.
  intros Hx. destruct x as [n d]. cbn [Qnum Qden].
  assert (Hn : (1 <= n)%Z) by (unfold Qlt in Hx; cbn in Hx; lia).
  destruct (Z.log2_spec n ltac:(lia)) as [Na Nb].
  destruct (Z.log2_spec (Z.pos d) ltac:(lia)) as [Da Db].
  pose proof (Z.log2_nonneg n) as Ha. pose proof (Z.log2_nonneg (Z.pos d)) as Hb.
  set (a := Z.log2 n) in *. set (b := Z.log2 (Z.pos d)) in *.
  rewrite <- Z.add_1_r in Nb, Db.
  cbv zeta.
  assert (P2 : forall e, (0 <= e)%Z -> (0 < 2 ^ e)%Z)
    by (intros e He; apply Z.pow_pos_nonneg; lia).
  assert (P10 : forall e, (0 <= e)%Z -> (2 ^ e <= 10 ^ e)%Z)
    by (intros e He; apply Z.pow_le_mono_l; lia).
  split.
  - destruct (Z.le_gt_cases 0 (a - b + 1 - 2)) as [Hm | Hm].
    + rewrite Z.min_r by lia. change (BigDecimal.pow10 0) with 1.
      unfold Qle. cbn.
      assert (2 ^ (b + 1) <= 2 ^ a)%Z by (apply Z.pow_le_mono_r; lia). lia.
    + rewrite Z.min_l by lia.
      replace (a - b + 1 - 2)%Z with (- (b + 1 - a))%Z by lia.
      apply above_pow10_opp; [lia|].
      assert (E : (2 ^ (b + 1) = 2 ^ a * 2 ^ (b + 1 - a))%Z)
        by (rewrite <- Z.pow_add_r by lia; f_equal; lia).
      pose proof (P10 (b + 1 - a)%Z ltac:(lia)).
      pose proof (P2 (b + 1 - a)%Z ltac:(lia)). pose proof (P2 a Ha). nia.
  - destruct (Z.le_gt_cases 0 (a - b + 1)) as [Hm | Hm].
    + rewrite Z.max_l by lia. apply below_pow10; [lia|].
      assert (E : (2 ^ (a + 1) = 2 ^ b * 2 ^ (a - b + 1))%Z)
        by (rewrite <- Z.pow_add_r by lia; f_equal; lia).
      pose proof (P10 (a - b + 1)%Z ltac:(lia)).
      pose proof (P2 (a - b + 1)%Z ltac:(lia)). pose proof (P2 b Hb). nia.
    + rewrite Z.max_r by lia. change (BigDecimal.pow10 0) with 1.
      unfold Qlt. cbn.
      assert (2 ^ (a + 1) <= 2 ^ b)%Z by (apply Z.pow_le_mono_r; lia). lia.
Qed.

Lemma ilog10_search_spec (fuel : nat) (k : Z) (x : Q) :
  BigDecimal.pow10 (k - Z.of_nat fuel) <= x ->
  x < BigDecimal.pow10 (k + 1) ->
  BigDecimal.pow10 (BigDecimal.ilog10_search fuel k x) <= x
  /\ x < BigDecimal.pow10 (BigDecimal.ilog10_search fuel k x + 1).
Proof.
  revert k. induction fuel as [|fuel IH]; intros k Hlow Hhigh;
    cbn [BigDecimal.ilog10_search].
  - rewrite Z.sub_0_r in Hlow. now split.
  - destruct (Qle_bool (BigDecimal.pow10 k) x) eqn:E.
    + split; [now apply Qle_bool_iff | exact Hhigh].
    + apply IH.
      * replace (k - 1 - Z.of_nat fuel)%Z with (k - Z.of_nat (S fuel))%Z by lia.
        exact Hlow.
      * replace (k - 1 + 1)%Z with k by lia.
        apply Qnot_le_lt. intros Hle. apply Qle_bool_iff in Hle. congruence.
Qed.

(** [ilog10] is the position of the leading digit. *)
Lemma ilog10_spec (x : Q) :
  0 < x ->
  BigDecimal.pow10 (BigDecimal.ilog10 x) <= x
  /\ x < BigDecimal.pow10 (BigDecimal.ilog10 x + 1).
Proof.
  intros Hx. destruct (ilog10_bracket x Hx) as [Hlo Hhi].
  unfold BigDecimal.ilog10.
  set (m := (Z.log2 (Qnum x) - Z.log2 (Z.pos (Qden x)) + 1)%Z) in *.
  apply ilog10_search_spec.
  - rewrite Z2Nat.id by lia.
    replace (Z.max m 0 - (Z.max m 0 - Z.min (m - 2) 0))%Z
      with (Z.min (m - 2) 0) by lia.
    exact Hlo.
  - eapply Qlt_le_trans; [exact Hhi|]. apply pow10_mono. lia.
Qed.

Lemma ilog10_le (x : Q) : 0 < x -> BigDecimal.pow10 (BigDecimal.ilog10 x) <= x.
Proof. intros Hx. now apply ilog10_spec. Qed.

Lemma half_up_bounds (y : Q) :
  y - (1 # 2) <= inject_Z (Qfloor (y + (1 # 2))) <= y + (1 # 2).
Proof.
  pose proof (Qfloor_le (y + (1 # 2))) as Hlo.
  pose proof (Qlt_floor (y + (1 # 2))) as Hhi.
  rewrite inject_Z_plus in Hhi. change (inject_Z 1) with 1 in Hhi.
  split; lra.
Qed.

Lemma scaled_ge (x : Q) :
  0 < x ->
  inject_Z (10 ^ 33) <= x / BigDecimal.pow10 (BigDecimal.ilog10 x - 33).
Proof.
  intros Hx. pose proof (ilog10_le x Hx) as Hk.
  pose proof (pow10_pos (BigDecimal.ilog10 x - 33)) as He.
  apply Qle_shift_div_l; [exact He|].
  rewrite <- (pow10_Z 33) by lia.
  rewrite <- pow10_add.
  replace (33 + (BigDecimal.ilog10 x - 33))%Z with (BigDecimal.ilog10 x) by lia.
  exact Hk.
Qed.

Lemma round34_near (x : Q) :
  0 < x ->
  (1 - BigDecimal.unit) * x <= BigDecimal.round34 x
  /\ BigDecimal.round34 x <= (1 + BigDecimal.unit) * x.
Proof.
  intros Hx. unfold BigDecimal.round34.
  pose proof (scaled_ge x Hx) as Hy.
  pose proof (pow10_pos (BigDecimal.ilog10 x - 33)) as He.
  set (p := BigDecimal.pow10 (BigDecimal.ilog10 x - 33)) in *.
  destruct (half_up_bounds (x / p)) as [Hlo Hhi].
  set (m := inject_Z (Qfloor (x / p + (1 # 2)))) in *.
  assert (Hxp : x / p * p == x) by (field; intros H0; rewrite H0 in He; discriminate).
  set (y := x / p) in *.
  assert (Hhalf : (1 # 2) <= BigDecimal.unit * y).
  { unfold BigDecimal.unit.
    change (inject_Z (10 ^ 33)) with (1000000000000000000000000000000000 # 1) in Hy.
    lra. }
  split.
  - apply Qle_trans with ((1 - BigDecimal.unit) * y * p).
    + rewrite <- Qmult_assoc, Hxp. apply Qle_refl.
    + apply Qmult_le_compat_r; [lra | now apply Qlt_le_weak].
  - apply Qle_trans with ((1 + BigDecimal.unit) * y * p).
    + apply Qmult_le_compat_r; [lra | now apply Qlt_le_weak].
    + rewrite <- Qmult_assoc, Hxp. apply Qle_refl.
Qed.

(** [round34] keeps 34 significant digits and rounds to nearest, halves
    up: the result is an integer [M] of 34 digits (or [10^34] when the
    rounding carries) times the unit [10^e] of the 34th digit of [x], and
    [M] is [x / 10^e + 1/2] rounded down. *)
Lemma round34_spec (x : Q) :
  0 < x ->
  let e := (BigDecimal.ilog10 x - 33)%Z in
  let M := Qfloor (x / BigDecimal.pow10 e + (1 # 2)) in
  BigDecimal.pow10 (e + 33) <= x /\ x < BigDecimal.pow10 (e + 34)
  /\ BigDecimal.round34 x == inject_Z M * BigDecimal.pow10 e
  /\ (10 ^ 33 <= M <= 10 ^ 34)%Z
  /\ x - BigDecimal.pow10 e * (1 # 2) < BigDecimal.round34 x
  /\ BigDecimal.round34 x <= x + BigDecimal.pow10 e * (1 # 2).
Proof.
  intros Hx e M. destruct (ilog10_spec x Hx) as [Hlo Hhi].
  replace (e + 33)%Z with (BigDecimal.ilog10 x) by (unfold e; lia).
  replace (e + 34)%Z with (BigDecimal.ilog10 x + 1)%Z by (unfold e; lia).
  split; [exact Hlo|]. split; [exact Hhi|].
  split; [reflexivity|].
  pose proof (pow10_pos e) as He.
  assert (Hne : ~ BigDecimal.pow10 e == 0)
    by (intros H0; rewrite H0 in He; discriminate).
  set (y := x / BigDecimal.pow10 e).
  assert (Hy1 : inject_Z (10 ^ 33) <= y) by (apply scaled_ge, Hx).
  assert (Hy2 : y < inject_Z (10 ^ 34)).
  { unfold y. apply Qlt_shift_div_r; [exact He|].
    rewrite <- (pow10_Z 34) by lia. rewrite <- pow10_add.
    replace (34 + e)%Z with (BigDecimal.ilog10 x + 1)%Z by (unfold e; lia).
    exact Hhi. }
  pose proof (Qfloor_le (y + (1 # 2))) as F1.
  pose proof (Qlt_floor (y + (1 # 2))) as F2.
  change (Qfloor (y + (1 # 2))) with M in F1, F2.
  rewrite inject_Z_plus in F2. change (inject_Z 1) with 1 in F2.
  split.
  - split.
    + assert (H : inject_Z (10 ^ 33) < inject_Z (M + 1)).
      { rewrite inject_Z_plus. change (inject_Z 1) with 1. lra. }
      rewrite <- Zlt_Qlt in H. lia.
    + assert (H : inject_Z M < inject_Z (10 ^ 34 + 1)).
      { rewrite inject_Z_plus. change (inject_Z 1) with 1. lra. }
      rewrite <- Zlt_Qlt in H. lia.
  - change (BigDecimal.round34 x) with (inject_Z M * BigDecimal.pow10 e).
    split.
    + assert (E : x - BigDecimal.pow10 e * (1 # 2)
                  == (y - (1 # 2)) * BigDecimal.pow10 e)
        by (unfold y; field; exact Hne).
      rewrite E. apply Qmult_lt_compat_r; [exact He | lra].
    + assert (E : x + BigDecimal.pow10 e * (1 # 2)
                  == (y + (1 # 2)) * BigDecimal.pow10 e)
        by (unfold y; field; exact Hne).
      rewrite E. apply Qmult_le_compat_r; [exact F1 | now apply Qlt_le_weak].
Qed.

Lemma round34_exact (x : Q) (m k : Z) :
  (0 < m < 10 ^ 34)%Z ->
  x == inject_Z m * BigDecimal.pow10 k ->
  BigDecimal.round34 x == x.
Proof.
  intros Hm Hx.
  assert (Hpos : 0 < x).
  { rewrite Hx. apply Qmult_lt_0_compat; [apply inject_Z_lt0; lia | apply pow10_pos]. }
  pose proof (ilog10_le x Hpos) as Hk.
  assert (Hlt : x < BigDecimal.pow10 (34 + k)).
  { rewrite Hx, pow10_add, (pow10_Z 34) by lia.
    apply Qmult_lt_compat_r; [apply pow10_pos|].
    rewrite <- Zlt_Qlt. lia. }
  assert (Hkk : (BigDecimal.ilog10 x < 34 + k)%Z).
  { apply (Qpower_lt_compat_l_inv (inject_Z 10)); [|reflexivity].
    eapply Qle_lt_trans; [exact Hk | exact Hlt]. }
  unfold BigDecimal.round34.
  set (e := (BigDecimal.ilog10 x - 33)%Z) in *.
  pose proof (pow10_pos e) as He.
  assert (Hne : ~ BigDecimal.pow10 e == 0) by (intros H0; rewrite H0 in He; discriminate).
  assert (Hy : x / BigDecimal.pow10 e == inject_Z (m * 10 ^ (k - e))).
  { rewrite Hx, inject_Z_mult, <- pow10_Z by lia.
    replace k with ((k - e) + e)%Z at 1 by lia. rewrite pow10_add. field. exact Hne. }
  assert (Hfl : Qfloor (x / BigDecimal.pow10 e + (1 # 2)) = (m * 10 ^ (k - e))%Z).
  { rewrite Hy.
    pose proof (Qfloor_le (inject_Z (m * 10 ^ (k - e)) + (1 # 2))) as Hlo.
    pose proof (Qlt_floor (inject_Z (m * 10 ^ (k - e)) + (1 # 2))) as Hhi.
    set (f := Qfloor (inject_Z (m * 10 ^ (k - e)) + (1 # 2))) in *.
    set (z := (m * 10 ^ (k - e))%Z) in *.
    assert (H1 : inject_Z f < inject_Z (z + 1)).
    { rewrite inject_Z_plus. change (inject_Z 1) with 1. lra. }
    assert (H2 : inject_Z z < inject_Z (f + 1)).
    { rewrite inject_Z_plus in Hhi |- *. change (inject_Z 1) with 1 in *. lra. }
    rewrite <- Zlt_Qlt in H1, H2. lia. }
  rewrite Hfl, <- Hy. field. exact Hne.
Qed.

Lemma normalized_proper (x y : Q) :
  x == y -> BigDecimal.normalized x = BigDecimal.normalized y.
Proof.
  intros Hxy. unfold BigDecimal.normalized. now rewrite (Qred_complete x y Hxy).
Qed.

Lemma normalized_of_zero (q : Q) : q == 0 -> BigDecimal.normalized q = 0.
Proof.
  intros Hq. unfold BigDecimal.normalized.
  assert (H : Qeq_bool (Qred q) 0 = true)
    by (apply Qeq_bool_iff; now rewrite Qred_correct).
  now rewrite H.
Qed.

Lemma normalized_of_pos (q : Q) :
  0 < q -> BigDecimal.normalized q == BigDecimal.round34 (Qred q).
Proof.
  intros Hq. unfold BigDecimal.normalized.
  assert (Hr : 0 < Qred q) by now rewrite Qred_correct.
  destruct (Qeq_bool (Qred q) 0) eqn:E.
  - apply Qeq_bool_iff in E. rewrite E in Hr. discriminate.
  - assert (Hle : Qle_bool 0 (Qred q) = true)
      by (apply Qle_bool_iff; now apply Qlt_le_weak).
    rewrite Hle. apply Qred_correct.
Qed.

Lemma normalized_near (q : Q) :
  0 <= q ->
  (1 - BigDecimal.unit) * q <= BigDecimal.normalized q
  /\ BigDecimal.normalized q <= (1 + BigDecimal.unit) * q.
Proof.
  intros Hq. apply Qle_lteq in Hq as [Hpos | Hz].
  - rewrite (normalized_of_pos q Hpos).
    assert (Hr : 0 < Qred q) by now rewrite Qred_correct.
    destruct (round34_near (Qred q) Hr) as [Hlo Hhi].
    rewrite Qred_correct in Hlo at 1. rewrite Qred_correct in Hhi at 2.
    now split.
  - rewrite (normalized_of_zero q) by now symmetry.
    rewrite <- Hz. split; rewrite Qmult_0_r; apply Qle_refl.
Qed.

Lemma normalized_exact (q : Q) (m k : Z) :
  (0 <= m < 10 ^ 34)%Z ->
  q == inject_Z m * BigDecimal.pow10 k ->
  BigDecimal.normalized q == q.
Proof.
  intros Hm Hq.
  destruct (Z.eq_dec m 0%Z) as [-> | Hne].
  - assert (Hz : q == 0) by (rewrite Hq; ring).
    rewrite (normalized_of_zero q Hz). now symmetry.
  - assert (Hpos : 0 < q).
    { rewrite Hq. apply Qmult_lt_0_compat; [apply inject_Z_lt0; lia | apply pow10_pos]. }
    rewrite (normalized_of_pos q Hpos).
    rewrite (round34_exact (Qred q) m k) by (try lia; now rewrite Qred_correct).
    apply Qred_correct.
Qed.

Lemma unit_bounds : 0 < BigDecimal.unit /\ BigDecimal.unit < 1.
Proof. split; reflexivity. Qed.

Lemma zero_is_0 : BigDecimal.zero = 0.
Proof. reflexivity. Qed.

Lemma one_is_1 : BigDecimal.one = 1.
Proof. reflexivity. Qed.

Lemma normalized_nonneg (q : Q) : 0 <= q -> 0 <= BigDecimal.normalized q.
Proof.
  intros Hq. destruct (normalized_near q Hq) as [Hlo _].
  destruct unit_bounds as [_ Hu].
  eapply Qle_trans; [|exact Hlo].
  apply Qmult_le_0_compat; [lra | exact Hq].
Qed.

Lemma normalized_pos (q : Q) : 0 < q -> 0 < BigDecimal.normalized q.
Proof.
  intros Hq. destruct (normalized_near q (Qlt_le_weak _ _ Hq)) as [Hlo _].
  destruct unit_bounds as [_ Hu].
  eapply Qlt_le_trans; [|exact Hlo].
  apply Qmult_lt_0_compat; [lra | exact Hq].
Qed.

(** *** Relative accuracy through the operations *)

Lemma within_exact (x a : Q) : x == a -> Approx.within 1 1 x a.
Proof. intros H. unfold Approx.within. rewrite H. split; lra. Qed.

Lemma within_weaken (lo hi lo' hi' x a : Q) :
  0 <= a -> lo' <= lo -> hi <= hi' ->
  Approx.within lo hi x a -> Approx.within lo' hi' x a.
Proof.
  intros Ha Hlo Hhi [H1 H2]. split.
  - eapply Qle_trans; [|exact H1]. apply Qmult_le_compat_r; assumption.
  - eapply Qle_trans; [exact H2|]. apply Qmult_le_compat_r; assumption.
Qed.

Lemma within_nonneg (lo hi x a : Q) :
  0 <= a -> 0 <= lo -> Approx.within lo hi x a -> 0 <= x.
Proof.
  intros Ha Hlo [H1 _]. eapply Qle_trans; [|exact H1].
  now apply Qmult_le_0_compat.
Qed.

Lemma within_pos (lo hi x a : Q) :
  0 < a -> 0 < lo -> Approx.within lo hi x a -> 0 < x.
Proof.
  intros Ha Hlo [H1 _]. eapply Qlt_le_trans; [|exact H1].
  now apply Qmult_lt_0_compat.
Qed.

Lemma within_normalized (lo hi x a : Q) :
  0 <= a -> 0 <= lo -> Approx.within lo hi x a ->
  Approx.within (lo * (1 - BigDecimal.unit)) (hi * (1 + BigDecimal.unit))
    (BigDecimal.normalized x) a.
Proof.
  intros Ha Hlo Hw.
  pose proof (within_nonneg _ _ _ _ Ha Hlo Hw) as Hx.
  destruct Hw as [H1 H2].
  destruct (normalized_near x Hx) as [N1 N2].
  destruct unit_bounds as [U0 U1].
  set (u := BigDecimal.unit) in *.
  split.
  - eapply Qle_trans; [|exact N1].
    setoid_replace (lo * (1 - u) * a) with ((1 - u) * (lo * a)) using relation Qeq by ring.
    apply Qmult_le_l; [lra | exact H1].
  - eapply Qle_trans; [exact N2|].
    setoid_replace (hi * (1 + u) * a) with ((1 + u) * (hi * a)) using relation Qeq by ring.
    apply Qmult_le_l; [lra | exact H2].
Qed.

Lemma within_mult (lo1 hi1 lo2 hi2 x y a b : Q) :
  0 <= a -> 0 <= b -> 0 <= lo1 -> 0 <= lo2 ->
  Approx.within lo1 hi1 x a -> Approx.within lo2 hi2 y b ->
  Approx.within (lo1 * lo2) (hi1 * hi2) (x * y) (a * b).
Proof.
  intros Ha Hb Hl1 Hl2 Hx Hy.
  pose proof (within_nonneg _ _ _ _ Ha Hl1 Hx) as Hx0.
  pose proof (within_nonneg _ _ _ _ Hb Hl2 Hy) as Hy0.
  destruct Hx as [X1 X2], Hy as [Y1 Y2].
  assert (A1 : 0 <= lo1 * a) by now apply Qmult_le_0_compat.
  assert (B1 : 0 <= lo2 * b) by now apply Qmult_le_0_compat.
  split.
  - setoid_replace (lo1 * lo2 * (a * b)) with ((lo1 * a) * (lo2 * b)) using relation Qeq by ring.
    apply Qle_trans with (x * (lo2 * b)).
    + apply Qmult_le_compat_r; assumption.
    + rewrite !(Qmult_comm x). apply Qmult_le_compat_r; assumption.
  - setoid_replace (hi1 * hi2 * (a * b)) with ((hi1 * a) * (hi2 * b)) using relation Qeq by ring.
    apply Qle_trans with (x * (hi2 * b)).
    + rewrite !(Qmult_comm x). apply Qmult_le_compat_r; assumption.
    + apply Qmult_le_compat_r; [assumption|].
      eapply Qle_trans; [exact Hy0 | exact Y2].
Qed.

Lemma Qinv_le_antitone (p q : Q) : 0 < p -> p <= q -> / q <= / p.
Proof.
  intros Hp Hpq.
  assert (Hq : 0 < q) by lra.
  assert (E1 : / p == 1 / p) by (field; lra).
  rewrite E1. apply Qle_shift_div_l; [exact Hp|].
  assert (E2 : / q * p == p / q) by (field; lra).
  rewrite E2. apply Qle_shift_div_r; [exact Hq | lra].
Qed.

Lemma within_inv (lo hi y b : Q) :
  0 < b -> 0 < lo -> Approx.within lo hi y b ->
  0 < hi /\ Approx.within (/ hi) (/ lo) (/ y) (/ b).
Proof.
  intros Hb Hlo Hy.
  pose proof (within_pos _ _ _ _ Hb Hlo Hy) as Hy0.
  destruct Hy as [Y1 Y2].
  assert (Hhb : 0 < hi * b) by (eapply Qlt_le_trans; [exact Hy0 | exact Y2]).
  assert (Hhi : 0 < hi).
  { destruct (Qlt_le_dec 0 hi) as [H | H]; [exact H | exfalso].
    assert (0 <= (- hi) * b) by (apply Qmult_le_0_compat; lra).
    assert (E : hi * b == - ((- hi) * b)) by ring.
    lra. }
  assert (Hlb : 0 < lo * b) by now apply Qmult_lt_0_compat.
  split; [exact Hhi|]. split.
  - assert (E : / hi * / b == / (hi * b)) by (field; split; lra).
    rewrite E. now apply Qinv_le_antitone.
  - assert (E : / lo * / b == / (lo * b)) by (field; split; lra).
    rewrite E. now apply Qinv_le_antitone.
Qed.

Lemma within_div (lo1 hi1 lo2 hi2 x y a b : Q) :
  0 <= a -> 0 < b -> 0 <= lo1 -> 0 < lo2 ->
  Approx.within lo1 hi1 x a -> Approx.within lo2 hi2 y b ->
  Approx.within (lo1 / hi2) (hi1 / lo2) (x / y) (a / b).
Proof.
  intros Ha Hb Hl1 Hl2 Hx Hy.
  destruct (within_inv _ _ _ _ Hb Hl2 Hy) as [Hhi Hi].
  unfold Qdiv.
  apply within_mult; try assumption.
  - apply Qlt_le_weak, Qinv_lt_0_compat, Hb.
  - apply Qlt_le_weak, Qinv_lt_0_compat, Hhi.
Qed.

End Rounding.

(** ** Integer helpers *)

Lemma I32_wrap_id (z : Z) : I32.in_range z -> I32.wrap z = z.
Proof.
  unfold I32.in_range, I32.wrap. intros Hz.
  rewrite Z.mod_small by lia. lia.
Qed.

Lemma I32_wrap_in_range (z : Z) : I32.in_range (I32.wrap z).
Proof.
  unfold I32.in_range, I32.wrap.
  pose proof (Z.mod_pos_bound (z + 2 ^ 31) (2 ^ 32) ltac:(lia)). lia.
Qed.

Lemma I32_wrap_add_l (a b : Z) : I32.wrap (I32.wrap a + b) = I32.wrap (a + b).
Proof.
  unfold I32.wrap. f_equal.
  replace ((a + 2 ^ 31) mod 2 ^ 32 - 2 ^ 31 + b + 2 ^ 31)
    with ((a + 2 ^ 31) mod 2 ^ 32 + b) by lia.
  replace (a + b + 2 ^ 31) with ((a + 2 ^ 31) + b) by lia.
  rewrite Zplus_mod_idemp_l. reflexivity.
Qed.

Lemma I32_div_nonneg (x y : Z) :
  0 <= x < 2 ^ 31 -> 0 < y -> I32.div x y = x / y.
Proof.
  intros Hx Hy. unfold I32.div.
  rewrite Z.quot_div_nonneg by lia.
  apply I32_wrap_id. unfold I32.in_range.
  pose proof (Z.div_pos x y ltac:(lia) Hy).
  pose proof (Z.div_le_compat_l x 1 y ltac:(lia) ltac:(lia)) as Hle.
  rewrite Z.div_1_r in Hle. lia.
Qed.

Lemma fits_i32_true (ts : Z) :
  BigInt.fits_i32 ts = true <-> - 2 ^ 32 <= ts < 2 ^ 32.
Proof. unfold BigInt.fits_i32. rewrite andb_true_iff, Z.leb_le, Z.ltb_lt. tauto. Qed.

Lemma fits_i32_false (ts : Z) :
  BigInt.fits_i32 ts = false <-> ts < - 2 ^ 32 \/ 2 ^ 32 <= ts.
Proof.
  unfold BigInt.fits_i32. rewrite andb_false_iff, Z.leb_gt, Z.ltb_ge. tauto.
Qed.

Lemma toI32_fits (ts : Z) :
  BigInt.fits_i32 ts = true -> BigInt.toI32 ts = Some (I32.wrap ts).
Proof. intros H. unfold BigInt.toI32. now rewrite H. Qed.

Lemma toI32_aborts (ts : Z) :
  BigInt.fits_i32 ts = false -> BigInt.toI32 ts = None.
Proof. intros H. unfold BigInt.toI32. now rewrite H. Qed.

Lemma toI32_in_range (ts : Z) : 0 <= ts < 2 ^ 31 -> BigInt.toI32 ts = Some ts.
Proof.
  intros Hts. rewrite toI32_fits by (apply fits_i32_true; lia).
  now rewrite I32_wrap_id by (unfold I32.in_range; lia).
Qed.

Lemma I32_wrap_high (ts : Z) : 2 ^ 31 <= ts < 2 ^ 32 -> I32.wrap ts = ts - 2 ^ 32.
Proof.
  intros Hts. unfold I32.wrap.
  replace (ts + 2 ^ 31) with (ts - 2 ^ 31 + 1 * 2 ^ 32) by lia.
  rewrite Z_mod_plus_full, Z.mod_small by lia. lia.
Qed.

Lemma I32_div_nonpos (x y : Z) :
  - 2 ^ 31 <= x <= 0 -> 1 < y -> I32.div x y = Z.quot x y /\ Z.quot x y <= 0.
Proof.
  intros Hx Hy. unfold I32.div.
  pose proof (Z.quot_pos (- x) y ltac:(lia) ltac:(lia)) as Hlo.
  rewrite Z.quot_opp_l in Hlo by lia.
  pose proof (Z.quot_le_upper_bound (- x) y (2 ^ 31) ltac:(lia) ltac:(lia)) as Hup.
  rewrite Z.quot_opp_l in Hup by lia.
  split; [|lia].
  apply I32_wrap_id. unfold I32.in_range. lia.
Qed.

(** ** Bucket indices *)

Lemma hourId_in_range (ts : Z) :
  0 <= ts < 2 ^ 31 -> V3Pool.hourId ts = Some (ts / 3600).
Proof.
  intros Hts. unfold V3Pool.hourId. rewrite toI32_in_range by lia. simpl.
  now rewrite I32_div_nonneg by lia.
Qed.

Lemma dayId_in_range (ts : Z) :
  0 <= ts < 2 ^ 31 -> V3Pool.dayId ts = Some (ts / 86400).
Proof.
  intros Hts. unfold V3Pool.dayId. rewrite toI32_in_range by lia. simpl.
  now rewrite I32_div_nonneg by lia.
Qed.

(** The keys the two mappings build are the same, and are the key of
    [Volumes] whenever the timestamp converts. *)
Lemma hourKey_converts (poolId : string) (ts : Z) :
  BigInt.fits_i32 ts = true ->
  V3PoolPlain.hourKey poolId ts
  = Some (poolId +:+ "-" +:+ I32.toString (I32.div (I32.wrap ts) 3600))
  /\ V3Pool.hourId ts = Some (I32.div (I32.wrap ts) 3600).
Proof.
  intros H. unfold V3PoolPlain.hourKey, V3Pool.hourId.
  now rewrite (toI32_fits ts H).
Qed.

Lemma dayKey_converts (poolId : string) (ts : Z) :
  BigInt.fits_i32 ts = true ->
  V3PoolPlain.dayKey poolId ts
  = Some (poolId +:+ "-" +:+ I32.toString (I32.div (I32.wrap ts) 86400))
  /\ V3Pool.dayId ts = Some (I32.div (I32.wrap ts) 86400).
Proof.
  intros H. unfold V3PoolPlain.dayKey, V3Pool.dayId.
  now rewrite (toI32_fits ts H).
Qed.

(** C9, as stated, fails: at timestamp [2^31] the 32-bit conversion yields
    [-2^31], and the hour index is [-596523] instead of [596523]. *)
Lemma bucket_index_wraps_at_2_31 :
  V3Pool.hourId (2 ^ 31) = Some (-596523) /\ (2 ^ 31) / 3600 = 596523
  /\ V3Pool.hourId (2 ^ 31) <> Some ((2 ^ 31) / 3600).
Proof. vm_compute. repeat split; discriminate. Qed.

(** C9 (amended): for every timestamp in [0, 2^31) the conversion to [i32]
    succeeds, the hour index is [floor (ts / 3600)] and the day index is
    [floor (ts / 86400)], in the unified mapping ([hourId], [dayId]) and in
    the keys and index fields the volume-only mapping builds in [ensureHour]
    and [ensureDay]. *)
Theorem bucket_index_is_floor (st : Store.t) (poolId : string) (ts : Z) :
  0 <= ts < 2 ^ 31 ->
  V3Pool.hourId ts = Some (ts / 3600)
  /\ V3Pool.dayId ts = Some (ts / 86400)
  /\ V3PoolPlain.hourKey poolId ts
     = Some (poolId +:+ "-" +:+ I32.toString (ts / 3600))
  /\ V3PoolPlain.dayKey poolId ts
     = Some (poolId +:+ "-" +:+ I32.toString (ts / 86400))
  /\ (Store.hourData st !! (poolId +:+ "-" +:+ I32.toString (ts / 3600)) = None ->
      PoolHourData.hourStartUnix <$> V3PoolPlain.ensureHour st poolId ts
      = Some (ts / 3600))
  /\ (Store.dayData st !! (poolId +:+ "-" +:+ I32.toString (ts / 86400)) = None ->
      PoolDayData.date <$> V3PoolPlain.ensureDay st poolId ts
      = Some (ts / 86400)).
Proof.
  intros Hts.
  pose proof (toI32_in_range ts Hts) as Hc.
  assert (Hh : I32.div ts 3600 = ts / 3600) by (apply I32_div_nonneg; lia).
  assert (Hd : I32.div ts 86400 = ts / 86400) by (apply I32_div_nonneg; lia).
  split; [now apply hourId_in_range|].
  split; [now apply dayId_in_range|].
  split; [unfold V3PoolPlain.hourKey; rewrite Hc; simpl; now rewrite Hh|].
  split; [unfold V3PoolPlain.dayKey; rewrite Hc; simpl; now rewrite Hd|].
  split.
  - intros Hfresh. unfold V3PoolPlain.ensureHour, Load.hourData.
    rewrite Hc. simpl. rewrite Hh, Hfresh. reflexivity.
  - intros Hfresh. unfold V3PoolPlain.ensureDay, Load.dayData.
    rewrite Hc. simpl. rewrite Hd, Hfresh. reflexivity.
Qed.

Lemma bucket_index_is_floor_witness :
  V3Pool.hourId 1700000000 = Some (1700000000 / 3600)
  /\ V3Pool.dayId 1700000000 = Some (1700000000 / 86400).
Proof.
  destruct (bucket_index_is_floor Sample.empty_store "0xpool" 1700000000 ltac:(lia))
    as (Hh & Hd & _).
  split; [exact Hh | exact Hd].
Defined.

(** X12: for timestamps in [0, 2^31) both indices are computed, the day
    index is the hour index divided by 24, both indices are non-negative
    and never decrease as the timestamp grows, and two timestamps in the
    same hour get the same hour index and the same day index. *)
Theorem hour_and_day_indices_agree (ts ts' : Z) :
  0 <= ts < 2 ^ 31 -> 0 <= ts' < 2 ^ 31 ->
  exists h d h' d',
    V3Pool.hourId ts = Some h /\ V3Pool.dayId ts = Some d
    /\ V3Pool.hourId ts' = Some h' /\ V3Pool.dayId ts' = Some d'
    /\ d = h / 24
    /\ 0 <= h
    /\ (ts <= ts' -> h <= h' /\ d <= d')
    /\ (h = h' -> d = d').
Proof.
  intros Hts Hts'.
  exists (ts / 3600), (ts / 86400), (ts' / 3600), (ts' / 86400).
  rewrite !hourId_in_range, !dayId_in_range by assumption.
  assert (Hdd : forall t, t / 86400 = t / 3600 / 24)
    by (intros t; rewrite Z.div_div by lia; reflexivity).
  repeat (split; [reflexivity|]).
  split; [apply Hdd|].
  split; [apply Z.div_pos; lia|].
  split.
  - intros Hle. split; apply Z.div_le_mono; lia.
  - intros Heq. rewrite !Hdd. now rewrite Heq.
Qed.

Lemma hour_and_day_indices_agree_witness :
  exists h d, V3Pool.hourId 1700000000 = Some h
    /\ V3Pool.dayId 1700000000 = Some d /\ d = h / 24.
Proof.
  destruct (hour_and_day_indices_agree 1700000000 1700000001
              ltac:(lia) ltac:(lia))
    as (h & d & _ & _ & Hh & Hd & _ & _ & Hdh & _).
  exists h, d. repeat split; assumption.
Defined.

Lemma dash_free_prefix_inj (p1 p2 s1 s2 : string) :
  ~ In "-"%char (list_ascii_of_string p1) ->
  ~ In "-"%char (list_ascii_of_string p2) ->
  p1 +:+ "-" +:+ s1 = p2 +:+ "-" +:+ s2 ->
  p1 = p2 /\ s1 = s2.
Proof.
  revert p2. induction p1 as [|c p1 IH]; intros [|c2 p2] H1 H2 Heq; simpl in *.
  - injection Heq as Heq. now split.
  - injection Heq as Hc _. exfalso. apply H2. left. now symmetry.
  - injection Heq as Hc _. exfalso. apply H1. now left.
  - injection Heq as Hc Heq. subst c2.
    destruct (IH p2) as [Hp Hs]; [tauto | tauto | exact Heq |].
    subst. now split.
Qed.

(** X13: for pool ids that contain no ['-'] (such as the hexadecimal ids
    the handlers build), the hour key and the day key determine the pool id
    and the bucket index: two (pool, timestamp) pairs that are given the
    same key have the same pool and the same index. *)
Theorem bucket_key_determines_pool_and_index (pool1 pool2 : string) (ts1 ts2 : Z)
    (key : string) :
  ~ In "-"%char (list_ascii_of_string pool1) ->
  ~ In "-"%char (list_ascii_of_string pool2) ->
  (V3PoolPlain.hourKey pool1 ts1 = Some key ->
   V3PoolPlain.hourKey pool2 ts2 = Some key ->
   pool1 = pool2 /\ V3Pool.hourId ts1 = V3Pool.hourId ts2
   /\ V3Pool.hourId ts1 <> None)
  /\ (V3PoolPlain.dayKey pool1 ts1 = Some key ->
      V3PoolPlain.dayKey pool2 ts2 = Some key ->
      pool1 = pool2 /\ V3Pool.dayId ts1 = V3Pool.dayId ts2
      /\ V3Pool.dayId ts1 <> None).
Proof.
  intros H1 H2.
  unfold V3PoolPlain.hourKey, V3PoolPlain.dayKey, V3Pool.hourId, V3Pool.dayId,
    I32.toString.
  split; intros K1 K2;
    destruct (BigInt.toI32 ts1) as [t1|]; try discriminate K1;
    destruct (BigInt.toI32 ts2) as [t2|]; try discriminate K2;
    simpl in *; injection K1 as K1; injection K2 as K2;
    rewrite <- K2 in K1;
    destruct (dash_free_prefix_inj _ _ _ _ H1 H2 K1) as [Hp Hs];
    apply (inj pretty) in Hs; rewrite Hs;
    (split; [exact Hp|]); (split; [reflexivity | discriminate]).
Qed.

Lemma bucket_key_determines_pool_and_index_witness :
  Sample.pool_wbtc_weth = Sample.pool_wbtc_weth
  /\ V3Pool.hourId 1700000000 = V3Pool.hourId 1700000100
  /\ V3Pool.hourId 1700000000 <> None.
Proof.
  apply (proj1 (bucket_key_determines_pool_and_index Sample.pool_wbtc_weth
                  Sample.pool_wbtc_weth 1700000000 1700000100 Sample.hour_key
                  ltac:(vm_compute; intros H;
                        repeat (destruct H as [H|H]; [discriminate H|]); exact H)
                  ltac:(vm_compute; intros H;
                        repeat (destruct H as [H|H]; [discriminate H|]); exact H)));
    vm_compute; reflexivity.
Defined.

(** ** Beyond the 31-bit range *)

(** X19: a timestamp in [2^31, 2^32) still converts, to [ts - 2^32], so
    its hour and day indices are the quotients of that negative number,
    truncated toward zero, and are zero or negative; from [2^32] on the
    conversion aborts, so neither an index nor a key nor a bucket row is
    produced, in either mapping. *)
Theorem bucket_indices_beyond_i31 (st : Store.t) (poolId : string) (ts : Z) :
  (2 ^ 31 <= ts < 2 ^ 32 ->
   V3Pool.hourId ts = Some (Z.quot (ts - 2 ^ 32) 3600)
   /\ V3Pool.dayId ts = Some (Z.quot (ts - 2 ^ 32) 86400)
   /\ Z.quot (ts - 2 ^ 32) 3600 <= 0 /\ Z.quot (ts - 2 ^ 32) 86400 <= 0
   /\ V3PoolPlain.hourKey poolId ts
      = Some (poolId +:+ "-" +:+ I32.toString (Z.quot (ts - 2 ^ 32) 3600))
   /\ V3PoolPlain.dayKey poolId ts
      = Some (poolId +:+ "-" +:+ I32.toString (Z.quot (ts - 2 ^ 32) 86400)))
  /\ (2 ^ 32 <= ts ->
      V3Pool.hourId ts = None /\ V3Pool.dayId ts = None
      /\ V3PoolPlain.hourKey poolId ts = None
      /\ V3PoolPlain.dayKey poolId ts = None
      /\ V3PoolPlain.ensureHour st poolId ts = None
      /\ V3PoolPlain.ensureDay st poolId ts = None
      /\ V3Pool.ensurePoolHourData st poolId ts = None
      /\ V3Pool.ensurePoolDayData st poolId ts = None
      /\ V3Pool.ensurePriceHour st poolId ts = None).
Proof.
  split.
  - intros Hts.
    assert (Hc : BigInt.toI32 ts = Some (ts - 2 ^ 32)).
    { rewrite toI32_fits by (apply fits_i32_true; lia).
      now rewrite I32_wrap_high. }
    destruct (I32_div_nonpos (ts - 2 ^ 32) 3600 ltac:(lia) ltac:(lia)) as [Eh Lh].
    destruct (I32_div_nonpos (ts - 2 ^ 32) 86400 ltac:(lia) ltac:(lia)) as [Ed Ld].
    unfold V3Pool.hourId, V3Pool.dayId, V3PoolPlain.hourKey, V3PoolPlain.dayKey.
    rewrite Hc. simpl. rewrite Eh, Ed. repeat split; assumption.
  - intros Hts.
    assert (Hc : BigInt.toI32 ts = None)
      by (apply toI32_aborts, fits_i32_false; lia).
    unfold V3Pool.ensurePoolHourData, V3Pool.ensurePoolDayData,
      V3Pool.ensurePriceHour, V3PoolPlain.ensureHour, V3PoolPlain.ensureDay,
      V3Pool.hourId, V3Pool.dayId, V3PoolPlain.hourKey, V3PoolPlain.dayKey.
    rewrite Hc. repeat split; reflexivity.
Qed.

(** ** Decimal arithmetic of the mappings *)

Section Decimals.
Local Open Scope Q_scope.

Lemma inject_Z_nonneg (z : Z) : (0 <= z)%Z -> 0 <= inject_Z z.
Proof. intros Hz. change (inject_Z 0 <= inject_Z z). now rewrite <- Zle_Qle. Qed.

Lemma pow10_Z_pos (k : Z) : (0 <= k)%Z -> 0 < inject_Z (10 ^ k).
Proof. intros Hk. apply inject_Z_lt0. apply Z.pow_pos_nonneg; lia. Qed.

Lemma pow10_opp (k : Z) : BigDecimal.pow10 (- k) == / BigDecimal.pow10 k.
Proof. unfold BigDecimal.pow10. apply Qpower_opp. Qed.

Lemma fromZ_near (z : Z) :
  (0 <= z)%Z ->
  Approx.within (1 - BigDecimal.unit) (1 + BigDecimal.unit)
    (BigDecimal.fromZ z) (inject_Z z).
Proof. intros Hz. apply normalized_near. now apply inject_Z_nonneg. Qed.

Lemma fromZ_exact (z : Z) :
  (0 <= z < 10 ^ 34)%Z -> BigDecimal.fromZ z == inject_Z z.
Proof.
  intros Hz. apply (normalized_exact _ z 0); [exact Hz|].
  unfold BigDecimal.pow10. simpl. ring.
Qed.

Lemma fromZ_pow10 (k : Z) :
  (0 <= k)%Z -> BigDecimal.fromZ (10 ^ k) == inject_Z (10 ^ k).
Proof.
  intros Hk. apply (normalized_exact _ 1 k); [lia|].
  rewrite (pow10_Z k Hk). ring.
Qed.

Lemma fromZ_nonneg (z : Z) : (0 <= z)%Z -> 0 <= BigDecimal.fromZ z.
Proof. intros Hz. apply normalized_nonneg. now apply inject_Z_nonneg. Qed.

Lemma equals_zero_false (y : Q) :
  0 < y -> BigDecimal.equals y BigDecimal.zero = false.
Proof.
  intros Hy. unfold BigDecimal.equals. rewrite zero_is_0.
  destruct (Qeq_bool y 0) eqn:E; [|reflexivity].
  apply Qeq_bool_iff in E. rewrite E in Hy. discriminate.
Qed.

Lemma equals_zero_true (y : Q) :
  BigDecimal.equals y BigDecimal.zero = true <-> y == 0.
Proof. unfold BigDecimal.equals. rewrite zero_is_0. apply Qeq_bool_iff. Qed.

Lemma div_positive (x y : Q) :
  0 < y -> BigDecimal.div x y = Some (BigDecimal.normalized (x / y)).
Proof. intros Hy. unfold BigDecimal.div. now rewrite equals_zero_false. Qed.

(** One round of either loop. *)
Lemma times_ten (j : Z) :
  (0 <= j)%Z ->
  BigDecimal.times (BigDecimal.fromZ (10 ^ j)) BigDecimal.ten
  = BigDecimal.fromZ (10 ^ (j + 1)).
Proof.
  intros Hj. unfold BigDecimal.times, BigDecimal.ten.
  unfold BigDecimal.fromZ at 3. apply normalized_proper.
  rewrite (fromZ_pow10 j Hj).
  rewrite (fromZ_exact 10) by lia.
  rewrite Z.pow_add_r by lia. rewrite inject_Z_mult. reflexivity.
Qed.

Lemma pow10BD_loop_fromZ (n : nat) (j : Z) :
  (0 <= j)%Z ->
  V3PoolPlain.pow10BD_loop n (BigDecimal.fromZ (10 ^ j))
  = BigDecimal.fromZ (10 ^ (j + Z.of_nat n)).
Proof.
  revert j. induction n as [|n IH]; intros j Hj.
  - simpl. now rewrite Z.add_0_r.
  - cbn [V3PoolPlain.pow10BD_loop]. rewrite times_ten by exact Hj.
    rewrite IH by lia. f_equal. f_equal. lia.
Qed.

Lemma exponentToBigDecimal_loop_eq (n : nat) (r : BigDecimal.t) :
  V3Pool.exponentToBigDecimal_loop n BigDecimal.ten r
  = V3PoolPlain.pow10BD_loop n r.
Proof. revert r. induction n as [|n IH]; intros r; simpl; [reflexivity | apply IH]. Qed.

Lemma pow10BD_fromZ (d : Z) :
  V3PoolPlain.pow10BD d = BigDecimal.fromZ (10 ^ Z.max 0 d).
Proof.
  unfold V3PoolPlain.pow10BD.
  change BigDecimal.one with (BigDecimal.fromZ (10 ^ 0)).
  rewrite pow10BD_loop_fromZ by lia. f_equal. f_equal. lia.
Qed.

Lemma exponentToBigDecimal_fromZ (d : Z) :
  V3Pool.exponentToBigDecimal d = BigDecimal.fromZ (10 ^ Z.max 0 d).
Proof.
  unfold V3Pool.exponentToBigDecimal.
  rewrite exponentToBigDecimal_loop_eq. apply pow10BD_fromZ.
Qed.

Lemma pow10BD_value (d : Z) :
  V3PoolPlain.pow10BD d == inject_Z (10 ^ Z.max 0 d)
  /\ 0 < V3PoolPlain.pow10BD d.
Proof.
  rewrite pow10BD_fromZ.
  assert (E := fromZ_pow10 (Z.max 0 d) ltac:(lia)).
  split; [exact E|]. rewrite E. apply pow10_Z_pos. lia.
Qed.

(** Scaling by a power of ten never traps. *)
Lemma toDecimal_total (a d : Z) :
  V3PoolPlain.toDecimal a d
  = Some (BigDecimal.normalized (BigDecimal.fromZ a / V3PoolPlain.pow10BD d)).
Proof.
  unfold V3PoolPlain.toDecimal. cbv zeta.
  apply div_positive. apply pow10BD_value.
Qed.

Lemma div_exponent_total (x : BigDecimal.t) (d : Z) :
  BigDecimal.div x (V3Pool.exponentToBigDecimal d)
  = Some (BigDecimal.normalized (x / V3PoolPlain.pow10BD d)).
Proof.
  rewrite exponentToBigDecimal_fromZ, <- pow10BD_fromZ.
  apply div_positive. apply pow10BD_value.
Qed.

(** The scaled amount against the unrounded quotient. *)
Lemma scaled_near (a d : Z) :
  (0 <= a)%Z ->
  Approx.within (1 - Approx.tol 2) (1 + Approx.tol 2)
    (BigDecimal.normalized (BigDecimal.fromZ a / V3PoolPlain.pow10BD d))
    (inject_Z a / inject_Z (10 ^ Z.max 0 d)).
Proof.
  intros Ha.
  destruct (pow10BD_value d) as [EP HP].
  pose proof (pow10_Z_pos (Z.max 0 d) ltac:(lia)) as HT.
  pose proof (inject_Z_nonneg a Ha) as Ha'.
  assert (Hq : 0 <= inject_Z a / inject_Z (10 ^ Z.max 0 d)).
  { apply Qle_shift_div_l; [exact HT|]. now rewrite Qmult_0_l. }
  eapply within_weaken; [exact Hq | | |].
  3:{ apply within_normalized; [exact Hq | |].
      2:{ apply within_div; [exact Ha' | exact HT | | | apply fromZ_near, Ha
                            | apply within_exact, EP].
          - qcompute.
          - reflexivity. }
      qcompute. }
  - qcompute.
  - qcompute.
Qed.

(** X14: the two power-of-ten loops ([pow10BD] and [exponentToBigDecimal])
    compute the same value, [10^decimals] for a non-negative count and 1 for
    a negative one (the loops then run zero rounds), without any rounding
    error; the value is never zero, so scaling by it cannot trap. *)
Theorem power_of_ten_loops_agree (decimals : Z) (x : BigDecimal.t) :
  V3Pool.exponentToBigDecimal decimals = V3PoolPlain.pow10BD decimals
  /\ V3PoolPlain.pow10BD decimals = BigDecimal.fromZ (10 ^ Z.max 0 decimals)
  /\ V3PoolPlain.pow10BD decimals == inject_Z (10 ^ Z.max 0 decimals)
  /\ ((decimals < 0)%Z -> V3PoolPlain.pow10BD decimals = BigDecimal.one)
  /\ BigDecimal.equals (V3PoolPlain.pow10BD decimals) BigDecimal.zero = false
  /\ is_Some (BigDecimal.div x (V3PoolPlain.pow10BD decimals)).
Proof.
  destruct (pow10BD_value decimals) as [EP HP].
  split; [unfold V3Pool.exponentToBigDecimal; apply exponentToBigDecimal_loop_eq|].
  split; [apply pow10BD_fromZ|].
  split; [exact EP|].
  split; [intros Hneg; rewrite pow10BD_fromZ;
          now replace (Z.max 0 decimals) with 0%Z by lia|].
  split; [now apply equals_zero_false|].
  rewrite div_positive by exact HP. eauto.
Qed.



End Decimals.

(** ** The price oracle *)

Section Oracle.
Local Open Scope Q_scope.

(** The oracle never traps: it returns zeros when the product is zero and
    the product with its rounded reciprocal otherwise. *)
Lemma pricesFromSqrt_cases (sqrtP dec0 dec1 : Z) :
  let ratio :=
    BigDecimal.normalized
      (BigDecimal.fromZ (sqrtP * sqrtP) / BigDecimal.fromZ (2 ^ 192)) in
  let adj :=
    BigDecimal.normalized
      (V3PoolPlain.pow10BD dec0 / V3PoolPlain.pow10BD dec1) in
  let p0 := BigDecimal.normalized (ratio * adj) in
  V3Pool.pricesFromSqrt sqrtP dec0 dec1
  = if BigDecimal.equals p0 BigDecimal.zero
    then Some (BigDecimal.zero, BigDecimal.zero)
    else p1 ← BigDecimal.div BigDecimal.one p0; Some (p0, p1).
Proof.
  cbv zeta.
  unfold V3Pool.pricesFromSqrt, BigInt.pow, BigInt.fromI32, BigInt.times.
  cbv zeta.
  assert (Hden : 0 < BigDecimal.fromZ (2 ^ 192)).
  { apply normalized_pos. apply inject_Z_lt0. lia. }
  revert Hden. generalize (BigDecimal.fromZ (2 ^ 192)). intros den Hden.
  rewrite (div_positive _ den Hden).
  rewrite div_exponent_total.
  rewrite exponentToBigDecimal_fromZ, <- pow10BD_fromZ.
  cbn [mbind option_bind]. unfold BigDecimal.times.
  reflexivity.
Qed.

(** C4, as stated, fails: the host rounds the converted integers and the
    quotient to 34 significant digits, so for [sqrtP = 3 * 2^96] and equal
    decimals, where the formula gives 9, [price0] is
    [9.000000000000000000000000000000001], and [price1] is not its
    reciprocal: the product of the two prices is above 1. *)
Lemma pricesFromSqrt_rounds :
  exists price0 price1 : BigDecimal.t,
    V3Pool.pricesFromSqrt (3 * 2 ^ 96)%Z 0%Z 0%Z = Some (price0, price1)
    /\ Exact.price0 (3 * 2 ^ 96)%Z 0%Z 0%Z == 9
    /\ price0 == 9 + (1 # 1000000000000000000000000000000000)
    /\ price1 == 1111111111111111111111111111111111
                 # 10000000000000000000000000000000000
    /\ ~ price0 == Exact.price0 (3 * 2 ^ 96)%Z 0%Z 0%Z
    /\ ~ price0 * price1 == 1.
Proof.
  exists (9000000000000000000000000000000001 # 1000000000000000000000000000000000),
         (1111111111111111111111111111111111 # 10000000000000000000000000000000000).
  split; [vm_compute; reflexivity|].
  split; [vm_compute; reflexivity|].
  split; [vm_compute; reflexivity|].
  split; [vm_compute; reflexivity|].
  split; apply Qeq_bool_neq; vm_compute; reflexivity.
Qed.

(** C4 (amended): for decimal counts [dec0], [dec1] from 0 on and every [sqrtP], the
    oracle returns a pair [(price0, price1)]; [price0] is
    [(sqrtP^2 / 2^192) * (10^dec0 / 10^dec1)] to a relative error of
    [3 / 10^33] (the host rounds each step to 34 significant digits);
    [price0] is zero exactly when [sqrtP] is zero, and then both prices are
    zero and no reciprocal is taken; otherwise [price0] is positive and
    [price1] is the host quotient [1 / price0], which is the reciprocal to
    a relative error of [1 / 10^33]. *)
Theorem pricesFromSqrt_spec (sqrtP dec0 dec1 : Z) :
  (0 <= dec0)%Z -> (0 <= dec1)%Z ->
  exists price0 price1 : BigDecimal.t,
    V3Pool.pricesFromSqrt sqrtP dec0 dec1 = Some (price0, price1)
    /\ Approx.within (1 - Approx.tol 3) (1 + Approx.tol 3) price0
         (Exact.price0 sqrtP dec0 dec1)
    /\ (price0 == 0 <-> sqrtP = 0%Z)
    /\ (sqrtP = 0%Z -> price0 = BigDecimal.zero /\ price1 = BigDecimal.zero)
    /\ (sqrtP <> 0%Z ->
        0 < price0
        /\ BigDecimal.div BigDecimal.one price0 = Some price1
        /\ Approx.within (1 - Approx.tol 1) (1 + Approx.tol 1) price1 (1 / price0)
        /\ Approx.within (1 - Approx.tol 1) (1 + Approx.tol 1)
             (price0 * price1) 1).
Proof.
  intros Hd0 Hd1.
  rewrite pricesFromSqrt_cases. cbv zeta.
  set (N := (sqrtP * sqrtP)%Z).
  assert (HN : (0 <= N)%Z) by apply Z.square_nonneg.
  pose proof (inject_Z_nonneg N HN) as HNq.
  assert (HD : 0 < inject_Z (2 ^ 192)) by (apply inject_Z_lt0; lia).
  destruct (pow10BD_value dec0) as [E0 P0].
  destruct (pow10BD_value dec1) as [E1 P1].
  replace (Z.max 0 dec0) with dec0 in E0 by lia.
  replace (Z.max 0 dec1) with dec1 in E1 by lia.
  pose proof (pow10_Z_pos dec0 Hd0) as HT0.
  pose proof (pow10_Z_pos dec1 Hd1) as HT1.
  set (A := inject_Z (10 ^ dec0) / inject_Z (10 ^ dec1)).
  assert (HA : 0 < A) by (apply Qlt_shift_div_l; [exact HT1 | lra]).
  set (adj := BigDecimal.normalized
                (V3PoolPlain.pow10BD dec0 / V3PoolPlain.pow10BD dec1)).
  assert (Eadj : adj == A).
  { unfold adj.
    assert (E : V3PoolPlain.pow10BD dec0 / V3PoolPlain.pow10BD dec1
                == inject_Z 1 * BigDecimal.pow10 (dec0 - dec1)).
    { rewrite E0, E1.
      replace (dec0 - dec1)%Z with (dec0 + - dec1)%Z by lia.
      rewrite pow10_add, pow10_opp, (pow10_Z dec0 Hd0), (pow10_Z dec1 Hd1).
      field. lra. }
    rewrite (normalized_exact _ 1 (dec0 - dec1) ltac:(lia) E).
    now rewrite E0, E1. }
  set (R := inject_Z N / inject_Z (2 ^ 192)).
  assert (HR : 0 <= R).
  { apply Qle_shift_div_l; [exact HD|]. now rewrite Qmult_0_l. }
  set (ratio := BigDecimal.normalized
                  (BigDecimal.fromZ N / BigDecimal.fromZ (2 ^ 192))).
  assert (Wratio : Approx.within
                     ((1 - BigDecimal.unit) / (1 + BigDecimal.unit)
                      * (1 - BigDecimal.unit))
                     ((1 + BigDecimal.unit) / (1 - BigDecimal.unit)
                      * (1 + BigDecimal.unit)) ratio R).
  { apply within_normalized; [exact HR | qcompute |].
    apply within_div; [exact HNq | exact HD | qcompute | reflexivity
                       | apply fromZ_near, HN | apply fromZ_near; lia]. }
  set (p0 := BigDecimal.normalized (ratio * adj)).
  assert (HRA : 0 <= R * A)
    by (apply Qmult_le_0_compat; [exact HR | now apply Qlt_le_weak]).
  assert (Wp0 : Approx.within (1 - Approx.tol 3) (1 + Approx.tol 3) p0 (R * A)).
  { eapply within_weaken; [exact HRA | | |].
    3:{ apply within_normalized; [exact HRA | |].
        2:{ apply within_mult; [exact HR | now apply Qlt_le_weak | |
                                | exact Wratio | apply within_exact, Eadj];
            qcompute. }
        qcompute. }
    - qcompute.
    - qcompute. }
  change (R * A) with (Exact.price0 sqrtP dec0 dec1) in Wp0.
  destruct (Z.eq_dec sqrtP 0%Z) as [Hz | Hnz].
  - assert (Ep0 : p0 = 0).
    { unfold p0. apply normalized_of_zero.
      assert (Er : ratio = 0).
      { unfold ratio. apply normalized_of_zero.
        unfold N. rewrite Hz. change (BigDecimal.fromZ (0 * 0)) with 0.
        unfold Qdiv. ring. }
      rewrite Er. ring. }
    assert (Heq : BigDecimal.equals p0 BigDecimal.zero = true)
      by (apply equals_zero_true; now rewrite Ep0).
    rewrite Heq. exists BigDecimal.zero, BigDecimal.zero.
    split; [reflexivity|].
    split; [rewrite <- zero_is_0 in Ep0; now rewrite <- Ep0|].
    split; [split; [intros _; exact Hz | intros _; reflexivity]|].
    split; [intros _; split; reflexivity | intros Habs; now elim Habs].
  - assert (HNpos : (0 < N)%Z) by (unfold N; nia).
    assert (HRpos : 0 < R).
    { apply Qlt_shift_div_l; [exact HD|]. rewrite Qmult_0_l.
      now apply inject_Z_lt0. }
    assert (HRApos : 0 < R * A) by now apply Qmult_lt_0_compat.
    assert (Hp0 : 0 < p0).
    { apply (within_pos (1 - Approx.tol 3) (1 + Approx.tol 3) p0 (R * A) HRApos);
        [reflexivity | exact Wp0]. }
    rewrite (equals_zero_false p0 Hp0).
    rewrite (div_positive _ _ Hp0). cbn [mbind option_bind].
    set (p1 := BigDecimal.normalized (BigDecimal.one / p0)).
    assert (Hinv : 0 <= 1 / p0).
    { apply Qle_shift_div_l; [exact Hp0 | lra]. }
    assert (Wp1 : Approx.within (1 - Approx.tol 1) (1 + Approx.tol 1) p1 (1 / p0)).
    { eapply within_weaken; [exact Hinv | | |].
      3:{ unfold p1. rewrite one_is_1.
          apply within_normalized; [exact Hinv | | apply within_exact; reflexivity].
          qcompute. }
      - qcompute.
      - qcompute. }
    exists p0, p1.
    split; [reflexivity|].
    split; [exact Wp0|].
    split; [split; [intros H0; rewrite H0 in Hp0; discriminate
                   | intros H0; now elim Hnz]|].
    split; [intros H0; now elim Hnz|].
    intros _.
    split; [exact Hp0|].
    split; [apply div_positive, Hp0|].
    split; [exact Wp1|].
    destruct Wp1 as [L U]. split.
    + assert (E : (1 - Approx.tol 1) * 1 == p0 * ((1 - Approx.tol 1) * (1 / p0)))
        by (field; lra).
      rewrite E. apply Qmult_le_l; [exact Hp0 | exact L].
    + assert (E : (1 + Approx.tol 1) * 1 == p0 * ((1 + Approx.tol 1) * (1 / p0)))
        by (field; lra).
      rewrite E. apply Qmult_le_l; [exact Hp0 | exact U].
Qed.

Lemma pricesFromSqrt_spec_witness :
  exists price0 price1 : BigDecimal.t,
    V3Pool.pricesFromSqrt (2 ^ 96)%Z 6%Z 18%Z = Some (price0, price1)
    /\ Approx.within (1 - Approx.tol 3) (1 + Approx.tol 3) price0
         (Exact.price0 (2 ^ 96)%Z 6%Z 18%Z).
Proof.
  destruct (pricesFromSqrt_spec (2 ^ 96)%Z 6%Z 18%Z ltac:(lia) ltac:(lia))
    as (price0 & price1 & H & Hw & _).
  exists price0, price1. split; [exact H | exact Hw].
Defined.

(** X11: for every input, negative decimal counts included (the loops
    then run zero rounds), the oracle returns without a trap; both prices
    are non-negative, one is zero exactly when the other is, and
    [sqrtPriceX96 = 0] gives two zeros. *)
Theorem pricesFromSqrt_total (sqrtP dec0 dec1 : Z) :
  exists price0 price1 : BigDecimal.t,
    V3Pool.pricesFromSqrt sqrtP dec0 dec1 = Some (price0, price1)
    /\ 0 <= price0 /\ 0 <= price1
    /\ (price0 == 0 <-> price1 == 0)
    /\ (sqrtP = 0%Z -> price0 = BigDecimal.zero /\ price1 = BigDecimal.zero).
Proof.
  rewrite pricesFromSqrt_cases. cbv zeta.
  set (N := (sqrtP * sqrtP)%Z).
  assert (HN : (0 <= N)%Z) by apply Z.square_nonneg.
  assert (Hden : 0 < BigDecimal.fromZ (2 ^ 192)).
  { apply normalized_pos. apply inject_Z_lt0. lia. }
  destruct (pow10BD_value dec0) as [_ P0].
  destruct (pow10BD_value dec1) as [_ P1].
  set (ratio := BigDecimal.normalized
                  (BigDecimal.fromZ N / BigDecimal.fromZ (2 ^ 192))).
  set (adj := BigDecimal.normalized
                (V3PoolPlain.pow10BD dec0 / V3PoolPlain.pow10BD dec1)).
  assert (Hratio : 0 <= ratio).
  { apply normalized_nonneg. apply Qle_shift_div_l; [exact Hden|].
    rewrite Qmult_0_l. now apply fromZ_nonneg. }
  assert (Hadj : 0 <= adj).
  { apply normalized_nonneg. apply Qle_shift_div_l; [exact P1|].
    rewrite Qmult_0_l. now apply Qlt_le_weak. }
  set (p0 := BigDecimal.normalized (ratio * adj)).
  assert (Hp0 : 0 <= p0)
    by (apply normalized_nonneg; now apply Qmult_le_0_compat).
  destruct (BigDecimal.equals p0 BigDecimal.zero) eqn:Heq.
  - exists BigDecimal.zero, BigDecimal.zero. rewrite zero_is_0.
    split; [reflexivity|]. split; [apply Qle_refl|]. split; [apply Qle_refl|].
    split; [tauto | intros _; split; reflexivity].
  - assert (Hne : ~ p0 == 0).
    { intros H0. apply equals_zero_true in H0. congruence. }
    assert (Hpos : 0 < p0).
    { apply Qle_lteq in Hp0 as [H | H]; [exact H | elim Hne; now symmetry]. }
    rewrite (div_positive _ _ Hpos). cbn [mbind option_bind].
    assert (Hp1 : 0 < BigDecimal.normalized (BigDecimal.one / p0)).
    { apply normalized_pos. rewrite one_is_1.
      apply Qlt_shift_div_l; [exact Hpos | lra]. }
    eexists. eexists. split; [reflexivity|].
    split; [exact Hp0|]. split; [now apply Qlt_le_weak|].
    split.
    + split; intros H0; [now elim Hne|].
      rewrite H0 in Hp1. exfalso. exact (Qlt_irrefl 0 Hp1).
    + intros Hz. exfalso. apply Hne. unfold p0.
      assert (Er : ratio = 0).
      { unfold ratio. apply normalized_of_zero.
        unfold N. rewrite Hz. change (BigDecimal.fromZ (0 * 0)) with 0.
        unfold Qdiv. ring. }
      rewrite Er. rewrite (normalized_of_zero (0 * adj)) by ring. reflexivity.
Qed.

End Oracle.

(** ** The volume-only handler, one event *)

Lemma handleSwap_plain_unresolved (st : Store.t) (event : Swap.t) :
  Volumes.resolve (Store.pools st) (Store.tokens st) event = None ->
  V3PoolPlain.handleSwap st event = Some st.
Proof.
  unfold V3PoolPlain.handleSwap, Volumes.resolve.
  destruct (Store.pools st !! toLowerCase (Swap.address event)) as [pool|];
    [|reflexivity].
  destruct (Store.tokens st !! Pool.token0 pool) as [token0|]; [|reflexivity].
  destruct (Store.tokens st !! Pool.token1 pool) as [token1|]; [|reflexivity].
  discriminate.
Qed.

Lemma handleSwap_plain_traps (st : Store.t) (event : Swap.t) :
  is_Some (Volumes.resolve (Store.pools st) (Store.tokens st) event) ->
  Volumes.converts event = false ->
  V3PoolPlain.handleSwap st event = None.
Proof.
  unfold V3PoolPlain.handleSwap, Volumes.resolve, Volumes.converts.
  intros [tt Hres] Hc.
  destruct (Store.pools st !! toLowerCase (Swap.address event)) as [pool|];
    [|discriminate].
  destruct (Store.tokens st !! Pool.token0 pool) as [token0|]; [|discriminate].
  destruct (Store.tokens st !! Pool.token1 pool) as [token1|]; [|discriminate].
  rewrite !toDecimal_total. cbn [mbind option_bind].
  unfold V3PoolPlain.ensureDay. now rewrite (toI32_aborts _ Hc).
Qed.

Lemma handleSwap_plain_returns (st : Store.t) (event : Swap.t) :
  Volumes.converts event = true ->
  is_Some (V3PoolPlain.handleSwap st event).
Proof.
  unfold V3PoolPlain.handleSwap, Volumes.converts. intros Hc.
  destruct (Store.pools st !! toLowerCase (Swap.address event)) as [pool|];
    [|eauto].
  destruct (Store.tokens st !! Pool.token0 pool) as [token0|]; [|eauto].
  destruct (Store.tokens st !! Pool.token1 pool) as [token1|]; [|eauto].
  rewrite !toDecimal_total. cbn [mbind option_bind].
  unfold V3PoolPlain.ensureDay, V3PoolPlain.ensureHour.
  rewrite (toI32_fits _ Hc). cbn [mbind option_bind].
  destruct (Load.dayData st _), (Load.hourData st _); cbn [mbind option_bind]; eauto.
Qed.

(** What a handled event does to the store. *)
Lemma handleSwap_plain_step (st : Store.t) (event : Swap.t) (st' : Store.t) :
  V3PoolPlain.handleSwap st event = Some st' ->
  Store.pools st' = Store.pools st
  /\ Store.tokens st' = Store.tokens st
  /\ Store.priceHour st' = Store.priceHour st
  /\ (forall id,
        Volumes.hourView st' id
        = if Volumes.applied Volumes.hourKeyOf (Store.pools st) (Store.tokens st)
               id event
          then Some (Volumes.bump (default Volumes.fresh (Volumes.hourView st id))
                       (Volumes.scaled0 (Store.pools st) (Store.tokens st) event)
                       (Volumes.scaled1 (Store.pools st) (Store.tokens st) event))
          else Volumes.hourView st id)
  /\ (forall id,
        Volumes.dayView st' id
        = if Volumes.applied Volumes.dayKeyOf (Store.pools st) (Store.tokens st)
               id event
          then Some (Volumes.bump (default Volumes.fresh (Volumes.dayView st id))
                       (Volumes.scaled0 (Store.pools st) (Store.tokens st) event)
                       (Volumes.scaled1 (Store.pools st) (Store.tokens st) event))
          else Volumes.dayView st id)
  /\ (forall id, id <> Volumes.hourKeyOf event ->
                 Store.hourData st' !! id = Store.hourData st !! id)
  /\ (forall id, id <> Volumes.dayKeyOf event ->
                 Store.dayData st' !! id = Store.dayData st !! id).
Proof.
  unfold V3PoolPlain.handleSwap, Volumes.applied, Volumes.scaled0, Volumes.scaled1,
    Volumes.resolve.
  destruct (Store.pools st !! toLowerCase (Swap.address event)) as [pool|];
    [|intros [= <-]; repeat split; reflexivity].
  destruct (Store.tokens st !! Pool.token0 pool) as [token0|];
    [|intros [= <-]; repeat split; reflexivity].
  destruct (Store.tokens st !! Pool.token1 pool) as [token1|];
    [|intros [= <-]; repeat split; reflexivity].
  rewrite !toDecimal_total. cbn [mbind option_bind default from_option Datatypes.id].
  unfold V3PoolPlain.ensureDay, V3PoolPlain.ensureHour, BigInt.toI32.
  destruct (BigInt.fits_i32 (Swap.timestamp event)); [|discriminate].
  cbn [mbind option_bind].
  fold (Volumes.hourKeyOf event). fold (Volumes.dayKeyOf event).
  unfold Load.dayData, Load.hourData.
  set (kd := Volumes.dayKeyOf event). set (kh := Volumes.hourKeyOf event).
  intros Hrun.
  assert (Hst : st' =
    Store.saveHour
      (Store.saveDay st
         (Assign.dayVolume
            (default (PoolDayData.mk kd (toLowerCase (Swap.address event))
                        (I32.div (I32.wrap (Swap.timestamp event)) 86400)
                        BigDecimal.zero BigDecimal.zero 0 BigDecimal.zero
                        BigDecimal.zero BigDecimal.zero)
               ((fun p => PoolDayData.mk kd (PoolDayData.pool p) (PoolDayData.date p)
                   (PoolDayData.volumeToken0 p) (PoolDayData.volumeToken1 p)
                   (PoolDayData.swapCount p) (PoolDayData.volumeUSD p)
                   (PoolDayData.feesUSD p) (PoolDayData.tvlUSD p))
                  <$> Store.dayData st !! kd))
            (BigDecimal.plus
               (from_option PoolDayData.volumeToken0 BigDecimal.zero
                  (Store.dayData st !! kd))
               (BigDecimal.normalized
                  (BigDecimal.fromZ (V3PoolPlain.absBigInt (Swap.amount0 event))
                   / V3PoolPlain.pow10BD (Token.decimals token0))))
            (BigDecimal.plus
               (from_option PoolDayData.volumeToken1 BigDecimal.zero
                  (Store.dayData st !! kd))
               (BigDecimal.normalized
                  (BigDecimal.fromZ (V3PoolPlain.absBigInt (Swap.amount1 event))
                   / V3PoolPlain.pow10BD (Token.decimals token1))))
            (I32.add (from_option PoolDayData.swapCount 0 (Store.dayData st !! kd)) 1)))
      (Assign.hourVolume
         (default (PoolHourData.mk kh (toLowerCase (Swap.address event))
                     (I32.div (I32.wrap (Swap.timestamp event)) 3600)
                     BigDecimal.zero BigDecimal.zero 0 BigDecimal.zero
                     BigDecimal.zero BigDecimal.zero)
            ((fun p => PoolHourData.mk kh (PoolHourData.pool p)
                (PoolHourData.hourStartUnix p)
                (PoolHourData.volumeToken0 p) (PoolHourData.volumeToken1 p)
                (PoolHourData.swapCount p) (PoolHourData.volumeUSD p)
                (PoolHourData.feesUSD p) (PoolHourData.tvlUSD p))
               <$> Store.hourData st !! kh))
         (BigDecimal.plus
            (from_option PoolHourData.volumeToken0 BigDecimal.zero
               (Store.hourData st !! kh))
            (BigDecimal.normalized
               (BigDecimal.fromZ (V3PoolPlain.absBigInt (Swap.amount0 event))
                / V3PoolPlain.pow10BD (Token.decimals token0))))
         (BigDecimal.plus
            (from_option PoolHourData.volumeToken1 BigDecimal.zero
               (Store.hourData st !! kh))
            (BigDecimal.normalized
               (BigDecimal.fromZ (V3PoolPlain.absBigInt (Swap.amount1 event))
                / V3PoolPlain.pow10BD (Token.decimals token1))))
         (I32.add (from_option PoolHourData.swapCount 0 (Store.hourData st !! kh)) 1))).
  { destruct (Store.dayData st !! kd) as [drow|], (Store.hourData st !! kh) as [hrow|];
      cbn [mbind option_bind fmap option_fmap option_map] in Hrun;
      injection Hrun as <-; reflexivity. }
  clear Hrun. subst st'.
  split; [reflexivity|]. split; [reflexivity|]. split; [reflexivity|].
  split; [|split; [|split]]; intros id.
  - unfold Volumes.hourView.
    cbn [Store.hourData Store.saveHour Store.saveDay Assign.hourVolume PoolHourData.id].
    destruct (String.eqb_spec kh id) as [<- | Hne].
    + destruct (Store.hourData st !! kh) as [row|] eqn:Hrow;
        cbn [PoolHourData.id from_option fmap option_fmap option_map Datatypes.id];
        rewrite lookup_insert_eq; reflexivity.
    + destruct (Store.hourData st !! kh) as [row|] eqn:Hrow;
        cbn [PoolHourData.id from_option fmap option_fmap option_map Datatypes.id];
        rewrite lookup_insert_ne by exact Hne; reflexivity.
  - unfold Volumes.dayView.
    cbn [Store.dayData Store.saveHour Store.saveDay Assign.dayVolume PoolDayData.id].
    destruct (String.eqb_spec kd id) as [<- | Hne].
    + destruct (Store.dayData st !! kd) as [row|] eqn:Hrow;
        cbn [PoolDayData.id from_option fmap option_fmap option_map Datatypes.id];
        rewrite lookup_insert_eq; reflexivity.
    + destruct (Store.dayData st !! kd) as [row|] eqn:Hrow;
        cbn [PoolDayData.id from_option fmap option_fmap option_map Datatypes.id];
        rewrite lookup_insert_ne by exact Hne; reflexivity.
  - intros Hne.
    cbn [Store.hourData Store.saveHour Store.saveDay Assign.hourVolume PoolHourData.id].
    apply lookup_insert_ne. intros Heq. apply Hne. rewrite <- Heq.
    destruct (Store.hourData st !! kh); reflexivity.
  - intros Hne.
    cbn [Store.dayData Store.saveHour Store.saveDay Assign.dayVolume PoolDayData.id].
    apply lookup_insert_ne. intros Heq. apply Hne. rewrite <- Heq.
    destruct (Store.dayData st !! kd); reflexivity.
Qed.

(** ** Tolerances *)

Section Tolerance.
Local Open Scope Q_scope.

Lemma tol_add (a b : Z) : Approx.tol (a + b) == Approx.tol a + Approx.tol b.
Proof. unfold Approx.tol. rewrite inject_Z_plus. ring. Qed.

Lemma tol_nonneg (n : Z) : (0 <= n)%Z -> 0 <= Approx.tol n.
Proof.
  intros Hn. unfold Approx.tol.
  apply Qmult_le_0_compat; [now apply inject_Z_nonneg | qcompute].
Qed.

Lemma tol_mono (a b : Z) : (a <= b)%Z -> Approx.tol a <= Approx.tol b.
Proof.
  intros Hab. unfold Approx.tol. apply Qmult_le_compat_r; [|qcompute].
  now rewrite <- Zle_Qle.
Qed.

Lemma tol_small (n : Z) : (n <= 2 ^ 32)%Z -> Approx.tol n <= 1.
Proof.
  intros Hn. eapply Qle_trans; [apply (tol_mono n (2 ^ 32) Hn)|]. qcompute.
Qed.

(** One host addition of a scaled amount to a running volume. *)
Lemma plus_near (n : Z) (v s E e : Q) :
  (0 <= n < 2 ^ 31)%Z -> 0 <= E -> 0 <= e ->
  Approx.within (1 - Approx.tol (n + 2)) (1 + Approx.tol (n + 2)) v E ->
  Approx.within (1 - Approx.tol 2) (1 + Approx.tol 2) s e ->
  Approx.within (1 - Approx.tol (n + 3)) (1 + Approx.tol (n + 3))
    (BigDecimal.plus v s) (E + e).
Proof.
  intros Hn HE He Hv Hs.
  pose proof (tol_add n 2) as T2. pose proof (tol_add n 3) as T3.
  pose proof (tol_nonneg n ltac:(lia)) as Tn.
  pose proof (tol_small (n + 2) ltac:(lia)) as Ts. rewrite T2 in Ts.
  assert (E2 : Approx.tol 2 == 4 * BigDecimal.unit)
    by (unfold Approx.tol; simpl; ring).
  assert (E3 : Approx.tol 3 == 6 * BigDecimal.unit)
    by (unfold Approx.tol; simpl; ring).
  destruct unit_bounds as [U0 U1].
  set (u := BigDecimal.unit) in *.
  set (t := Approx.tol n) in *.
  assert (Hsum : Approx.within (1 - (t + 4 * u)) (1 + (t + 4 * u)) (v + s) (E + e)).
  { destruct Hv as [V1 V2], Hs as [S1 S2].
    rewrite T2, E2 in V1, V2. rewrite E2 in S1, S2.
    assert (X : 0 <= t * e) by now apply Qmult_le_0_compat.
    split.
    - assert (Eq : (1 - (t + 4 * u)) * (E + e)
                   == (1 - (t + 4 * u)) * E + (1 - 4 * u) * e - t * e) by ring.
      rewrite Eq. lra.
    - assert (Eq : (1 + (t + 4 * u)) * (E + e)
                   == (1 + (t + 4 * u)) * E + (1 + 4 * u) * e + t * e) by ring.
      rewrite Eq. lra. }
  assert (HEe : 0 <= E + e) by lra.
  unfold BigDecimal.plus.
  apply (within_weaken ((1 - (t + 4 * u)) * (1 - u)) ((1 + (t + 4 * u)) * (1 + u)));
    [exact HEe | | | apply within_normalized; [exact HEe | lra | exact Hsum]].
  - rewrite T3, E3. fold u.
    assert (X : 0 <= (t + 4 * u) * u) by (apply Qmult_le_0_compat; lra).
    assert (Eq : (1 - (t + 4 * u)) * (1 - u)
                 == 1 - (t + 6 * u) + u + (t + 4 * u) * u) by ring.
    rewrite Eq. lra.
  - rewrite T3, E3. fold u.
    assert (X : (t + 4 * u) * u <= 1 * u) by (apply Qmult_le_compat_r; lra).
    assert (Eq : (1 + (t + 4 * u)) * (1 + u)
                 == 1 + (t + 6 * u) - u + (t + 4 * u) * u) by ring.
    rewrite Eq. lra.
Qed.

(** Both mappings take the absolute value of a raw amount. *)
Lemma absBigInt_abs (x : Z) :
  V3PoolPlain.absBigInt x = Z.abs x /\ V3Pool.absBigInt x = Z.abs x.
Proof.
  unfold V3PoolPlain.absBigInt, V3Pool.absBigInt, BigInt.lt, BigInt.ge,
    BigInt.zero, BigInt.times, BigInt.fromI32.
  destruct (Z.ltb_spec x 0), (Z.leb_spec 0 x); lia.
Qed.

Lemma exact_nonneg (a d : Z) : 0 <= inject_Z (Z.abs a) / inject_Z (10 ^ Z.max 0 d).
Proof.
  apply Qle_shift_div_l; [apply pow10_Z_pos; lia|].
  rewrite Qmult_0_l. apply inject_Z_nonneg. lia.
Qed.

(** The amounts the handler adds against the unrounded amounts. *)
Lemma scaled_vs_exact (pools : gmap string Pool.t) (tokens : gmap string Token.t)
    (event : Swap.t) :
  (0 <= Exact.amount0 pools tokens event
   /\ Approx.within (1 - Approx.tol 2) (1 + Approx.tol 2)
        (Volumes.scaled0 pools tokens event) (Exact.amount0 pools tokens event))
  /\ (0 <= Exact.amount1 pools tokens event
      /\ Approx.within (1 - Approx.tol 2) (1 + Approx.tol 2)
           (Volumes.scaled1 pools tokens event) (Exact.amount1 pools tokens event)).
Proof.
  unfold Volumes.scaled0, Volumes.scaled1, Exact.amount0, Exact.amount1.
  destruct (Volumes.resolve pools tokens event) as [[token0 token1]|].
  - rewrite !toDecimal_total, !(proj1 (absBigInt_abs _)).
    cbn [from_option default Datatypes.id].
    split; (split; [apply exact_nonneg | apply scaled_near; lia]).
  - rewrite zero_is_0. unfold Approx.within.
    split; (split; [apply Qle_refl | split; rewrite Qmult_0_r; apply Qle_refl]).
Qed.

End Tolerance.

(** ** Volume accumulation in the volume-only mapping *)

Lemma accumulated_proper (view : option Volumes.bucket) (n n' : Z) (v0 v0' v1 v1' : Q) :
  n = n' -> (v0 == v0')%Q -> (v1 == v1')%Q ->
  Volumes.accumulated view n v0 v1 -> Volumes.accumulated view n' v0' v1'.
Proof.
  intros <- E0 E1. unfold Volumes.accumulated, Approx.within.
  intros (P0 & P1 & Hrest).
  split; [now rewrite <- E0|]. split; [now rewrite <- E1|].
  destruct view as [b|].
  - destruct Hrest as (Hn & Hc & Hu & Hf & Ht & Hv).
    repeat (split; [assumption|]).
    intros Hlt. destruct (Hv Hlt) as [[A B] [C D]].
    split; split.
    + now rewrite <- E0.
    + now rewrite <- E0.
    + now rewrite <- E1.
    + now rewrite <- E1.
  - destruct Hrest as (Hn & H0 & H1).
    split; [exact Hn|]. split; [now rewrite <- E0 | now rewrite <- E1].
Qed.

Lemma accumulated_bump (view : option Volumes.bucket) (n : Z)
    (e0 e1 s0 s1 a0 a1 : Q) :
  0 <= n ->
  (0 <= a0)%Q -> (0 <= a1)%Q ->
  Approx.within (1 - Approx.tol 2) (1 + Approx.tol 2) s0 a0 ->
  Approx.within (1 - Approx.tol 2) (1 + Approx.tol 2) s1 a1 ->
  Volumes.accumulated view n e0 e1 ->
  Volumes.accumulated (Some (Volumes.bump (default Volumes.fresh view) s0 s1))
    (n + 1) (e0 + a0) (e1 + a1).
Proof.
  intros Hn Ha0 Ha1 Hs0 Hs1. unfold Volumes.accumulated.
  destruct view as [b|]; cbn [from_option Datatypes.id Volumes.bump Volumes.fresh
    Volumes.swapCount Volumes.volumeToken0 Volumes.volumeToken1 Volumes.volumeUSD
    Volumes.feesUSD Volumes.tvlUSD].
  - intros (P0 & P1 & Hpos & Hc & Hu & Hf & Ht & Hv).
    split; [lra|]. split; [lra|].
    split; [lia|]. split; [rewrite Hc; unfold I32.add; apply I32_wrap_add_l|].
    repeat (split; [assumption|]).
    intros Hlt. destruct (Hv ltac:(lia)) as [V0 V1].
    replace (n + 1 + 2) with (n + 3) by lia.
    split; apply plus_near; try assumption; lia.
  - intros (P0 & P1 & -> & H0 & H1).
    split; [lra|]. split; [lra|].
    split; [lia|]. split; [reflexivity|].
    repeat (split; [reflexivity|]).
    intros _. change (0 + 1 + 2) with (0 + 3).
    assert (Z0 : forall e, (e == 0)%Q ->
                   Approx.within (1 - Approx.tol (0 + 2)) (1 + Approx.tol (0 + 2))
                     BigDecimal.zero e).
    { intros e He. rewrite zero_is_0. unfold Approx.within. rewrite He.
      split; rewrite Qmult_0_r; apply Qle_refl. }
    split; apply plus_near; try assumption; try lia; now apply Z0.
Qed.

Lemma accumulated_fresh (view : option Volumes.bucket) :
  view = None -> Volumes.accumulated view 0 0 0.
Proof. intros ->. cbn. repeat split; try reflexivity; apply Qle_refl. Qed.

Lemma total_cons (f : Swap.t -> Q) (event : Swap.t) (rest : list Swap.t) :
  Volumes.total f (event :: rest) = (f event + Volumes.total f rest)%Q.
Proof. reflexivity. Qed.

Lemma handleSwaps_returns (events : list Swap.t) (st : Store.t) :
  Forall (fun event => Volumes.converts event = true) events ->
  is_Some (V3PoolPlain.handleSwaps st events).
Proof.
  revert st. induction events as [|event rest IH]; intros st Hall.
  - cbn. eauto.
  - inversion Hall as [|? ? Hc Hrest]; subst.
    destruct (handleSwap_plain_returns st event Hc) as [st1 Hrun].
    cbn [V3PoolPlain.handleSwaps]. rewrite Hrun. cbn [mbind option_bind].
    now apply IH.
Qed.

Section Accumulate.

Variable view : Store.t -> string -> option Volumes.bucket.
Variable key : Swap.t -> string.

(** How one handled event changes the viewed table. *)
Hypothesis view_step :
  forall st event st',
    V3PoolPlain.handleSwap st event = Some st' ->
    forall id,
      view st' id
      = if Volumes.applied key (Store.pools st) (Store.tokens st) id event
        then Some (Volumes.bump (default Volumes.fresh (view st id))
                     (Volumes.scaled0 (Store.pools st) (Store.tokens st) event)
                     (Volumes.scaled1 (Store.pools st) (Store.tokens st) event))
        else view st id.

Lemma handleSwaps_accumulates (id : string) (events : list Swap.t) :
  forall (st st' : Store.t) (n : Z) (e0 e1 : Q),
    0 <= n ->
    V3PoolPlain.handleSwaps st events = Some st' ->
    Volumes.accumulated (view st id) n e0 e1 ->
    let mine :=
      List.filter (Volumes.applied key (Store.pools st) (Store.tokens st) id) events in
    Volumes.accumulated (view st' id)
      (n + Z.of_nat (length mine))
      (e0 + Volumes.total (Exact.amount0 (Store.pools st) (Store.tokens st)) mine)
      (e1 + Volumes.total (Exact.amount1 (Store.pools st) (Store.tokens st)) mine).
Proof.
  induction events as [|event rest IH]; intros st st' n e0 e1 Hn Hrun Hacc mine.
  - cbn in Hrun. injection Hrun as <-.
    subst mine. cbn [List.filter length]. unfold Volumes.total. cbn [fold_right].
    revert Hacc. apply accumulated_proper; [lia | ring | ring].
  - cbn [V3PoolPlain.handleSwaps] in Hrun.
    destruct (V3PoolPlain.handleSwap st event) as [st1|] eqn:Hstep;
      [|discriminate].
    cbn [mbind option_bind] in Hrun.
    destruct (handleSwap_plain_step st event st1 Hstep) as (Hpools & Htokens & _).
    pose proof (view_step st event st1 Hstep id) as Hview.
    subst mine. cbn [List.filter].
    destruct (scaled_vs_exact (Store.pools st) (Store.tokens st) event)
      as [[A0 S0] [A1 S1]].
    destruct (Volumes.applied key (Store.pools st) (Store.tokens st) id event).
    + pose proof (accumulated_bump _ n e0 e1 _ _ _ _ Hn A0 A1 S0 S1 Hacc) as Hacc1.
      rewrite <- Hview in Hacc1.
      pose proof (IH st1 st' (n + 1) _ _ ltac:(lia) Hrun Hacc1) as Hfin.
      cbv zeta in Hfin. rewrite Hpools, Htokens in Hfin.
      revert Hfin. apply accumulated_proper.
      * cbn [length]. lia.
      * rewrite total_cons. ring.
      * rewrite total_cons. ring.
    + rewrite <- Hview in Hacc.
      pose proof (IH st1 st' _ _ _ Hn Hrun Hacc) as Hfin.
      cbv zeta in Hfin. rewrite Hpools, Htokens in Hfin. exact Hfin.
Qed.

(** A row that exists stays, with its USD fields as they were. *)
Lemma handleSwaps_keeps (id : string) (events : list Swap.t) :
  forall (st st' : Store.t) (b : Volumes.bucket),
    V3PoolPlain.handleSwaps st events = Some st' ->
    view st id = Some b ->
    exists b',
      view st' id = Some b'
      /\ Volumes.volumeUSD b' = Volumes.volumeUSD b
      /\ Volumes.feesUSD b' = Volumes.feesUSD b
      /\ Volumes.tvlUSD b' = Volumes.tvlUSD b.
Proof.
  induction events as [|event rest IH]; intros st st' b Hrun Hb.
  - cbn in Hrun. injection Hrun as <-. exists b. now repeat split.
  - cbn [V3PoolPlain.handleSwaps] in Hrun.
    destruct (V3PoolPlain.handleSwap st event) as [st1|] eqn:Hstep;
      [|discriminate].
    cbn [mbind option_bind] in Hrun.
    pose proof (view_step st event st1 Hstep id) as Hview.
    rewrite Hb in Hview. cbn [from_option Datatypes.id] in Hview.
    destruct (Volumes.applied key (Store.pools st) (Store.tokens st) id event).
    + destruct (IH st1 st' _ Hrun Hview) as (b' & Hb' & Hu & Hf & Ht).
      exists b'. split; [exact Hb'|]. cbn in Hu, Hf, Ht. now repeat split.
    + exact (IH st1 st' _ Hrun Hview).
Qed.

End Accumulate.

Lemma hourView_step (st : Store.t) (event : Swap.t) (st' : Store.t) :
  V3PoolPlain.handleSwap st event = Some st' ->
  forall id,
    Volumes.hourView st' id
    = if Volumes.applied Volumes.hourKeyOf (Store.pools st) (Store.tokens st) id event
      then Some (Volumes.bump (default Volumes.fresh (Volumes.hourView st id))
                   (Volumes.scaled0 (Store.pools st) (Store.tokens st) event)
                   (Volumes.scaled1 (Store.pools st) (Store.tokens st) event))
      else Volumes.hourView st id.
Proof.
  intros Hrun.
  destruct (handleSwap_plain_step st event st' Hrun) as (_ & _ & _ & Hh & _).
  exact Hh.
Qed.

Lemma dayView_step (st : Store.t) (event : Swap.t) (st' : Store.t) :
  V3PoolPlain.handleSwap st event = Some st' ->
  forall id,
    Volumes.dayView st' id
    = if Volumes.applied Volumes.dayKeyOf (Store.pools st) (Store.tokens st) id event
      then Some (Volumes.bump (default Volumes.fresh (Volumes.dayView st id))
                   (Volumes.scaled0 (Store.pools st) (Store.tokens st) event)
                   (Volumes.scaled1 (Store.pools st) (Store.tokens st) event))
      else Volumes.dayView st id.
Proof.
  intros Hrun.
  destruct (handleSwap_plain_step st event st' Hrun) as (_ & _ & _ & _ & Hd & _).
  exact Hd.
Qed.

Lemma filter_repeat_true {A : Type} (f : A -> bool) (x : A) (n : nat) :
  f x = true -> List.filter f (repeat x n) = repeat x n.
Proof.
  intros Hx. induction n as [|n IH]; [reflexivity|].
  cbn [repeat List.filter]. now rewrite Hx, IH.
Qed.

(** C6, as stated, fails for the volumes: every sum is rounded to 34
    significant digits.  Two swaps applied to one fresh hour bucket, of
    [10^34] and of 1 whole token0, leave a token0 volume of [10^34], not
    the sum [10^34 + 1]; the count is 2 as claimed. *)
Lemma recorded_volume_is_rounded :
  Store.hourData Sample.store !! Sample.hour_key = None
  /\ Volumes.hourKeyOf Sample.swap_wbtc_large = Sample.hour_key
  /\ Volumes.hourKeyOf Sample.swap_wbtc_unit = Sample.hour_key
  /\ (Exact.amount0 Sample.pools Sample.tokens Sample.swap_wbtc_large
      == inject_Z (10 ^ 34))%Q
  /\ (Exact.amount0 Sample.pools Sample.tokens Sample.swap_wbtc_unit == 1)%Q
  /\ exists st' row,
       V3PoolPlain.handleSwaps Sample.store
         [Sample.swap_wbtc_large; Sample.swap_wbtc_unit] = Some st'
       /\ Store.hourData st' !! Sample.hour_key = Some row
       /\ PoolHourData.swapCount row = 2
       /\ (PoolHourData.volumeToken0 row == inject_Z (10 ^ 34))%Q
       /\ ~ (PoolHourData.volumeToken0 row == inject_Z (10 ^ 34) + 1)%Q.
Proof.
  split; [vm_compute; reflexivity|].
  split; [vm_compute; reflexivity|].
  split; [vm_compute; reflexivity|].
  split; [vm_compute; reflexivity|].
  split; [vm_compute; reflexivity|].
  assert (H : match V3PoolPlain.handleSwaps Sample.store
                      [Sample.swap_wbtc_large; Sample.swap_wbtc_unit] with
              | Some st' =>
                  match Store.hourData st' !! Sample.hour_key with
                  | Some row =>
                      (PoolHourData.swapCount row =? 2)
                      && Qeq_bool (PoolHourData.volumeToken0 row) (inject_Z (10 ^ 34))
                      && negb (Qeq_bool (PoolHourData.volumeToken0 row)
                                 (inject_Z (10 ^ 34) + 1))
                  | None => false
                  end
              | None => false
              end = true) by (vm_compute; reflexivity).
  destruct (V3PoolPlain.handleSwaps Sample.store _) as [st'|] eqn:Hrun;
    [|discriminate H].
  destruct (Store.hourData st' !! Sample.hour_key) as [row|] eqn:Hrow;
    [|discriminate H].
  apply andb_true_iff in H as [H Hne]. apply andb_true_iff in H as [Hc Hv].
  exists st', row.
  split; [reflexivity|]. split; [exact Hrow|].
  split; [now apply Z.eqb_eq|].
  split; [now apply Qeq_bool_iff|].
  apply Qeq_bool_neq. now apply negb_true_iff.
Qed.

(** The swap count is a 32-bit counter: after [2^31] swaps applied to one
    fresh hour bucket it has wrapped to [-2^31]. *)
Lemma swap_count_wraps_at_2_31 :
  length (repeat Sample.swap_wbtc_weth (Z.to_nat (2 ^ 31))) = Z.to_nat (2 ^ 31)
  /\ Store.hourData Sample.store !! Sample.hour_key = None
  /\ Volumes.hourKeyOf Sample.swap_wbtc_weth = Sample.hour_key
  /\ exists st' row,
       V3PoolPlain.handleSwaps Sample.store
         (repeat Sample.swap_wbtc_weth (Z.to_nat (2 ^ 31))) = Some st'
       /\ Store.hourData st' !! Sample.hour_key = Some row
       /\ PoolHourData.swapCount row = - 2 ^ 31
       /\ PoolHourData.swapCount row <> 2 ^ 31.
Proof.
  split; [apply repeat_length|]. split; [vm_compute; reflexivity|].
  split; [vm_compute; reflexivity|].
  assert (Happ : Volumes.applied Volumes.hourKeyOf (Store.pools Sample.store)
                   (Store.tokens Sample.store) Sample.hour_key
                   Sample.swap_wbtc_weth = true) by (vm_compute; reflexivity).
  assert (Hfresh : Volumes.hourView Sample.store Sample.hour_key = None)
    by (vm_compute; reflexivity).
  assert (HN : Z.of_nat (Z.to_nat (2 ^ 31)) = 2 ^ 31) by (apply Z2Nat.id; lia).
  revert HN. generalize (Z.to_nat (2 ^ 31)). intros N HN.
  destruct (handleSwaps_returns (repeat Sample.swap_wbtc_weth N) Sample.store)
    as [st' Hrun].
  { clear HN. induction N as [|N IHN]; cbn [repeat]; constructor;
      [vm_compute; reflexivity | exact IHN]. }
  pose proof (handleSwaps_accumulates Volumes.hourView Volumes.hourKeyOf
                hourView_step Sample.hour_key (repeat Sample.swap_wbtc_weth N)
                Sample.store st' 0 0 0 ltac:(lia) Hrun (accumulated_fresh _ Hfresh))
    as Hacc.
  cbv zeta in Hacc.
  rewrite (filter_repeat_true _ _ _ Happ), repeat_length, HN in Hacc.
  exists st'. unfold Volumes.hourView in Hacc.
  unfold Volumes.accumulated in Hacc.
  destruct (Store.hourData st' !! Sample.hour_key) as [row|];
    cbn [fmap option_fmap option_map] in Hacc.
  - exists row. destruct Hacc as (_ & _ & _ & Hc & _).
    change (PoolHourData.swapCount row = I32.wrap (0 + 2 ^ 31)) in Hc.
    split; [exact Hrun|]. split; [reflexivity|].
    rewrite Hc. vm_compute. split; [reflexivity | discriminate].
  - destruct Hacc as (_ & _ & Hz & _). vm_compute in Hz. discriminate.
Qed.

(** C6 (amended): let [events] be any sequence of swaps whose timestamps
    convert to [i32], handled from a store in which the bucket [id] does not
    exist yet, and let [mine] be those of them that are applied to [id]
    (the others go to other buckets or are discarded).  If [mine] has [N]
    events with [0 < N < 2^31], the run returns and the row of [id] has
    swap count [N], USD fields at zero, and token volumes equal to the sums
    of the unrounded decimal-adjusted absolute amounts of [mine] to a
    relative error of [(N + 2) / 10^33].  This holds for the hour table and
    for the day table; on first reference [ensureHour] and [ensureDay] hand
    out a row whose aggregate fields are all zero. *)
Theorem applyVolume_accumulates (st : Store.t) (events : list Swap.t) (id : string) :
  Forall (fun event => Volumes.converts event = true) events ->
  (Store.hourData st !! id = None ->
   let mine :=
     List.filter (Volumes.applied Volumes.hourKeyOf (Store.pools st) (Store.tokens st) id)
       events in
   let N := Z.of_nat (length mine) in
   0 < N < 2 ^ 31 ->
   exists st' row,
     V3PoolPlain.handleSwaps st events = Some st'
     /\ Store.hourData st' !! id = Some row
     /\ PoolHourData.swapCount row = N
     /\ Approx.within (1 - Approx.tol (N + 2)) (1 + Approx.tol (N + 2))
          (PoolHourData.volumeToken0 row)
          (Volumes.total (Exact.amount0 (Store.pools st) (Store.tokens st)) mine)
     /\ Approx.within (1 - Approx.tol (N + 2)) (1 + Approx.tol (N + 2))
          (PoolHourData.volumeToken1 row)
          (Volumes.total (Exact.amount1 (Store.pools st) (Store.tokens st)) mine)
     /\ PoolHourData.volumeUSD row = BigDecimal.zero
     /\ PoolHourData.feesUSD row = BigDecimal.zero
     /\ PoolHourData.tvlUSD row = BigDecimal.zero)
  /\ (Store.dayData st !! id = None ->
      let mine :=
        List.filter (Volumes.applied Volumes.dayKeyOf (Store.pools st) (Store.tokens st) id)
          events in
      let N := Z.of_nat (length mine) in
      0 < N < 2 ^ 31 ->
      exists st' row,
        V3PoolPlain.handleSwaps st events = Some st'
        /\ Store.dayData st' !! id = Some row
        /\ PoolDayData.swapCount row = N
        /\ Approx.within (1 - Approx.tol (N + 2)) (1 + Approx.tol (N + 2))
             (PoolDayData.volumeToken0 row)
             (Volumes.total (Exact.amount0 (Store.pools st) (Store.tokens st)) mine)
        /\ Approx.within (1 - Approx.tol (N + 2)) (1 + Approx.tol (N + 2))
             (PoolDayData.volumeToken1 row)
             (Volumes.total (Exact.amount1 (Store.pools st) (Store.tokens st)) mine)
        /\ PoolDayData.volumeUSD row = BigDecimal.zero
        /\ PoolDayData.feesUSD row = BigDecimal.zero
        /\ PoolDayData.tvlUSD row = BigDecimal.zero)
  /\ (forall poolId ts key,
        V3PoolPlain.hourKey poolId ts = Some key ->
        Store.hourData st !! key = None ->
        Volumes.ofHour <$> V3PoolPlain.ensureHour st poolId ts = Some Volumes.fresh)
  /\ (forall poolId ts key,
        V3PoolPlain.dayKey poolId ts = Some key ->
        Store.dayData st !! key = None ->
        Volumes.ofDay <$> V3PoolPlain.ensureDay st poolId ts = Some Volumes.fresh).
Proof.
  intros Hall.
  destruct (handleSwaps_returns events st Hall) as [st' Hrun].
  split; [|split; [|split]].
  - intros Hfresh mine N HN.
    assert (Hv : Volumes.hourView st id = None)
      by (unfold Volumes.hourView; now rewrite Hfresh).
    pose proof (handleSwaps_accumulates Volumes.hourView Volumes.hourKeyOf
                  hourView_step id events st st' 0 0 0 ltac:(lia) Hrun
                  (accumulated_fresh _ Hv)) as Hacc.
    cbv zeta in Hacc. fold mine in Hacc. fold N in Hacc.
    rewrite Z.add_0_l in Hacc.
    apply (accumulated_proper _ _ N _
             (Volumes.total (Exact.amount0 (Store.pools st) (Store.tokens st)) mine)
             _ (Volumes.total (Exact.amount1 (Store.pools st) (Store.tokens st)) mine)
             eq_refl) in Hacc; [|ring|ring].
    exists st'. unfold Volumes.hourView in Hacc.
    unfold Volumes.accumulated in Hacc.
    destruct (Store.hourData st' !! id) as [row|];
      cbn [fmap option_fmap option_map] in Hacc.
    + exists row. destruct Hacc as (_ & _ & _ & Hc & Hu & Hf & Ht & Hv').
      destruct (Hv' ltac:(lia)) as [V0 V1].
      change (PoolHourData.swapCount row = I32.wrap N) in Hc.
      split; [exact Hrun|]. split; [reflexivity|].
      split; [rewrite Hc; apply I32_wrap_id; unfold I32.in_range; lia|].
      split; [exact V0|]. split; [exact V1|].
      repeat split; assumption.
    + destruct Hacc as (_ & _ & Hz & _). lia.
  - intros Hfresh mine N HN.
    assert (Hv : Volumes.dayView st id = None)
      by (unfold Volumes.dayView; now rewrite Hfresh).
    pose proof (handleSwaps_accumulates Volumes.dayView Volumes.dayKeyOf
                  dayView_step id events st st' 0 0 0 ltac:(lia) Hrun
                  (accumulated_fresh _ Hv)) as Hacc.
    cbv zeta in Hacc. fold mine in Hacc. fold N in Hacc.
    rewrite Z.add_0_l in Hacc.
    apply (accumulated_proper _ _ N _
             (Volumes.total (Exact.amount0 (Store.pools st) (Store.tokens st)) mine)
             _ (Volumes.total (Exact.amount1 (Store.pools st) (Store.tokens st)) mine)
             eq_refl) in Hacc; [|ring|ring].
    exists st'. unfold Volumes.dayView in Hacc.
    unfold Volumes.accumulated in Hacc.
    destruct (Store.dayData st' !! id) as [row|];
      cbn [fmap option_fmap option_map] in Hacc.
    + exists row. destruct Hacc as (_ & _ & _ & Hc & Hu & Hf & Ht & Hv').
      destruct (Hv' ltac:(lia)) as [V0 V1].
      change (PoolDayData.swapCount row = I32.wrap N) in Hc.
      split; [exact Hrun|]. split; [reflexivity|].
      split; [rewrite Hc; apply I32_wrap_id; unfold I32.in_range; lia|].
      split; [exact V0|]. split; [exact V1|].
      repeat split; assumption.
    + destruct Hacc as (_ & _ & Hz & _). lia.
  - intros poolId ts key. unfold V3PoolPlain.hourKey, V3PoolPlain.ensureHour,
      Load.hourData.
    destruct (BigInt.toI32 ts) as [t|]; [|discriminate].
    cbn [mbind option_bind]. intros [= <-] ->. reflexivity.
  - intros poolId ts key. unfold V3PoolPlain.dayKey, V3PoolPlain.ensureDay,
      Load.dayData.
    destruct (BigInt.toI32 ts) as [t|]; [|discriminate].
    cbn [mbind option_bind]. intros [= <-] ->. reflexivity.
Qed.

Lemma applyVolume_accumulates_witness :
  exists st' row,
    V3PoolPlain.handleSwaps Sample.store Sample.interleaved = Some st'
    /\ Store.hourData st' !! Sample.hour_key = Some row
    /\ PoolHourData.swapCount row = 2
    /\ Approx.within (1 - Approx.tol 4) (1 + Approx.tol 4)
         (PoolHourData.volumeToken0 row) (inject_Z 2)
    /\ Approx.within (1 - Approx.tol 4) (1 + Approx.tol 4)
         (PoolHourData.volumeToken1 row) (inject_Z 30).
Proof.
  destruct (proj1 (applyVolume_accumulates Sample.store Sample.interleaved
                     Sample.hour_key
                     ltac:(repeat constructor))
              ltac:(vm_compute; reflexivity) ltac:(vm_compute; split; reflexivity))
    as (st' & row & Hrun & Hrow & Hc & H0 & H1 & _).
  exists st', row.
  split; [exact Hrun|]. split; [exact Hrow|]. split; [exact Hc|].
  destruct H0 as [L0 U0], H1 as [L1 U1].
  split; split.
  - refine (Qle_trans _ _ _ _ L0). apply Qle_bool_iff. vm_compute. reflexivity.
  - refine (Qle_trans _ _ _ U0 _). apply Qle_bool_iff. vm_compute. reflexivity.
  - refine (Qle_trans _ _ _ _ L1). apply Qle_bool_iff. vm_compute. reflexivity.
  - refine (Qle_trans _ _ _ U1 _). apply Qle_bool_iff. vm_compute. reflexivity.
Defined.

(** ** The volume-only handler: when it traps and what it leaves alone *)

(** X5: the volume-only handler traps on exactly the events that resolve
    to a pool with both tokens and carry a timestamp that does not convert
    to [i32]; a run over events whose timestamps all convert returns; and
    every run that returns leaves the pool, token and price tables as they
    were, and leaves every hour row and day row whose key is not the key of
    one of the events exactly as it was. *)
Theorem handleSwaps_plain_frame (events : list Swap.t) (st : Store.t) :
  (forall event,
     V3PoolPlain.handleSwap st event = None
     <-> is_Some (Volumes.resolve (Store.pools st) (Store.tokens st) event)
         /\ Volumes.converts event = false)
  /\ (Forall (fun event => Volumes.converts event = true) events ->
      is_Some (V3PoolPlain.handleSwaps st events))
  /\ (forall st',
        V3PoolPlain.handleSwaps st events = Some st' ->
        Store.pools st' = Store.pools st
        /\ Store.tokens st' = Store.tokens st
        /\ Store.priceHour st' = Store.priceHour st
        /\ (forall id, ~ In id (map Volumes.hourKeyOf events) ->
                       Store.hourData st' !! id = Store.hourData st !! id)
        /\ (forall id, ~ In id (map Volumes.dayKeyOf events) ->
                       Store.dayData st' !! id = Store.dayData st !! id)).
Proof.
  split; [|split].
  - intros event. split.
    + intros Htrap.
      destruct (Volumes.resolve (Store.pools st) (Store.tokens st) event)
        as [tt|] eqn:Hres.
      * split; [eauto|].
        destruct (Volumes.converts event) eqn:Hc; [|reflexivity].
        destruct (handleSwap_plain_returns st event Hc) as [st1 Hrun].
        congruence.
      * rewrite (handleSwap_plain_unresolved st event Hres) in Htrap.
        discriminate.
    + intros [Hres Hc]. now apply handleSwap_plain_traps.
  - apply handleSwaps_returns.
  - revert st. induction events as [|event rest IH]; intros st st' Hrun.
    + cbn in Hrun. injection Hrun as <-. repeat split; reflexivity.
    + cbn [V3PoolPlain.handleSwaps] in Hrun.
      destruct (V3PoolPlain.handleSwap st event) as [st1|] eqn:Hstep;
        [|discriminate].
      cbn [mbind option_bind] in Hrun.
      destruct (handleSwap_plain_step st event st1 Hstep)
        as (Hp & Ht & Hph & _ & _ & Hh & Hd).
      destruct (IH st1 st' Hrun) as (Hp' & Ht' & Hph' & Hh' & Hd').
      split; [congruence|]. split; [congruence|]. split; [congruence|].
      split; intros id Hnot; cbn [map In] in Hnot.
      * rewrite Hh' by tauto. apply Hh. intros ->. tauto.
      * rewrite Hd' by tauto. apply Hd. intros ->. tauto.
Qed.

(** X6: a run of the volume-only handler over events whose timestamps
    convert never removes an hour or day row and never touches its USD
    fields: a row present before the run is present after it with
    [volumeUSD], [feesUSD] and [tvlUSD] as they were. *)
Theorem handleSwaps_rows_kept (st : Store.t) (events : list Swap.t) (id : string) :
  Forall (fun event => Volumes.converts event = true) events ->
  exists st',
    V3PoolPlain.handleSwaps st events = Some st'
    /\ (forall row,
          Store.hourData st !! id = Some row ->
          exists row',
            Store.hourData st' !! id = Some row'
            /\ PoolHourData.volumeUSD row' = PoolHourData.volumeUSD row
            /\ PoolHourData.feesUSD row' = PoolHourData.feesUSD row
            /\ PoolHourData.tvlUSD row' = PoolHourData.tvlUSD row)
    /\ (forall row,
          Store.dayData st !! id = Some row ->
          exists row',
            Store.dayData st' !! id = Some row'
            /\ PoolDayData.volumeUSD row' = PoolDayData.volumeUSD row
            /\ PoolDayData.feesUSD row' = PoolDayData.feesUSD row
            /\ PoolDayData.tvlUSD row' = PoolDayData.tvlUSD row).
Proof.
  intros Hall. destruct (handleSwaps_returns events st Hall) as [st' Hrun].
  exists st'. split; [exact Hrun|].
  split; intros row Hrow.
  - assert (Hv : Volumes.hourView st id = Some (Volumes.ofHour row))
      by (unfold Volumes.hourView; now rewrite Hrow).
    destruct (handleSwaps_keeps Volumes.hourView Volumes.hourKeyOf
                hourView_step id events st st' _ Hrun Hv)
      as (b' & Hb' & Hrest).
    unfold Volumes.hourView in Hb'.
    destruct (Store.hourData st' !! id) as [row'|] eqn:Erow; [|discriminate].
    injection Hb' as <-. exists row'. split; [reflexivity | exact Hrest].
  - assert (Hv : Volumes.dayView st id = Some (Volumes.ofDay row))
      by (unfold Volumes.dayView; now rewrite Hrow).
    destruct (handleSwaps_keeps Volumes.dayView Volumes.dayKeyOf
                dayView_step id events st st' _ Hrun Hv)
      as (b' & Hb' & Hrest).
    unfold Volumes.dayView in Hb'.
    destruct (Store.dayData st' !! id) as [row'|] eqn:Erow; [|discriminate].
    injection Hb' as <-. exists row'. split; [reflexivity | exact Hrest].
Qed.

Lemma handleSwaps_rows_kept_witness :
  exists st' row',
    V3PoolPlain.handleSwaps Sample.store_with_tvl Sample.interleaved = Some st'
    /\ Store.hourData st' !! Sample.hour_key = Some row'
    /\ PoolHourData.tvlUSD row' = inject_Z 5.
Proof.
  destruct (handleSwaps_rows_kept Sample.store_with_tvl Sample.interleaved
              Sample.hour_key ltac:(repeat constructor))
    as (st' & Hrun & Hhour & _).
  destruct (Hhour
              (PoolHourData.mk Sample.hour_key Sample.pool_wbtc_weth 472222
                 (inject_Z 3) (inject_Z 4) 2 (inject_Z 7) (inject_Z 1) (inject_Z 5))
              ltac:(vm_compute; reflexivity))
    as (row' & Hrow & _ & _ & Htvl).
  exists st', row'. repeat split; assumption.
Defined.

(** ** Swap handling in the unified mapping *)

Lemma ensurePoolDayData_converts (st : Store.t) (poolId : string) (ts : Z) :
  BigInt.fits_i32 ts = true ->
  let idx := I32.div (I32.wrap ts) 86400 in
  let id := poolId +:+ "-" +:+ I32.toString idx in
  V3Pool.ensurePoolDayData st poolId ts
  = Some (default (PoolDayData.mk id poolId idx BigDecimal.zero BigDecimal.zero 0
                     BigDecimal.zero BigDecimal.zero BigDecimal.zero)
            (Load.dayData st id)).
Proof.
  intros H idx id. unfold V3Pool.ensurePoolDayData, V3Pool.dayId.
  rewrite (toI32_fits ts H). cbn [mbind option_bind]. fold idx. fold id.
  destruct (Load.dayData st id); reflexivity.
Qed.

Lemma ensurePoolHourData_converts (st : Store.t) (poolId : string) (ts : Z) :
  BigInt.fits_i32 ts = true ->
  let idx := I32.div (I32.wrap ts) 3600 in
  let id := poolId +:+ "-" +:+ I32.toString idx in
  V3Pool.ensurePoolHourData st poolId ts
  = Some (default (PoolHourData.mk id poolId idx BigDecimal.zero BigDecimal.zero 0
                     BigDecimal.zero BigDecimal.zero BigDecimal.zero)
            (Load.hourData st id)).
Proof.
  intros H idx id. unfold V3Pool.ensurePoolHourData, V3Pool.hourId.
  rewrite (toI32_fits ts H). cbn [mbind option_bind]. fold idx. fold id.
  destruct (Load.hourData st id); reflexivity.
Qed.

Lemma ensurePriceHour_converts (st : Store.t) (poolId : string) (ts : Z) :
  BigInt.fits_i32 ts = true ->
  let idx := I32.div (I32.wrap ts) 3600 in
  let id := poolId +:+ "-" +:+ I32.toString idx in
  V3Pool.ensurePriceHour st poolId ts
  = Some (default (PoolPriceHour.mk id poolId idx BigInt.zero BigDecimal.zero
                     BigDecimal.zero BigInt.zero 0)
            (Load.priceHour st id)).
Proof.
  intros H idx id. unfold V3Pool.ensurePriceHour, V3Pool.hourId.
  rewrite (toI32_fits ts H). cbn [mbind option_bind]. fold idx. fold id.
  destruct (Load.priceHour st id); reflexivity.
Qed.

Lemma ensurePoolDayData_aborts (st : Store.t) (poolId : string) (ts : Z) :
  BigInt.fits_i32 ts = false -> V3Pool.ensurePoolDayData st poolId ts = None.
Proof.
  intros H. unfold V3Pool.ensurePoolDayData, V3Pool.dayId.
  now rewrite (toI32_aborts ts H).
Qed.

Lemma ensured_day_id (st : Store.t) (id : string) (row : PoolDayData.t) :
  PoolDayData.id row = id ->
  PoolDayData.id (default row (Load.dayData st id)) = id.
Proof.
  intros H. unfold Load.dayData. destruct (Store.dayData st !! id); [reflexivity | exact H].
Qed.

Lemma ensured_hour_id (st : Store.t) (id : string) (row : PoolHourData.t) :
  PoolHourData.id row = id ->
  PoolHourData.id (default row (Load.hourData st id)) = id.
Proof.
  intros H. unfold Load.hourData. destruct (Store.hourData st !! id); [reflexivity | exact H].
Qed.

Lemma ensured_price_id (st : Store.t) (id : string) (row : PoolPriceHour.t) :
  PoolPriceHour.id row = id ->
  PoolPriceHour.id (default row (Load.priceHour st id)) = id.
Proof.
  intros H. unfold Load.priceHour. destruct (Store.priceHour st !! id); [reflexivity | exact H].
Qed.

Lemma ensured_day_view (st : Store.t) (id poolId : string) (idx : Z) :
  Volumes.ofDay
    (default (PoolDayData.mk id poolId idx BigDecimal.zero BigDecimal.zero 0
                BigDecimal.zero BigDecimal.zero BigDecimal.zero)
       (Load.dayData st id))
  = default Volumes.fresh (Volumes.dayView st id).
Proof.
  unfold Load.dayData, Volumes.dayView.
  destruct (Store.dayData st !! id); reflexivity.
Qed.

Lemma ensured_hour_view (st : Store.t) (id poolId : string) (idx : Z) :
  Volumes.ofHour
    (default (PoolHourData.mk id poolId idx BigDecimal.zero BigDecimal.zero 0
                BigDecimal.zero BigDecimal.zero BigDecimal.zero)
       (Load.hourData st id))
  = default Volumes.fresh (Volumes.hourView st id).
Proof.
  unfold Load.hourData, Volumes.hourView.
  destruct (Store.hourData st !! id); reflexivity.
Qed.

(** The store a swap leaves when its pool and tokens resolve, its
    timestamp converts and both balance queries answer. *)
Lemma handleSwap_unified_run
    (erc20 : string -> string -> option BigInt.t)
    (p0 p1 : BigDecimal.t) (st : Store.t) (event : Swap.t)
    (pool : Pool.t) (t0 t1 : Token.t) (b0 b1 : BigInt.t) :
  Store.pools st !! toLowerCase (Swap.address event) = Some pool ->
  Store.tokens st !! Pool.token0 pool = Some t0 ->
  Store.tokens st !! Pool.token1 pool = Some t1 ->
  erc20 (Pool.token0 pool) (Swap.address event) = Some b0 ->
  erc20 (Pool.token1 pool) (Swap.address event) = Some b1 ->
  Volumes.converts event = true ->
  let poolId := toLowerCase (Swap.address event) in
  let ts := Swap.timestamp event in
  let kh := Volumes.hourKeyOf event in
  let kd := Volumes.dayKeyOf event in
  let s0 := Volumes.scaled0 (Store.pools st) (Store.tokens st) event in
  let s1 := Volumes.scaled1 (Store.pools st) (Store.tokens st) event in
  let amt0 := BigDecimal.normalized
                (BigDecimal.fromZ b0 / V3PoolPlain.pow10BD (Token.decimals t0)) in
  let amt1 := BigDecimal.normalized
                (BigDecimal.fromZ b1 / V3PoolPlain.pow10BD (Token.decimals t1)) in
  let tvl := assigned_tvl pool p0 p1 amt0 amt1 in
  exists st' hour' day' ph',
    V3Pool.handleSwap erc20 p0 p1 st event = Some st'
    /\ Store.pools st' = Store.pools st
    /\ Store.tokens st' = Store.tokens st
    /\ Store.hourData st' = <[kh := hour']> (Store.hourData st)
    /\ Store.dayData st' = <[kd := day']> (Store.dayData st)
    /\ Store.priceHour st' = <[kh := ph']> (Store.priceHour st)
    /\ Volumes.ofHour hour'
       = Snapshot.withTvl
           (Volumes.bump (default Volumes.fresh (Volumes.hourView st kh)) s0 s1) tvl
    /\ Volumes.ofDay day'
       = Snapshot.withTvl
           (Volumes.bump (default Volumes.fresh (Volumes.dayView st kd)) s0 s1) tvl
    /\ ph' = PoolPriceHour.mk kh
               (from_option PoolPriceHour.pool poolId (Store.priceHour st !! kh))
               (from_option PoolPriceHour.hourStartUnix
                  (I32.div (I32.wrap ts) 3600) (Store.priceHour st !! kh))
               (Swap.sqrtPriceX96 event) p0 p1 (Swap.liquidity event)
               (I32.wrap ts).
Proof.
  intros Hpool Ht0 Ht1 Hb0 Hb1 Hc poolId ts kh kd s0 s1 amt0 amt1 tvl.
  unfold Volumes.converts in Hc.
  unfold V3Pool.handleSwap. rewrite Hpool.
  rewrite (ensurePoolDayData_converts st _ _ Hc).
  rewrite (ensurePoolHourData_converts st _ _ Hc).
  cbn [mbind option_bind]. rewrite Ht0, Ht1.
  rewrite !div_exponent_total. cbn [mbind option_bind].
  rewrite (ensurePriceHour_converts _ _ _ Hc).
  rewrite (toI32_fits _ Hc). cbn [mbind option_bind].
  unfold V3Pool.safeBalanceOf. rewrite Hb0, Hb1. cbn [mbind option_bind].
  rewrite !div_exponent_total. cbn [mbind option_bind].
  fold poolId ts. fold amt0 amt1.
  change (poolId +:+ "-" +:+ I32.toString (I32.div (I32.wrap ts) 3600)) with kh.
  change (poolId +:+ "-" +:+ I32.toString (I32.div (I32.wrap ts) 86400)) with kd.
  fold (assigned_tvl pool p0 p1 amt0 amt1). fold tvl.
  assert (Es0 : BigDecimal.normalized
                  (BigDecimal.fromZ (V3Pool.absBigInt (Swap.amount0 event))
                   / V3PoolPlain.pow10BD (Token.decimals t0)) = s0).
  { unfold s0, Volumes.scaled0, Volumes.resolve.
    rewrite Hpool, Ht0, Ht1, toDecimal_total.
    now rewrite (proj1 (absBigInt_abs _)), (proj2 (absBigInt_abs _)). }
  assert (Es1 : BigDecimal.normalized
                  (BigDecimal.fromZ (V3Pool.absBigInt (Swap.amount1 event))
                   / V3PoolPlain.pow10BD (Token.decimals t1)) = s1).
  { unfold s1, Volumes.scaled1, Volumes.resolve.
    rewrite Hpool, Ht0, Ht1, toDecimal_total.
    now rewrite (proj1 (absBigInt_abs _)), (proj2 (absBigInt_abs _)). }
  rewrite Es0, Es1.
  do 4 eexists.
  split; [reflexivity|].
  split; [reflexivity|]. split; [reflexivity|].
  cbn [Store.hourData Store.dayData Store.priceHour Store.pools Store.tokens
       Store.saveHour Store.saveDay Store.savePriceHour
       Assign.hourVolume Assign.hourTvl Assign.dayVolume Assign.dayTvl
       PoolHourData.id PoolDayData.id PoolPriceHour.id].
  rewrite !ensured_hour_id, !ensured_day_id, !ensured_price_id by reflexivity.
  rewrite !insert_insert_eq.
  split; [reflexivity|]. split; [reflexivity|]. split; [reflexivity|].
  split; [|split].
  - rewrite <- ensured_hour_view with (poolId := poolId)
                                      (idx := I32.div (I32.wrap ts) 3600).
    unfold Load.hourData. destruct (Store.hourData st !! kh); reflexivity.
  - rewrite <- ensured_day_view with (poolId := poolId)
                                     (idx := I32.div (I32.wrap ts) 86400).
    unfold Load.dayData. destruct (Store.dayData st !! kd); reflexivity.
  - unfold Load.priceHour.
    cbn [Store.priceHour Store.saveHour Store.saveDay].
    destruct (Store.priceHour st !! kh); reflexivity.
Qed.

Lemma handleSwap_unified_unknown_pool
    (erc20 : string -> string -> option BigInt.t)
    (p0 p1 : BigDecimal.t) (st : Store.t) (event : Swap.t) :
  Store.pools st !! toLowerCase (Swap.address event) = None ->
  V3Pool.handleSwap erc20 p0 p1 st event = Some st.
Proof. intros H. unfold V3Pool.handleSwap. now rewrite H. Qed.

Lemma handleSwap_unified_aborts
    (erc20 : string -> string -> option BigInt.t)
    (p0 p1 : BigDecimal.t) (st : Store.t) (event : Swap.t) (pool : Pool.t) :
  Store.pools st !! toLowerCase (Swap.address event) = Some pool ->
  Volumes.converts event = false ->
  V3Pool.handleSwap erc20 p0 p1 st event = None.
Proof.
  intros H Hc. unfold V3Pool.handleSwap. rewrite H.
  now rewrite (ensurePoolDayData_aborts st _ _ Hc).
Qed.

Lemma handleSwap_unified_missing_token
    (erc20 : string -> string -> option BigInt.t)
    (p0 p1 : BigDecimal.t) (st : Store.t) (event : Swap.t) (pool : Pool.t) :
  Store.pools st !! toLowerCase (Swap.address event) = Some pool ->
  Volumes.converts event = true ->
  Store.tokens st !! Pool.token0 pool = None
  \/ Store.tokens st !! Pool.token1 pool = None ->
  V3Pool.handleSwap erc20 p0 p1 st event = Some st.
Proof.
  intros H Hc Htok. unfold V3Pool.handleSwap. rewrite H.
  rewrite (ensurePoolDayData_converts st _ _ Hc).
  rewrite (ensurePoolHourData_converts st _ _ Hc).
  cbn [mbind option_bind].
  destruct Htok as [H0 | H1].
  - now rewrite H0.
  - rewrite H1. now destruct (Store.tokens st !! Pool.token0 pool).
Qed.

Lemma handleSwap_unified_reverts
    (erc20 : string -> string -> option BigInt.t)
    (p0 p1 : BigDecimal.t) (st : Store.t) (event : Swap.t)
    (pool : Pool.t) (t0 t1 : Token.t) :
  Store.pools st !! toLowerCase (Swap.address event) = Some pool ->
  Store.tokens st !! Pool.token0 pool = Some t0 ->
  Store.tokens st !! Pool.token1 pool = Some t1 ->
  erc20 (Pool.token0 pool) (Swap.address event) = None
  \/ erc20 (Pool.token1 pool) (Swap.address event) = None ->
  V3Pool.handleSwap erc20 p0 p1 st event = None.
Proof.
  intros H Ht0 Ht1 Hb.
  destruct (Volumes.converts event) eqn:Hc;
    [|now apply (handleSwap_unified_aborts _ _ _ _ _ pool)].
  unfold Volumes.converts in Hc.
  unfold V3Pool.handleSwap. rewrite H.
  rewrite (ensurePoolDayData_converts st _ _ Hc).
  rewrite (ensurePoolHourData_converts st _ _ Hc).
  cbn [mbind option_bind]. rewrite Ht0, Ht1.
  rewrite !div_exponent_total. cbn [mbind option_bind].
  rewrite (ensurePriceHour_converts _ _ _ Hc).
  rewrite (toI32_fits _ Hc). cbn [mbind option_bind].
  unfold V3Pool.safeBalanceOf.
  destruct Hb as [Hb | Hb]; rewrite Hb; [reflexivity|].
  now destruct (erc20 (Pool.token0 pool) (Swap.address event)).
Qed.

(** The two ways the unified handler returns. *)
Lemma handleSwap_unified_inv
    (erc20 : string -> string -> option BigInt.t)
    (p0 p1 : BigDecimal.t) (st : Store.t) (event : Swap.t) (st1 : Store.t) :
  V3Pool.handleSwap erc20 p0 p1 st event = Some st1 ->
  (Volumes.resolve (Store.pools st) (Store.tokens st) event = None /\ st1 = st)
  \/ (exists pool t0 t1 b0 b1,
        Store.pools st !! toLowerCase (Swap.address event) = Some pool
        /\ Store.tokens st !! Pool.token0 pool = Some t0
        /\ Store.tokens st !! Pool.token1 pool = Some t1
        /\ erc20 (Pool.token0 pool) (Swap.address event) = Some b0
        /\ erc20 (Pool.token1 pool) (Swap.address event) = Some b1
        /\ Volumes.converts event = true).
Proof.
  intros Hrun. unfold Volumes.resolve.
  destruct (Store.pools st !! toLowerCase (Swap.address event)) as [pool|] eqn:Hpool.
  2:{ rewrite (handleSwap_unified_unknown_pool _ _ _ _ _ Hpool) in Hrun.
      left. split; [reflexivity | congruence]. }
  destruct (Volumes.converts event) eqn:Hc.
  2:{ rewrite (handleSwap_unified_aborts _ _ _ _ _ _ Hpool Hc) in Hrun.
      discriminate. }
  destruct (Store.tokens st !! Pool.token0 pool) as [t0|] eqn:Ht0.
  2:{ rewrite (handleSwap_unified_missing_token _ _ _ _ _ _ Hpool Hc
                 (or_introl Ht0)) in Hrun.
      left. split; [reflexivity | congruence]. }
  destruct (Store.tokens st !! Pool.token1 pool) as [t1|] eqn:Ht1.
  2:{ rewrite (handleSwap_unified_missing_token _ _ _ _ _ _ Hpool Hc
                 (or_intror Ht1)) in Hrun.
      left. split; [reflexivity | congruence]. }
  destruct (erc20 (Pool.token0 pool) (Swap.address event)) as [b0|] eqn:Hb0.
  2:{ rewrite (handleSwap_unified_reverts _ _ _ _ _ _ _ _ Hpool Ht0 Ht1
                 (or_introl Hb0)) in Hrun. discriminate. }
  destruct (erc20 (Pool.token1 pool) (Swap.address event)) as [b1|] eqn:Hb1.
  2:{ rewrite (handleSwap_unified_reverts _ _ _ _ _ _ _ _ Hpool Ht0 Ht1
                 (or_intror Hb1)) in Hrun. discriminate. }
  right. exists pool, t0, t1, b0, b1. repeat split; assumption.
Qed.

(** ** Swap handling: unresolved references *)

(** C7, as stated, fails in the unified mapping: it converts the block
    timestamp to [i32] (to build the bucket keys) after resolving the pool
    and before resolving the tokens, so a swap on a known pool whose tokens
    are missing, in a block stamped [2^32], aborts the handler instead of
    being discarded. *)
Lemma handleSwap_missing_token_aborts :
  is_Some (Store.pools Sample.store_without_tokens
             !! toLowerCase (Swap.address Sample.swap_late))
  /\ Store.tokens Sample.store_without_tokens = ∅
  /\ Swap.timestamp Sample.swap_late = 2 ^ 32
  /\ V3Pool.handleSwap Sample.erc20 BigDecimal.zero BigDecimal.zero
       Sample.store_without_tokens Sample.swap_late = None
  /\ V3Pool.handleSwap Sample.erc20 BigDecimal.zero BigDecimal.zero
       Sample.store_without_tokens Sample.swap_late
     <> Some Sample.store_without_tokens.
Proof.
  split; [vm_compute; eauto|].
  split; [reflexivity|]. split; [reflexivity|].
  assert (H : V3Pool.handleSwap Sample.erc20 BigDecimal.zero BigDecimal.zero
                Sample.store_without_tokens Sample.swap_late = None)
    by (vm_compute; reflexivity).
  split; [exact H | rewrite H; discriminate].
Qed.

(** C7 (amended): a swap whose pool id is not in the store makes both
    handlers return normally with the store exactly as it was.  A swap
    whose pool is in the store but names a token that is not makes the
    volume-only handler return with the store as it was; the unified
    handler does the same when the block timestamp converts to [i32]
    (it lies in [-2^32, 2^32)), and aborts otherwise. *)
Theorem handleSwap_discards_unresolved
    (erc20 : string -> string -> option BigInt.t)
    (p0 p1 : BigDecimal.t) (st : Store.t) (event : Swap.t) :
  (Store.pools st !! toLowerCase (Swap.address event) = None ->
   V3PoolPlain.handleSwap st event = Some st
   /\ V3Pool.handleSwap erc20 p0 p1 st event = Some st)
  /\ (forall pool,
        Store.pools st !! toLowerCase (Swap.address event) = Some pool ->
        Store.tokens st !! Pool.token0 pool = None
        \/ Store.tokens st !! Pool.token1 pool = None ->
        V3PoolPlain.handleSwap st event = Some st
        /\ (Volumes.converts event = true ->
            V3Pool.handleSwap erc20 p0 p1 st event = Some st)
        /\ (Volumes.converts event = false ->
            V3Pool.handleSwap erc20 p0 p1 st event = None)).
Proof.
  split.
  - intros Hpool. split.
    + apply handleSwap_plain_unresolved. unfold Volumes.resolve. now rewrite Hpool.
    + now apply handleSwap_unified_unknown_pool.
  - intros pool Hpool Htok. split; [|split].
    + apply handleSwap_plain_unresolved. unfold Volumes.resolve. rewrite Hpool.
      destruct Htok as [H | H]; rewrite H; [reflexivity|].
      now destruct (Store.tokens st !! Pool.token0 pool).
    + intros Hc. now apply (handleSwap_unified_missing_token _ _ _ _ _ pool).
    + intros Hc. now apply (handleSwap_unified_aborts _ _ _ _ _ pool).
Qed.

Lemma handleSwap_discards_unresolved_witness :
  V3PoolPlain.handleSwap Sample.store_without_tokens Sample.swap_wbtc_weth
    = Some Sample.store_without_tokens
  /\ V3Pool.handleSwap Sample.erc20 BigDecimal.zero BigDecimal.zero
       Sample.store_without_tokens Sample.swap_wbtc_weth
     = Some Sample.store_without_tokens.
Proof.
  destruct (proj2 (handleSwap_discards_unresolved Sample.erc20 BigDecimal.zero
                     BigDecimal.zero Sample.store_without_tokens
                     Sample.swap_wbtc_weth)
              (Pool.mk Sample.pool_wbtc_weth Sample.WBTC Sample.WETH)
              ltac:(vm_compute; reflexivity) ltac:(left; reflexivity))
    as (Hplain & Hunified & _).
  split; [exact Hplain | apply Hunified; reflexivity].
Defined.

(** ** Total value locked *)

Lemma handleSwap_resolved
    (erc20 : string -> string -> option BigInt.t)
    (p0 p1 : BigDecimal.t) (st : Store.t) (event : Swap.t)
    (pool : Pool.t) (t0 t1 : Token.t) (b0 b1 : BigInt.t) :
  Store.pools st !! toLowerCase (Swap.address event) = Some pool ->
  Store.tokens st !! Pool.token0 pool = Some t0 ->
  Store.tokens st !! Pool.token1 pool = Some t1 ->
  erc20 (Pool.token0 pool) (Swap.address event) = Some b0 ->
  erc20 (Pool.token1 pool) (Swap.address event) = Some b1 ->
  Volumes.converts event = true ->
  let kh := Volumes.hourKeyOf event in
  let kd := Volumes.dayKeyOf event in
  exists st' hour' day' amt0 amt1,
    V3Pool.handleSwap erc20 p0 p1 st event = Some st'
    /\ Store.hourData st' !! kh = Some hour'
    /\ Store.dayData st' !! kd = Some day'
    /\ Store.priceHour st' !! kh
       = Some (PoolPriceHour.mk kh
                 (from_option PoolPriceHour.pool (toLowerCase (Swap.address event))
                    (Store.priceHour st !! kh))
                 (from_option PoolPriceHour.hourStartUnix
                    (I32.div (I32.wrap (Swap.timestamp event)) 3600)
                    (Store.priceHour st !! kh))
                 (Swap.sqrtPriceX96 event) p0 p1 (Swap.liquidity event)
                 (I32.wrap (Swap.timestamp event)))
    /\ BigDecimal.div (BigDecimal.fromZ b0)
         (V3Pool.exponentToBigDecimal (Token.decimals t0)) = Some amt0
    /\ BigDecimal.div (BigDecimal.fromZ b1)
         (V3Pool.exponentToBigDecimal (Token.decimals t1)) = Some amt1
    /\ PoolHourData.tvlUSD hour' = assigned_tvl pool p0 p1 amt0 amt1
    /\ PoolDayData.tvlUSD day' = assigned_tvl pool p0 p1 amt0 amt1
    /\ PoolHourData.volumeUSD hour'
       = from_option PoolHourData.volumeUSD BigDecimal.zero (Store.hourData st !! kh)
    /\ PoolHourData.feesUSD hour'
       = from_option PoolHourData.feesUSD BigDecimal.zero (Store.hourData st !! kh)
    /\ PoolDayData.volumeUSD day'
       = from_option PoolDayData.volumeUSD BigDecimal.zero (Store.dayData st !! kd)
    /\ PoolDayData.feesUSD day'
       = from_option PoolDayData.feesUSD BigDecimal.zero (Store.dayData st !! kd).
Proof.
  intros Hpool Ht0 Ht1 Hb0 Hb1 Hc kh kd.
  destruct (handleSwap_unified_run erc20 p0 p1 st event pool t0 t1 b0 b1
              Hpool Ht0 Ht1 Hb0 Hb1 Hc)
    as (st' & hour' & day' & ph' & Hrun & _ & _ & Hh & Hd & Hp & Vh & Vd & Eph).
  fold kh in Hh, Hp, Vh, Eph. fold kd in Hd, Vd.
  exists st', hour', day'. do 2 eexists.
  split; [exact Hrun|].
  split; [rewrite Hh; apply lookup_insert_eq|].
  split; [rewrite Hd; apply lookup_insert_eq|].
  split; [rewrite Hp, lookup_insert_eq, Eph; reflexivity|].
  split; [apply div_exponent_total|].
  split; [apply div_exponent_total|].
  split; [exact (f_equal Volumes.tvlUSD Vh)|].
  split; [exact (f_equal Volumes.tvlUSD Vd)|].
  pose proof (f_equal Volumes.volumeUSD Vh) as A.
  pose proof (f_equal Volumes.feesUSD Vh) as B.
  pose proof (f_equal Volumes.volumeUSD Vd) as C.
  pose proof (f_equal Volumes.feesUSD Vd) as D.
  unfold Volumes.hourView in A, B. unfold Volumes.dayView in C, D.
  destruct (Store.hourData st !! kh), (Store.dayData st !! kd);
    repeat split; assumption.
Qed.

(** C2, as stated, fails: on the WBTC/WETH pool (no stable side) with hour
    and day buckets whose TVL is 5, the handler stores a TVL of zero in
    both. *)
Lemma handleSwap_overwrites_tvl_with_zero :
  V3Pool.isStable Sample.WBTC = false
  /\ V3Pool.isStable Sample.WETH = false
  /\ (PoolHourData.tvlUSD <$> Store.hourData Sample.store_with_tvl !! Sample.hour_key)
     = Some (inject_Z 5)
  /\ (PoolDayData.tvlUSD <$> Store.dayData Sample.store_with_tvl !! Sample.day_key)
     = Some (inject_Z 5)
  /\ (V3Pool.handleSwap Sample.erc20 BigDecimal.zero BigDecimal.zero
        Sample.store_with_tvl Sample.swap_wbtc_weth
      ≫= λ st', PoolHourData.tvlUSD <$> Store.hourData st' !! Sample.hour_key)
     = Some BigDecimal.zero
  /\ (V3Pool.handleSwap Sample.erc20 BigDecimal.zero BigDecimal.zero
        Sample.store_with_tvl Sample.swap_wbtc_weth
      ≫= λ st', PoolDayData.tvlUSD <$> Store.dayData st' !! Sample.day_key)
     = Some BigDecimal.zero
  /\ ~ (BigDecimal.zero == inject_Z 5)%Q.
Proof.
  split; [vm_compute; reflexivity|]. split; [vm_compute; reflexivity|].
  split; [vm_compute; reflexivity|]. split; [vm_compute; reflexivity|].
  split; [vm_compute; reflexivity|]. split; [vm_compute; reflexivity|].
  apply Qeq_bool_neq. vm_compute. reflexivity.
Qed.

(** C2 (amended): when a swap on a pool that resolves with both its tokens,
    in a block whose timestamp converts to [i32] and with both [balanceOf]
    calls answering, is valued as indeterminate (both sides stable, or
    neither), the handler returns and stores zero as [tvlUSD] of the hour
    row and of the day row, whatever they held before; [volumeUSD] and
    [feesUSD] of both rows keep the value they had (zero for a row created
    by this event). *)
Theorem handleSwap_indeterminate_tvl
    (erc20 : string -> string -> option BigInt.t)
    (p0 p1 : BigDecimal.t) (st : Store.t) (event : Swap.t)
    (pool : Pool.t) (t0 t1 : Token.t) (b0 b1 : BigInt.t) :
  Store.pools st !! toLowerCase (Swap.address event) = Some pool ->
  Store.tokens st !! Pool.token0 pool = Some t0 ->
  Store.tokens st !! Pool.token1 pool = Some t1 ->
  erc20 (Pool.token0 pool) (Swap.address event) = Some b0 ->
  erc20 (Pool.token1 pool) (Swap.address event) = Some b1 ->
  Volumes.converts event = true ->
  V3Pool.isStable (Pool.token0 pool) = V3Pool.isStable (Pool.token1 pool) ->
  let kh := Volumes.hourKeyOf event in
  let kd := Volumes.dayKeyOf event in
  exists st' hour' day',
    V3Pool.handleSwap erc20 p0 p1 st event = Some st'
    /\ Store.hourData st' !! kh = Some hour'
    /\ Store.dayData st' !! kd = Some day'
    /\ PoolHourData.tvlUSD hour' = BigDecimal.zero
    /\ PoolDayData.tvlUSD day' = BigDecimal.zero
    /\ PoolHourData.volumeUSD hour'
       = from_option PoolHourData.volumeUSD BigDecimal.zero (Store.hourData st !! kh)
    /\ PoolHourData.feesUSD hour'
       = from_option PoolHourData.feesUSD BigDecimal.zero (Store.hourData st !! kh)
    /\ PoolDayData.volumeUSD day'
       = from_option PoolDayData.volumeUSD BigDecimal.zero (Store.dayData st !! kd)
    /\ PoolDayData.feesUSD day'
       = from_option PoolDayData.feesUSD BigDecimal.zero (Store.dayData st !! kd).
Proof.
  intros Hpool Ht0 Ht1 Hb0 Hb1 Hc Hsame kh kd.
  destruct (handleSwap_resolved erc20 p0 p1 st event pool t0 t1 b0 b1
              Hpool Ht0 Ht1 Hb0 Hb1 Hc)
    as (st' & hour' & day' & amt0 & amt1 & Hrun & Hh & Hd & _ & _ & _
        & Htvlh & Htvld & Hvh & Hfh & Hvd & Hfd).
  assert (Hz : assigned_tvl pool p0 p1 amt0 amt1 = BigDecimal.zero).
  { unfold assigned_tvl. rewrite Hsame.
    destruct (V3Pool.isStable (Pool.token1 pool)); reflexivity. }
  exists st', hour', day'.
  rewrite Hz in Htvlh, Htvld.
  repeat split; assumption.
Qed.

Lemma handleSwap_indeterminate_tvl_witness :
  exists st' hour',
    V3Pool.handleSwap Sample.erc20 BigDecimal.one BigDecimal.one
      Sample.store_with_tvl Sample.swap_wbtc_weth = Some st'
    /\ Store.hourData st' !! Volumes.hourKeyOf Sample.swap_wbtc_weth = Some hour'
    /\ PoolHourData.tvlUSD hour' = BigDecimal.zero
    /\ PoolHourData.feesUSD hour'
       = from_option PoolHourData.feesUSD BigDecimal.zero
           (Store.hourData Sample.store_with_tvl
              !! Volumes.hourKeyOf Sample.swap_wbtc_weth).
Proof.
  destruct (handleSwap_indeterminate_tvl Sample.erc20 BigDecimal.one
              BigDecimal.one Sample.store_with_tvl Sample.swap_wbtc_weth
              (Pool.mk Sample.pool_wbtc_weth Sample.WBTC Sample.WETH)
              (Token.mk Sample.WBTC 8) (Token.mk Sample.WETH 18)
              123456789 123456789
              ltac:(vm_compute; reflexivity) ltac:(vm_compute; reflexivity)
              ltac:(vm_compute; reflexivity) ltac:(reflexivity)
              ltac:(reflexivity) ltac:(vm_compute; reflexivity)
              ltac:(vm_compute; reflexivity))
    as (st' & hour' & day' & Hrun & Hh & _ & Htvl & _ & _ & Hfee & _).
  exists st', hour'. repeat split; assumption.
Defined.

(** ** The hour-level price record *)

(** C3 (the handler at a swap of the USDC/WETH pool): whatever the two
    unbound identifiers [p0] and [p1] stand for, the price record of the
    hour stores exactly those as [price0] and [price1], next to the event's
    [sqrtPriceX96], its liquidity and its timestamp; [pricesFromSqrt] on the
    event's [sqrtPriceX96] and the two decimal counts returns
    [(10^-12, 10^12)], which the handler never asks for. *)
Theorem handleSwap_price_record_ignores_oracle :
  (forall p0 p1 : BigDecimal.t,
     exists st' ph,
       V3Pool.handleSwap Sample.erc20 p0 p1 Sample.store Sample.swap_usdc_weth
         = Some st'
       /\ Store.priceHour st' !! (Sample.pool_usdc_weth +:+ "-472222") = Some ph
       /\ PoolPriceHour.price0 ph = p0
       /\ PoolPriceHour.price1 ph = p1
       /\ PoolPriceHour.sqrtPriceX96 ph = Swap.sqrtPriceX96 Sample.swap_usdc_weth
       /\ PoolPriceHour.liquidity ph = Swap.liquidity Sample.swap_usdc_weth
       /\ PoolPriceHour.updatedAt ph = Swap.timestamp Sample.swap_usdc_weth)
  /\ (exists o0 o1,
        V3Pool.pricesFromSqrt (Swap.sqrtPriceX96 Sample.swap_usdc_weth) 6 18
          = Some (o0, o1)
        /\ (o0 == 1 # 1000000000000)%Q
        /\ (o1 == inject_Z 1000000000000)%Q).
Proof.
  split.
  - intros p0 p1.
    destruct (handleSwap_resolved Sample.erc20 p0 p1 Sample.store
                Sample.swap_usdc_weth
                (Pool.mk Sample.pool_usdc_weth V3Pool.USDC Sample.WETH)
                (Token.mk V3Pool.USDC 6) (Token.mk Sample.WETH 18)
                123456789 123456789
                ltac:(vm_compute; reflexivity) ltac:(vm_compute; reflexivity)
                ltac:(vm_compute; reflexivity) ltac:(reflexivity)
                ltac:(reflexivity) ltac:(vm_compute; reflexivity))
      as (st' & hour' & day' & amt0 & amt1 & Hrun & _ & _ & Hph & _).
    exists st'. eexists. split; [exact Hrun|].
    split.
    { replace (Sample.pool_usdc_weth +:+ "-472222")
        with (Volumes.hourKeyOf Sample.swap_usdc_weth) by (vm_compute; reflexivity).
      exact Hph. }
    repeat split.
  - exists (1 # 1000000000000)%Q, (1000000000000 # 1)%Q.
    split; [vm_compute; reflexivity|]. split; vm_compute; reflexivity.
Qed.

(** ** The unified handler: traps, frame, agreement with the volume-only one *)

Lemma handleSwap_unified_step
    (erc20 : string -> string -> option BigInt.t)
    (p0 p1 : BigDecimal.t) (st : Store.t) (event : Swap.t) (st1 : Store.t) :
  V3Pool.handleSwap erc20 p0 p1 st event = Some st1 ->
  Store.pools st1 = Store.pools st
  /\ Store.tokens st1 = Store.tokens st
  /\ (exists tvl,
       (forall id,
          Volumes.hourView st1 id
          = if Volumes.applied Volumes.hourKeyOf (Store.pools st) (Store.tokens st)
                 id event
            then Some (Snapshot.withTvl
                         (Volumes.bump (default Volumes.fresh (Volumes.hourView st id))
                            (Volumes.scaled0 (Store.pools st) (Store.tokens st) event)
                            (Volumes.scaled1 (Store.pools st) (Store.tokens st) event))
                         tvl)
            else Volumes.hourView st id)
       /\ (forall id,
             Volumes.dayView st1 id
             = if Volumes.applied Volumes.dayKeyOf (Store.pools st) (Store.tokens st)
                    id event
               then Some (Snapshot.withTvl
                            (Volumes.bump (default Volumes.fresh (Volumes.dayView st id))
                               (Volumes.scaled0 (Store.pools st) (Store.tokens st) event)
                               (Volumes.scaled1 (Store.pools st) (Store.tokens st) event))
                            tvl)
               else Volumes.dayView st id))
  /\ (forall id, id <> Volumes.hourKeyOf event ->
                 Store.hourData st1 !! id = Store.hourData st !! id
                 /\ Store.priceHour st1 !! id = Store.priceHour st !! id)
  /\ (forall id, id <> Volumes.dayKeyOf event ->
                 Store.dayData st1 !! id = Store.dayData st !! id).
Proof.
  intros Hrun.
  destruct (handleSwap_unified_inv _ _ _ _ _ _ Hrun)
    as [[Hres ->] | (pool & t0 & t1 & b0 & b1 & Hpool & Ht0 & Ht1 & Hb0 & Hb1 & Hc)].
  - split; [reflexivity|]. split; [reflexivity|].
    split.
    { exists BigDecimal.zero. unfold Volumes.applied. rewrite Hres.
      split; reflexivity. }
    split; intros; [split|]; reflexivity.
  - destruct (handleSwap_unified_run erc20 p0 p1 st event pool t0 t1 b0 b1
                Hpool Ht0 Ht1 Hb0 Hb1 Hc)
      as (st' & hour' & day' & ph' & Hrun' & Hp & Ht & Hh & Hd & Hph & Vh & Vd & _).
    rewrite Hrun in Hrun'. injection Hrun' as <-.
    assert (Hres : is_Some (Volumes.resolve (Store.pools st) (Store.tokens st) event)).
    { unfold Volumes.resolve. rewrite Hpool, Ht0, Ht1. eauto. }
    destruct Hres as [tt Hres].
    split; [exact Hp|]. split; [exact Ht|].
    split.
    { eexists. unfold Volumes.applied. rewrite Hres.
      split; intros id.
      - unfold Volumes.hourView at 1. rewrite Hh.
        destruct (String.eqb_spec (Volumes.hourKeyOf event) id) as [<- | Hne].
        + rewrite lookup_insert_eq. cbn [fmap option_fmap option_map].
          now rewrite Vh.
        + now rewrite lookup_insert_ne by exact Hne.
      - unfold Volumes.dayView at 1. rewrite Hd.
        destruct (String.eqb_spec (Volumes.dayKeyOf event) id) as [<- | Hne].
        + rewrite lookup_insert_eq. cbn [fmap option_fmap option_map].
          now rewrite Vd.
        + now rewrite lookup_insert_ne by exact Hne. }
    split; intros id Hne.
    + rewrite Hh, Hph. split; apply lookup_insert_ne; congruence.
    + rewrite Hd. apply lookup_insert_ne; congruence.
Qed.

(** X7: the unified handler traps exactly when the event's pool is
    registered and either the block timestamp does not convert to [i32],
    or both tokens of the pool are registered and one of the two
    [balanceOf] calls reverts; in every other case it returns. *)
Theorem handleSwap_traps_iff
    (erc20 : string -> string -> option BigInt.t)
    (p0 p1 : BigDecimal.t) (st : Store.t) (event : Swap.t) :
  V3Pool.handleSwap erc20 p0 p1 st event = None
  <-> exists pool,
        Store.pools st !! toLowerCase (Swap.address event) = Some pool
        /\ (Volumes.converts event = false
            \/ (is_Some (Store.tokens st !! Pool.token0 pool)
                /\ is_Some (Store.tokens st !! Pool.token1 pool)
                /\ (erc20 (Pool.token0 pool) (Swap.address event) = None
                    \/ erc20 (Pool.token1 pool) (Swap.address event) = None))).
Proof.
  split.
  - intros Htrap.
    destruct (Store.pools st !! toLowerCase (Swap.address event)) as [pool|] eqn:Hpool.
    2:{ rewrite (handleSwap_unified_unknown_pool _ _ _ _ _ Hpool) in Htrap.
        discriminate. }
    exists pool. split; [reflexivity|].
    destruct (Volumes.converts event) eqn:Hc; [right | now left].
    destruct (Store.tokens st !! Pool.token0 pool) as [t0|] eqn:Ht0.
    2:{ rewrite (handleSwap_unified_missing_token _ _ _ _ _ _ Hpool Hc
                   (or_introl Ht0)) in Htrap. discriminate. }
    destruct (Store.tokens st !! Pool.token1 pool) as [t1|] eqn:Ht1.
    2:{ rewrite (handleSwap_unified_missing_token _ _ _ _ _ _ Hpool Hc
                   (or_intror Ht1)) in Htrap. discriminate. }
    split; [eauto|]. split; [eauto|].
    destruct (erc20 (Pool.token0 pool) (Swap.address event)) as [b0|] eqn:Hb0;
      [|now left].
    destruct (erc20 (Pool.token1 pool) (Swap.address event)) as [b1|] eqn:Hb1;
      [|now right].
    destruct (handleSwap_unified_run erc20 p0 p1 st event pool t0 t1 b0 b1
                Hpool Ht0 Ht1 Hb0 Hb1 Hc) as (st' & _ & _ & _ & Hrun & _).
    congruence.
  - intros (pool & Hpool & [Hc | ([t0 Ht0] & [t1 Ht1] & Hb)]).
    + now apply (handleSwap_unified_aborts _ _ _ _ _ pool).
    + now apply (handleSwap_unified_reverts _ _ _ _ _ pool t0 t1).
Qed.

(** X8: whenever the unified handler returns, the volume-only handler,
    run on the same store and event, returns too and leaves the same swap
    counts, token volumes, [volumeUSD] and [feesUSD] in every hour row and
    every day row; the two handlers differ on bucket rows by [tvlUSD]
    alone. *)
Theorem unified_agrees_with_plain_on_volumes
    (erc20 : string -> string -> option BigInt.t)
    (p0 p1 : BigDecimal.t) (st : Store.t) (event : Swap.t) (st1 : Store.t) :
  V3Pool.handleSwap erc20 p0 p1 st event = Some st1 ->
  exists st2,
    V3PoolPlain.handleSwap st event = Some st2
    /\ forall id,
         Snapshot.additive <$> Volumes.hourView st1 id
         = Snapshot.additive <$> Volumes.hourView st2 id
         /\ Snapshot.additive <$> Volumes.dayView st1 id
            = Snapshot.additive <$> Volumes.dayView st2 id.
Proof.
  intros Hrun.
  destruct (handleSwap_unified_step erc20 p0 p1 st event st1 Hrun)
    as (_ & _ & (tvl & Hh1 & Hd1) & _).
  assert (Hret : is_Some (V3PoolPlain.handleSwap st event)).
  { destruct (handleSwap_unified_inv _ _ _ _ _ _ Hrun)
      as [[Hres _] | (pool & t0 & t1 & b0 & b1 & _ & _ & _ & _ & _ & Hc)].
    - rewrite (handleSwap_plain_unresolved st event Hres). eauto.
    - now apply handleSwap_plain_returns. }
  destruct Hret as [st2 Hrun2].
  destruct (handleSwap_plain_step st event st2 Hrun2) as (_ & _ & _ & Hh2 & Hd2 & _).
  exists st2. split; [exact Hrun2|]. intros id.
  rewrite Hh1, Hh2, Hd1, Hd2.
  split.
  - destruct (Volumes.applied Volumes.hourKeyOf _ _ id event); reflexivity.
  - destruct (Volumes.applied Volumes.dayKeyOf _ _ id event); reflexivity.
Qed.

Lemma unified_agrees_with_plain_on_volumes_witness :
  exists st1 st2,
    V3Pool.handleSwap Sample.erc20 BigDecimal.one BigDecimal.one Sample.store
      Sample.swap_usdc_weth = Some st1
    /\ V3PoolPlain.handleSwap Sample.store Sample.swap_usdc_weth = Some st2
    /\ Snapshot.additive
         <$> Volumes.hourView st1 (Volumes.hourKeyOf Sample.swap_usdc_weth)
       = Snapshot.additive
           <$> Volumes.hourView st2 (Volumes.hourKeyOf Sample.swap_usdc_weth).
Proof.
  assert (H : match V3Pool.handleSwap Sample.erc20 BigDecimal.one BigDecimal.one
                      Sample.store Sample.swap_usdc_weth with
              | Some _ => true
              | None => false
              end = true) by (vm_compute; reflexivity).
  destruct (V3Pool.handleSwap Sample.erc20 BigDecimal.one BigDecimal.one
              Sample.store Sample.swap_usdc_weth) as [st1|] eqn:Hrun;
    [|discriminate H].
  destruct (unified_agrees_with_plain_on_volumes Sample.erc20 BigDecimal.one
              BigDecimal.one Sample.store Sample.swap_usdc_weth st1 Hrun)
    as (st2 & Hrun2 & Hsame).
  exists st1, st2. split; [reflexivity|]. split; [exact Hrun2|].
  exact (proj1 (Hsame _)).
Defined.

(** X9: when the unified handler returns, the pool and token tables are as
    before, and so is every hour row, day row and price record stored under
    a key other than the event's own hour key (day key for day rows). *)
Theorem handleSwap_unified_frame
    (erc20 : string -> string -> option BigInt.t)
    (p0 p1 : BigDecimal.t) (st : Store.t) (event : Swap.t) (st1 : Store.t) :
  V3Pool.handleSwap erc20 p0 p1 st event = Some st1 ->
  Store.pools st1 = Store.pools st
  /\ Store.tokens st1 = Store.tokens st
  /\ (forall id, id <> Volumes.hourKeyOf event ->
                 Store.hourData st1 !! id = Store.hourData st !! id
                 /\ Store.priceHour st1 !! id = Store.priceHour st !! id)
  /\ (forall id, id <> Volumes.dayKeyOf event ->
                 Store.dayData st1 !! id = Store.dayData st !! id).
Proof.
  intros Hrun.
  destruct (handleSwap_unified_step erc20 p0 p1 st event st1 Hrun)
    as (Hp & Ht & _ & Hh & Hd).
  repeat split; try assumption; now apply Hh.
Qed.

Lemma handleSwap_unified_frame_witness :
  exists st1,
    V3Pool.handleSwap Sample.erc20 BigDecimal.one BigDecimal.one
      Sample.store_with_tvl Sample.swap_usdc_weth = Some st1
    /\ Store.hourData st1 !! Sample.hour_key
       = Store.hourData Sample.store_with_tvl !! Sample.hour_key.
Proof.
  assert (H : match V3Pool.handleSwap Sample.erc20 BigDecimal.one BigDecimal.one
                      Sample.store_with_tvl Sample.swap_usdc_weth with
              | Some _ => true
              | None => false
              end = true) by (vm_compute; reflexivity).
  destruct (V3Pool.handleSwap Sample.erc20 BigDecimal.one BigDecimal.one
              Sample.store_with_tvl Sample.swap_usdc_weth) as [st1|] eqn:Hrun;
    [|discriminate H].
  destruct (handleSwap_unified_frame Sample.erc20 BigDecimal.one BigDecimal.one
              Sample.store_with_tvl Sample.swap_usdc_weth st1 Hrun)
    as (_ & _ & Hh & _).
  exists st1. split; [reflexivity|].
  apply Hh. vm_compute. intros E. inversion E.
Defined.

(** X10: the TVL the unified handler stores is a snapshot: for a swap
    whose pool and tokens resolve, whose timestamp converts and whose
    balance queries answer, it is the same for the hour row and the day
    row, and two stores with the same pools and tokens, whatever their
    bucket rows hold, end with the same [tvlUSD] after the same swap. *)
Theorem tvl_is_overwritten_not_accumulated
    (erc20 : string -> string -> option BigInt.t)
    (p0 p1 : BigDecimal.t) (st st' : Store.t) (event : Swap.t)
    (pool : Pool.t) (t0 t1 : Token.t) (b0 b1 : BigInt.t) :
  Store.pools st !! toLowerCase (Swap.address event) = Some pool ->
  Store.tokens st !! Pool.token0 pool = Some t0 ->
  Store.tokens st !! Pool.token1 pool = Some t1 ->
  erc20 (Pool.token0 pool) (Swap.address event) = Some b0 ->
  erc20 (Pool.token1 pool) (Swap.address event) = Some b1 ->
  Volumes.converts event = true ->
  Store.pools st' = Store.pools st ->
  Store.tokens st' = Store.tokens st ->
  exists s1 s2 hour1 day1 hour2 day2,
    V3Pool.handleSwap erc20 p0 p1 st event = Some s1
    /\ V3Pool.handleSwap erc20 p0 p1 st' event = Some s2
    /\ Store.hourData s1 !! Volumes.hourKeyOf event = Some hour1
    /\ Store.dayData s1 !! Volumes.dayKeyOf event = Some day1
    /\ Store.hourData s2 !! Volumes.hourKeyOf event = Some hour2
    /\ Store.dayData s2 !! Volumes.dayKeyOf event = Some day2
    /\ PoolDayData.tvlUSD day1 = PoolHourData.tvlUSD hour1
    /\ PoolHourData.tvlUSD hour2 = PoolHourData.tvlUSD hour1
    /\ PoolDayData.tvlUSD day2 = PoolHourData.tvlUSD hour1.
Proof.
  intros Hpool Ht0 Ht1 Hb0 Hb1 Hc Hp' Ht'.
  destruct (handleSwap_resolved erc20 p0 p1 st event pool t0 t1 b0 b1
              Hpool Ht0 Ht1 Hb0 Hb1 Hc)
    as (s1 & hour1 & day1 & amt0 & amt1 & Hrun1 & Hh1 & Hd1 & _ & Ha0 & Ha1
        & Htvlh1 & Htvld1 & _).
  rewrite <- Hp' in Hpool. rewrite <- Ht' in Ht0, Ht1.
  destruct (handleSwap_resolved erc20 p0 p1 st' event pool t0 t1 b0 b1
              Hpool Ht0 Ht1 Hb0 Hb1 Hc)
    as (s2 & hour2 & day2 & amt0' & amt1' & Hrun2 & Hh2 & Hd2 & _ & Ha0' & Ha1'
        & Htvlh2 & Htvld2 & _).
  assert (amt0' = amt0) by congruence. assert (amt1' = amt1) by congruence.
  subst amt0' amt1'.
  exists s1, s2, hour1, day1, hour2, day2.
  split; [exact Hrun1|]. split; [exact Hrun2|].
  split; [exact Hh1|]. split; [exact Hd1|]. split; [exact Hh2|]. split; [exact Hd2|].
  repeat split; congruence.
Qed.

Lemma tvl_is_overwritten_not_accumulated_witness :
  exists s1 s2 hour1 hour2,
    V3Pool.handleSwap Sample.erc20 BigDecimal.one BigDecimal.one
      Sample.store Sample.swap_wbtc_weth = Some s1
    /\ V3Pool.handleSwap Sample.erc20 BigDecimal.one BigDecimal.one
         Sample.store_with_tvl Sample.swap_wbtc_weth = Some s2
    /\ Store.hourData s1 !! Volumes.hourKeyOf Sample.swap_wbtc_weth = Some hour1
    /\ Store.hourData s2 !! Volumes.hourKeyOf Sample.swap_wbtc_weth = Some hour2
    /\ PoolHourData.tvlUSD hour2 = PoolHourData.tvlUSD hour1.
Proof.
  destruct (tvl_is_overwritten_not_accumulated Sample.erc20 BigDecimal.one
              BigDecimal.one Sample.store Sample.store_with_tvl
              Sample.swap_wbtc_weth
              (Pool.mk Sample.pool_wbtc_weth Sample.WBTC Sample.WETH)
              (Token.mk Sample.WBTC 8) (Token.mk Sample.WETH 18)
              123456789 123456789
              ltac:(vm_compute; reflexivity) ltac:(vm_compute; reflexivity)
              ltac:(vm_compute; reflexivity) ltac:(reflexivity)
              ltac:(reflexivity) ltac:(vm_compute; reflexivity)
              ltac:(reflexivity) ltac:(reflexivity))
    as (s1 & s2 & hour1 & day1 & hour2 & day2 & H1 & H2 & Hh1 & _ & Hh2 & _
        & _ & Heq & _).
  exists s1, s2, hour1, hour2. repeat split; assumption.
Defined.

(** ** The fee views *)

(** C1, as stated, fails: with both sides flagged stable the view yields
    [fee0], not [NULL]. *)
Lemma fees_usd_both_stable_is_fee0 :
  FeeViews.fees_usd (Some true) (Some true) (Some 5) (Some 7) = Some 5
  /\ FeeViews.fees_usd (Some true) (Some true) (Some 5) (Some 7) <> None.
Proof. split; [reflexivity | discriminate]. Qed.

(** C1 (amended): the [fees_usd] column of both views is [fee0] whenever
    token0 is flagged stable (whether or not token1 is), it is [fee1] when
    token0 is not flagged stable and token1 is, and it is [NULL] when neither
    is flagged stable. *)
Theorem fees_usd_first_stable_side {V : Type}
    (rs0_is_stable rs1_is_stable : option bool) (fee0 fee1 : option V) :
  (rs0_is_stable = Some true ->
   FeeViews.fees_usd rs0_is_stable rs1_is_stable fee0 fee1 = fee0)
  /\ (rs0_is_stable <> Some true -> rs1_is_stable = Some true ->
      FeeViews.fees_usd rs0_is_stable rs1_is_stable fee0 fee1 = fee1)
  /\ (rs0_is_stable <> Some true -> rs1_is_stable <> Some true ->
      FeeViews.fees_usd rs0_is_stable rs1_is_stable fee0 fee1 = None).
Proof.
  unfold FeeViews.fees_usd.
  destruct rs0_is_stable as [[|]|], rs1_is_stable as [[|]|];
    repeat split; intros; congruence.
Qed.

Lemma fees_usd_first_stable_side_witness :
  FeeViews.fees_usd (Some true) (Some false) (Some 5) (Some 7) = Some 5
  /\ FeeViews.fees_usd (Some false) (Some true) (Some 5) (Some 7) = Some 7
  /\ FeeViews.fees_usd (Some false) None (Some 5) (Some 7) = None.
Proof.
  split; [|split].
  - apply (proj1 (fees_usd_first_stable_side (Some true) (Some false) (Some 5) (Some 7))).
    reflexivity.
  - apply (proj1 (proj2 (fees_usd_first_stable_side (Some false) (Some true)
                           (Some 5) (Some 7)))); [discriminate | reflexivity].
  - apply (proj2 (proj2 (fees_usd_first_stable_side (Some false) None
                           (Some 5) (Some 7)))); discriminate.
Defined.

(** ** Column resolution *)

Lemma order_limit1_least (rows : list FeeViews.column) :
  match FeeViews.order_limit1 rows with
  | Some c =>
      In c rows
      /\ forall c', In c' rows ->
           FeeViews.ordinal_position c <= FeeViews.ordinal_position c'
  | None => rows = []
  end.
Proof.
  induction rows as [|r rest IH]; [reflexivity|].
  cbn [FeeViews.order_limit1].
  destruct (FeeViews.order_limit1 rest) as [m|].
  - destruct IH as [Hin Hmin].
    destruct (Z.leb_spec (FeeViews.ordinal_position r) (FeeViews.ordinal_position m)).
    + split; [now left|]. intros c' [<- | Hc']; [lia|].
      specialize (Hmin c' Hc'). lia.
    + split; [now right|]. intros c' [<- | Hc']; [lia | now apply Hmin].
  - subst rest. split; [now left|]. intros c' [<- | []]. lia.
Qed.

Lemma select_into_selects (cond : FeeViews.column -> bool)
    (catalog : list FeeViews.column) :
  selects cond catalog (FeeViews.column_name <$> FeeViews.select_into cond catalog).
Proof.
  unfold FeeViews.select_into.
  pose proof (order_limit1_least (List.filter cond catalog)) as H.
  destruct (FeeViews.order_limit1 (List.filter cond catalog)) as [c|]; cbn.
  - destruct H as [Hin Hmin]. apply filter_In in Hin as [Hin Hc].
    exists c. repeat split; try assumption.
    intros c' Hin' Hc'. apply Hmin. apply filter_In. now split.
  - intros c' Hin'. destruct (cond c') eqn:Hc'; [|reflexivity].
    assert (Hf : In c' (List.filter cond catalog)) by (apply filter_In; now split).
    rewrite H in Hf. destruct Hf.
Qed.

(** C5, as stated, fails: [fee0] is on the exact-name list and [fee0_raw]
    only matches the pattern [fee0%], yet [fee0_raw], the earlier column, is
    the one selected. *)
Lemma prefix_match_beats_later_exact_match :
  FeeViews.col_f0 "pool_hour_data" prefix_before_exact = Some "fee0_raw"%string
  /\ FeeViews.in_list "fee0" FeeViews.fee0_names = true
  /\ FeeViews.in_list "fee0_raw" FeeViews.fee0_names = false
  /\ FeeViews.like_any "fee0_raw" FeeViews.fee0_patterns = true
  /\ FeeViews.col_f0 "pool_hour_data" prefix_before_exact <> Some "fee0"%string.
Proof. vm_compute. repeat split; discriminate. Qed.

(** C5 (amended): each role is resolved by one look-up whose condition is
    "the name is on the exact-name list or matches one of the patterns"
    (the time role has the exact-name list only); exact names get no
    preference.  Among the columns of the table that satisfy the condition
    the look-up returns one with the smallest ordinal position, and it
    returns [NULL] exactly when no column satisfies it. *)
Theorem column_roles_least_ordinal (tbl : string) (time_names : list string)
    (catalog : list FeeViews.column) :
  selects (FeeViews.where_fee tbl FeeViews.fee0_names FeeViews.fee0_patterns)
    catalog (FeeViews.col_f0 tbl catalog)
  /\ selects (FeeViews.where_fee tbl FeeViews.fee1_names FeeViews.fee1_patterns)
       catalog (FeeViews.col_f1 tbl catalog)
  /\ selects (FeeViews.where_time tbl time_names) catalog
       (FeeViews.column_name <$> FeeViews.col_time tbl time_names catalog)
  /\ (forall names pats c,
        FeeViews.where_fee tbl names pats c = true <->
        FeeViews.table_name c = tbl
        /\ (In (FeeViews.column_name c) names
            \/ exists pat, In pat pats
                           /\ FeeViews.like pat (FeeViews.column_name c) = true)).
Proof.
  split; [apply select_into_selects|].
  split; [apply select_into_selects|].
  split; [apply select_into_selects|].
  intros names pats c. unfold FeeViews.where_fee, FeeViews.in_list, FeeViews.like_any.
  rewrite andb_true_iff, orb_true_iff, !existsb_exists, String.eqb_eq.
  split.
  - intros [Ht [(x & Hx & Hex) | (pat & Hp & Hl)]]; split; try assumption.
    + left. apply String.eqb_eq in Hex. now subst x.
    + right. now exists pat.
  - intros [Ht [Hx | (pat & Hp & Hl)]]; split; try assumption.
    + left. exists (FeeViews.column_name c). split; [assumption | apply String.eqb_refl].
    + right. now exists pat.
Qed.

(** C10: against the declared bucket tables the fee look-ups of the hour
    block find nothing ([approx_fee_token0] and [approx_fee_token1] satisfy
    neither the name lists nor the patterns, and no other column does), the
    block raises the missing-columns exception, and the set of views is left
    as it was. *)
Theorem declared_schema_raises (quote_ident : string -> string)
    (views : gmap string string) :
  FeeViews.in_list "approx_fee_token0" FeeViews.fee0_names
    || FeeViews.like_any "approx_fee_token0" FeeViews.fee0_patterns
    || FeeViews.in_list "approx_fee_token0" FeeViews.fee1_names
    || FeeViews.like_any "approx_fee_token0" FeeViews.fee1_patterns
    || FeeViews.in_list "approx_fee_token1" FeeViews.fee0_names
    || FeeViews.like_any "approx_fee_token1" FeeViews.fee0_patterns
    || FeeViews.in_list "approx_fee_token1" FeeViews.fee1_names
    || FeeViews.like_any "approx_fee_token1" FeeViews.fee1_patterns = false
  /\ FeeViews.col_f0 "pool_hour_data" FeeViews.declared_catalog = None
  /\ FeeViews.col_f1 "pool_hour_data" FeeViews.declared_catalog = None
  /\ FeeViews.hour_block quote_ident FeeViews.declared_catalog
     = FeeViews.Raise
         "Required columns not found in pool_hour_data (fee0: <NULL>, fee1: <NULL>, time: hour_start_unix)"
  /\ FeeViews.run_block "v_pool_hour_fees_usd_partial"
       (FeeViews.hour_block quote_ident FeeViews.declared_catalog) views = views.
Proof. repeat split. Qed.


(** ** Worked examples *)

(** One token with 18 decimals flowing out, 2500 tokens with 6 decimals
    flowing in. *)
Example toDecimal_scenario :
  V3PoolPlain.toDecimal (V3PoolPlain.absBigInt (-1000000000000000000)) 18
    = Some 1%Q
  /\ V3PoolPlain.toDecimal (V3PoolPlain.absBigInt 2500000000) 6
     = Some (inject_Z 2500).
Proof. split; vm_compute; reflexivity. Qed.

(** Host decimals keep 34 significant digits: an integer of 35 digits is
    rounded at its last digit, halves up, and quotients are rounded at the
    34th digit. *)
Example rounding_scenarios :
  (BigDecimal.fromZ (10 ^ 34 + 4) == inject_Z (10 ^ 34))%Q
  /\ (BigDecimal.fromZ (10 ^ 34 + 5) == inject_Z (10 ^ 34 + 10))%Q
  /\ BigDecimal.div BigDecimal.one (BigDecimal.fromZ 3)
     = Some (3333333333333333333333333333333333
             # 10000000000000000000000000000000000)%Q
  /\ BigDecimal.div (BigDecimal.fromZ 2) (BigDecimal.fromZ 3)
     = Some (6666666666666666666666666666666667
             # 10000000000000000000000000000000000)%Q
  /\ BigDecimal.div BigDecimal.one BigDecimal.zero = None.
Proof. repeat split; vm_compute; reflexivity. Qed.

(** [_] in a pattern stands for any one character, so [fee_token0%] also
    accepts names without an underscore there. *)
Example like_underscore :
  FeeViews.like "fee_token0%" "fee_token0_raw" = true
  /\ FeeViews.like "fee_token0%" "feeXtoken0" = true
  /\ FeeViews.like "fee_token0%" "approx_fee_token0" = false.
Proof. repeat split. Qed.

(** Suffixed fee columns and an integral time column are resolved, and the
    statement executed selects them. *)
Example hour_block_on_raw_fee_columns :
  FeeViews.hour_block (fun ident => ident) raw_fee_columns
  = FeeViews.Execute
      ("drop view if exists v_pool_hour_fees_usd_partial; " +:+
       "create view v_pool_hour_fees_usd_partial as " +:+
       "select h.pool_id, to_timestamp(h.hour_start_unix) as hour_start_unix, " +:+
       "case when rs0.is_stable then h.fees0_raw " +:+
       "when rs1.is_stable then h.fees1_raw " +:+
       "else null end as fees_usd " +:+
       "from pool_hour_data h " +:+
       "join pools p on p.id=h.pool_id " +:+
       "join tokens t0 on t0.id=p.token0_id " +:+
       "join tokens t1 on t1.id=p.token1_id " +:+
       "left join ref_tokens rs0 on upper(t0.symbol)=rs0.symbol " +:+
       "left join ref_tokens rs1 on upper(t1.symbol)=rs1.symbol " +:+
       "where p.chain_id=1").
Proof. reflexivity. Qed.

(** The day block fails on the declared tables in the same way. *)
Example day_block_on_declared_schema :
  FeeViews.day_block (fun ident => ident) FeeViews.declared_catalog
  = FeeViews.Raise
      "Required columns not found in pool_day_data (fee0: <NULL>, fee1: <NULL>, date: date)".
Proof. reflexivity. Qed.

(** * Further properties of the mappings and of the view generator *)


(** ** Registration of tokens and pools *)

Lemma getOrCreateToken_facts (erc20 : ERC20.t) (r : Registry.t)
    (addr : string) (chainId : Z) (ts : BigInt.t) :
  let r' := fst (Factory.getOrCreateToken erc20 r addr chainId ts) in
  snd (Factory.getOrCreateToken erc20 r addr chainId ts) = toLowerCase addr
  /\ Registry.pools r' = Registry.pools r
  /\ is_Some (Registry.tokens r' !! toLowerCase addr)
  /\ (forall k t, Registry.tokens r !! k = Some t -> Registry.tokens r' !! k = Some t)
  /\ (forall k, k <> toLowerCase addr ->
                Registry.tokens r' !! k = Registry.tokens r !! k).
Proof.
  unfold Factory.getOrCreateToken.
  destruct (Registry.tokens r !! toLowerCase addr) as [t0|] eqn:Hold; cbn.
  - repeat split; try reflexivity; eauto.
  - split; [reflexivity|]. split; [reflexivity|].
    split; [rewrite lookup_insert_eq; eauto|].
    split.
    + intros k t Hk. rewrite lookup_insert_ne; [exact Hk|]. congruence.
    + intros k Hk. now rewrite lookup_insert_ne.
Qed.

(** X1: [getOrCreateToken] returns the lower-cased address as id, leaves the
    pool table alone, never changes a token that is already registered, and
    on return the id is registered; a token it creates gets 18 decimals when
    the [decimals()] call reverts and the answered value otherwise. *)
Theorem getOrCreateToken_registers (erc20 : ERC20.t) (r : Registry.t)
    (addr : string) (chainId : Z) (ts : BigInt.t) :
  let r' := fst (Factory.getOrCreateToken erc20 r addr chainId ts) in
  let id := snd (Factory.getOrCreateToken erc20 r addr chainId ts) in
  id = toLowerCase addr
  /\ Registry.pools r' = Registry.pools r
  /\ (forall k t, Registry.tokens r !! k = Some t -> Registry.tokens r' !! k = Some t)
  /\ (exists token,
        Registry.tokens r' !! id = Some token
        /\ (Registry.tokens r !! id = None ->
            TokenEntity.id token = id
            /\ TokenEntity.chainId token = chainId
            /\ TokenEntity.createdAtTimestamp token = ts
            /\ TokenEntity.decimals token
               = match ERC20.try_decimals erc20 addr with
                 | None => 18
                 | Some value => I32.wrap value
                 end)).
Proof.
  intros r' id.
  destruct (getOrCreateToken_facts erc20 r addr chainId ts)
    as (Hid & Hpools & _ & Hkeep & _).
  split; [exact Hid|]. split; [exact Hpools|]. split; [exact Hkeep|].
  subst r' id. unfold Factory.getOrCreateToken.
  destruct (Registry.tokens r !! toLowerCase addr) as [t0|] eqn:Hold; cbn.
  - exists t0. split; [exact Hold|]. rewrite Hold. discriminate.
  - eexists. split; [apply lookup_insert_eq|]. intros _. repeat split.
Qed.

Lemma handlePoolCreated_shape (erc20 : ERC20.t) (r : Registry.t)
    (event : PoolCreated.t) :
  let r1 := fst (Factory.getOrCreateToken erc20 r (PoolCreated.token0 event) 1
                   (PoolCreated.timestamp event)) in
  let r2 := fst (Factory.getOrCreateToken erc20 r1 (PoolCreated.token1 event) 1
                   (PoolCreated.timestamp event)) in
  Factory.handlePoolCreated erc20 r event
  = Registry.mk (Registry.tokens r2)
      (<[toLowerCase (PoolCreated.pool event) :=
           PoolEntity.mk (toLowerCase (PoolCreated.pool event)) 3 1
             (toLowerCase (PoolCreated.token0 event))
             (toLowerCase (PoolCreated.token1 event))
             (I32.wrap (PoolCreated.fee event))
             (I32.wrap (PoolCreated.tickSpacing event))
             (PoolCreated.timestamp event)]> (Registry.pools r)).
Proof.
  intros r1 r2. unfold Factory.handlePoolCreated.
  destruct (getOrCreateToken_facts erc20 r (PoolCreated.token0 event) 1
              (PoolCreated.timestamp event)) as (Hid0 & Hp0 & _).
  fold r1 in Hp0.
  destruct (getOrCreateToken_facts erc20 r1 (PoolCreated.token1 event) 1
              (PoolCreated.timestamp event)) as (Hid1 & Hp1 & _).
  fold r2 in Hp1.
  destruct (Factory.getOrCreateToken erc20 r (PoolCreated.token0 event) 1
              (PoolCreated.timestamp event)) as [ra ida] eqn:Ea.
  cbn in Hid0, r1. subst r1 ida.
  destruct (Factory.getOrCreateToken erc20 ra (PoolCreated.token1 event) 1
              (PoolCreated.timestamp event)) as [rb idb] eqn:Eb.
  cbn in Hid1, r2. subst r2 idb. cbn in Hp0, Hp1.
  unfold Factory.as_i32. now rewrite Hp1, Hp0.
Qed.

Lemma handleInitialize_shape (erc20 : ERC20.t) (r : Registry.t)
    (event : Initialize.t) :
  let r1 := fst (Factory.getOrCreateToken erc20 r (Initialize.currency0 event) 1
                   (Initialize.timestamp event)) in
  let r2 := fst (Factory.getOrCreateToken erc20 r1 (Initialize.currency1 event) 1
                   (Initialize.timestamp event)) in
  Factory.handleInitialize erc20 r event
  = Registry.mk (Registry.tokens r2)
      (<[toLowerCase (Initialize.id event) :=
           PoolEntity.mk (toLowerCase (Initialize.id event)) 4 1
             (toLowerCase (Initialize.currency0 event))
             (toLowerCase (Initialize.currency1 event))
             (I32.wrap (Initialize.fee event))
             (I32.wrap (Initialize.tickSpacing event))
             (Initialize.timestamp event)]> (Registry.pools r)).
Proof.
  intros r1 r2. unfold Factory.handleInitialize.
  destruct (getOrCreateToken_facts erc20 r (Initialize.currency0 event) 1
              (Initialize.timestamp event)) as (Hid0 & Hp0 & _).
  fold r1 in Hp0.
  destruct (getOrCreateToken_facts erc20 r1 (Initialize.currency1 event) 1
              (Initialize.timestamp event)) as (Hid1 & Hp1 & _).
  fold r2 in Hp1.
  destruct (Factory.getOrCreateToken erc20 r (Initialize.currency0 event) 1
              (Initialize.timestamp event)) as [ra ida] eqn:Ea.
  cbn in Hid0, r1. subst r1 ida.
  destruct (Factory.getOrCreateToken erc20 ra (Initialize.currency1 event) 1
              (Initialize.timestamp event)) as [rb idb] eqn:Eb.
  cbn in Hid1, r2. subst r2 idb. cbn in Hp0, Hp1.
  unfold Factory.as_i32. now rewrite Hp1, Hp0.
Qed.

Lemma getOrCreateToken_existing (erc20 : ERC20.t) (r : Registry.t)
    (addr : string) (chainId : Z) (ts : BigInt.t) :
  is_Some (Registry.tokens r !! toLowerCase addr) ->
  Factory.getOrCreateToken erc20 r addr chainId ts = (r, toLowerCase addr).
Proof.
  intros [t Ht]. unfold Factory.getOrCreateToken. now rewrite Ht.
Qed.

Lemma two_tokens_registered (erc20 : ERC20.t) (r : Registry.t)
    (addr0 addr1 : string) (chainId : Z) (ts : BigInt.t) :
  let r1 := fst (Factory.getOrCreateToken erc20 r addr0 chainId ts) in
  let r2 := fst (Factory.getOrCreateToken erc20 r1 addr1 chainId ts) in
  is_Some (Registry.tokens r2 !! toLowerCase addr0)
  /\ is_Some (Registry.tokens r2 !! toLowerCase addr1)
  /\ (forall k t, Registry.tokens r !! k = Some t -> Registry.tokens r2 !! k = Some t).
Proof.
  intros r1 r2.
  destruct (getOrCreateToken_facts erc20 r addr0 chainId ts)
    as (_ & _ & [t0 H0] & Hkeep0 & _).
  destruct (getOrCreateToken_facts erc20 r1 addr1 chainId ts)
    as (_ & _ & H1 & Hkeep1 & _).
  fold r1 in H0, Hkeep0. fold r2 in H1, Hkeep1.
  split; [exists t0; now apply Hkeep1|]. split; [exact H1|].
  intros k t Hk. apply Hkeep1, Hkeep0, Hk.
Qed.

Lemma closed_after_registration (r : Registry.t)
    (tokens' : gmap string TokenEntity.t) (poolId : string) (pool : PoolEntity.t) :
  Registry.closed r ->
  (forall k t, Registry.tokens r !! k = Some t -> tokens' !! k = Some t) ->
  is_Some (tokens' !! PoolEntity.token0 pool) ->
  is_Some (tokens' !! PoolEntity.token1 pool) ->
  Registry.closed (Registry.mk tokens' (<[poolId := pool]> (Registry.pools r))).
Proof.
  intros Hclosed Hkeep H0 H1 id p. cbn.
  destruct (decide (poolId = id)) as [<- | Hne].
  - rewrite lookup_insert_eq. intros [= <-]. now split.
  - rewrite lookup_insert_ne by exact Hne. intros Hp.
    destruct (Hclosed id p Hp) as [[t0 Ht0] [t1 Ht1]].
    split; eexists; apply Hkeep; eassumption.
Qed.

(** X2: if every registered pool names two registered tokens, the same
    holds after [handlePoolCreated] and after [handleInitialize]; the pool
    they write names the two lower-cased token addresses of the event, both
    registered on return. *)
Theorem registration_keeps_references (erc20 : ERC20.t) (r : Registry.t)
    (created : PoolCreated.t) (initialized : Initialize.t) :
  Registry.closed r ->
  Registry.closed (Factory.handlePoolCreated erc20 r created)
  /\ Registry.closed (Factory.handleInitialize erc20 r initialized)
  /\ (exists pool,
        Registry.pools (Factory.handlePoolCreated erc20 r created)
          !! toLowerCase (PoolCreated.pool created) = Some pool
        /\ PoolEntity.version pool = 3
        /\ PoolEntity.token0 pool = toLowerCase (PoolCreated.token0 created)
        /\ PoolEntity.token1 pool = toLowerCase (PoolCreated.token1 created))
  /\ (exists pool,
        Registry.pools (Factory.handleInitialize erc20 r initialized)
          !! toLowerCase (Initialize.id initialized) = Some pool
        /\ PoolEntity.version pool = 4
        /\ PoolEntity.token0 pool = toLowerCase (Initialize.currency0 initialized)
        /\ PoolEntity.token1 pool = toLowerCase (Initialize.currency1 initialized)).
Proof.
  intros Hclosed.
  rewrite handlePoolCreated_shape, handleInitialize_shape.
  destruct (two_tokens_registered erc20 r (PoolCreated.token0 created)
              (PoolCreated.token1 created) 1 (PoolCreated.timestamp created))
    as (Hc0 & Hc1 & Hckeep).
  destruct (two_tokens_registered erc20 r (Initialize.currency0 initialized)
              (Initialize.currency1 initialized) 1 (Initialize.timestamp initialized))
    as (Hi0 & Hi1 & Hikeep).
  split;
    [apply closed_after_registration;
       cbn [PoolEntity.token0 PoolEntity.token1]; assumption|].
  split;
    [apply closed_after_registration;
       cbn [PoolEntity.token0 PoolEntity.token1]; assumption|].
  split; eexists; (split; [cbn; apply lookup_insert_eq | repeat split]).
Qed.

Lemma registration_keeps_references_witness :
  Registry.closed
    (Factory.handlePoolCreated Registered.erc20_meta (Registry.mk ∅ ∅) Registered.created).
Proof.
  apply (registration_keeps_references Registered.erc20_meta (Registry.mk ∅ ∅)
           Registered.created Registered.initialized).
  intros id pool Hpool. cbn in Hpool. rewrite lookup_empty in Hpool. discriminate.
Defined.

(** X3: delivering the same [PoolCreated] (or [Initialize]) event a second
    time, whatever the token contracts answer by then, leaves the registry
    as the first delivery left it. *)
Theorem registration_redelivery (erc20 erc20' : ERC20.t) (r : Registry.t)
    (created : PoolCreated.t) (initialized : Initialize.t) :
  Factory.handlePoolCreated erc20'
    (Factory.handlePoolCreated erc20 r created) created
  = Factory.handlePoolCreated erc20 r created
  /\ Factory.handleInitialize erc20'
       (Factory.handleInitialize erc20 r initialized) initialized
     = Factory.handleInitialize erc20 r initialized.
Proof.
  split.
  - destruct (two_tokens_registered erc20 r (PoolCreated.token0 created)
                (PoolCreated.token1 created) 1 (PoolCreated.timestamp created))
      as (H0 & H1 & _).
    pose proof (handlePoolCreated_shape erc20 r created) as HR. cbn zeta in HR.
    set (R := Factory.handlePoolCreated erc20 r created) in *.
    assert (H0' : is_Some (Registry.tokens R !! toLowerCase (PoolCreated.token0 created)))
      by (rewrite HR; exact H0).
    assert (H1' : is_Some (Registry.tokens R !! toLowerCase (PoolCreated.token1 created)))
      by (rewrite HR; exact H1).
    rewrite (handlePoolCreated_shape erc20' R).
    rewrite (getOrCreateToken_existing erc20' R _ _ _ H0'). cbn [fst].
    rewrite (getOrCreateToken_existing erc20' R _ _ _ H1'). cbn [fst].
    rewrite HR. cbn [Registry.tokens Registry.pools].
    now rewrite insert_insert_eq.
  - destruct (two_tokens_registered erc20 r (Initialize.currency0 initialized)
                (Initialize.currency1 initialized) 1 (Initialize.timestamp initialized))
      as (H0 & H1 & _).
    pose proof (handleInitialize_shape erc20 r initialized) as HR. cbn zeta in HR.
    set (R := Factory.handleInitialize erc20 r initialized) in *.
    assert (H0' : is_Some (Registry.tokens R
                             !! toLowerCase (Initialize.currency0 initialized)))
      by (rewrite HR; exact H0).
    assert (H1' : is_Some (Registry.tokens R
                             !! toLowerCase (Initialize.currency1 initialized)))
      by (rewrite HR; exact H1).
    rewrite (handleInitialize_shape erc20' R).
    rewrite (getOrCreateToken_existing erc20' R _ _ _ H0'). cbn [fst].
    rewrite (getOrCreateToken_existing erc20' R _ _ _ H1'). cbn [fst].
    rewrite HR. cbn [Registry.tokens Registry.pools].
    now rewrite insert_insert_eq.
Qed.


(** ** Swaps after registration *)

Lemma resolve_after_handlePoolCreated (erc20 : ERC20.t) (r : Registry.t)
    (created : PoolCreated.t) (buckets : Store.t) (swap : Swap.t) :
  toLowerCase (Swap.address swap) = toLowerCase (PoolCreated.pool created) ->
  let st := Registry.toStore (Factory.handlePoolCreated erc20 r created) buckets in
  is_Some (Volumes.resolve (Store.pools st) (Store.tokens st) swap).
Proof.
  intros Haddr st. subst st.
  destruct (two_tokens_registered erc20 r (PoolCreated.token0 created)
              (PoolCreated.token1 created) 1 (PoolCreated.timestamp created))
    as ([t0 H0] & [t1 H1] & _).
  rewrite handlePoolCreated_shape.
  unfold Volumes.resolve, Registry.toStore.
  cbn [Store.pools Store.tokens Registry.pools Registry.tokens].
  rewrite Haddr, lookup_fmap, lookup_insert_eq.
  cbn [fmap option_fmap option_map Registry.poolRef PoolEntity.id PoolEntity.token0
       PoolEntity.token1 Pool.token0 Pool.token1].
  rewrite !lookup_fmap, H0, H1. cbn. eauto.
Qed.

(** X4: once [handlePoolCreated] has run for a pool, a swap emitted by that
    pool (its address in any letter case) in a block whose timestamp
    converts to [i32] is not discarded by the volume-only handler: the
    handler returns and the event's hour and day rows exist, with one more
    swap counted than before. *)
Theorem swap_after_registration_is_applied (erc20 : ERC20.t)
    (r : Registry.t) (created : PoolCreated.t) (buckets : Store.t) (swap : Swap.t) :
  toLowerCase (Swap.address swap) = toLowerCase (PoolCreated.pool created) ->
  Volumes.converts swap = true ->
  let st := Registry.toStore (Factory.handlePoolCreated erc20 r created) buckets in
  exists st' hour day,
    V3PoolPlain.handleSwap st swap = Some st'
    /\ Store.hourData st' !! Volumes.hourKeyOf swap = Some hour
    /\ Store.dayData st' !! Volumes.dayKeyOf swap = Some day
    /\ PoolHourData.swapCount hour
       = I32.add (Volumes.swapCount
                    (default Volumes.fresh
                       (Volumes.hourView st (Volumes.hourKeyOf swap)))) 1
    /\ PoolDayData.swapCount day
       = I32.add (Volumes.swapCount
                    (default Volumes.fresh
                       (Volumes.dayView st (Volumes.dayKeyOf swap)))) 1.
Proof.
  intros Haddr Hc st.
  destruct (resolve_after_handlePoolCreated erc20 r created buckets swap Haddr)
    as [tt Hres]. fold st in Hres.
  destruct (handleSwap_plain_returns st swap Hc) as [st' Hrun].
  destruct (handleSwap_plain_step st swap st' Hrun) as (_ & _ & _ & Hh & Hd & _).
  specialize (Hh (Volumes.hourKeyOf swap)). specialize (Hd (Volumes.dayKeyOf swap)).
  unfold Volumes.applied in Hh, Hd. rewrite Hres, String.eqb_refl in Hh, Hd.
  unfold Volumes.hourView in Hh at 1. unfold Volumes.dayView in Hd at 1.
  destruct (Store.hourData st' !! Volumes.hourKeyOf swap) as [hour|] eqn:Ehour;
    [|discriminate].
  destruct (Store.dayData st' !! Volumes.dayKeyOf swap) as [day|] eqn:Eday;
    [|discriminate].
  exists st', hour, day. split; [exact Hrun|]. split; [exact Ehour|].
  split; [exact Eday|].
  cbn [fmap option_fmap option_map] in Hh, Hd.
  split.
  - exact (f_equal (fun o => from_option Volumes.swapCount 0 o) Hh).
  - exact (f_equal (fun o => from_option Volumes.swapCount 0 o) Hd).
Qed.

Lemma swap_after_registration_is_applied_witness :
  exists st' hour,
    V3PoolPlain.handleSwap
      (Registry.toStore
         (Factory.handlePoolCreated Registered.erc20_meta (Registry.mk ∅ ∅)
            Registered.created) Sample.empty_store)
      Sample.swap_usdc_weth = Some st'
    /\ Store.hourData st' !! Volumes.hourKeyOf Sample.swap_usdc_weth = Some hour
    /\ PoolHourData.swapCount hour = 1.
Proof.
  destruct (swap_after_registration_is_applied Registered.erc20_meta
              (Registry.mk ∅ ∅) Registered.created Sample.empty_store
              Sample.swap_usdc_weth ltac:(reflexivity) ltac:(reflexivity))
    as (st' & hour & day & Hrun & Hh & _ & Hc & _).
  exists st', hour. split; [exact Hrun|]. split; [exact Hh|].
  rewrite Hc. vm_compute. reflexivity.
Defined.

(** ** Column look-ups and the two blocks *)

Lemma select_into_is_Some (cond : FeeViews.column -> bool)
    (catalog : list FeeViews.column) :
  is_Some (FeeViews.select_into cond catalog)
  <-> exists c, In c catalog /\ cond c = true.
Proof.
  unfold FeeViews.select_into.
  pose proof (order_limit1_least (List.filter cond catalog)) as H.
  destruct (FeeViews.order_limit1 (List.filter cond catalog)) as [c|].
  - destruct H as [Hin _]. apply filter_In in Hin. split; eauto.
  - split; [intros [x Hx]; discriminate|].
    intros (c & Hin & Hc).
    assert (Hf : In c (List.filter cond catalog)) by (apply filter_In; now split).
    rewrite H in Hf. destruct Hf.
Qed.

Lemma select_into_order_free (cond : FeeViews.column -> bool)
    (catalog catalog' : list FeeViews.column) :
  (forall c, In c catalog <-> In c catalog') ->
  (forall c c', In c catalog -> In c' catalog -> cond c = true -> cond c' = true ->
                FeeViews.ordinal_position c = FeeViews.ordinal_position c' -> c = c') ->
  FeeViews.select_into cond catalog = FeeViews.select_into cond catalog'.
Proof.
  intros Hsame Hdistinct. unfold FeeViews.select_into.
  pose proof (order_limit1_least (List.filter cond catalog)) as H.
  pose proof (order_limit1_least (List.filter cond catalog')) as H'.
  assert (Hf : forall c, In c (List.filter cond catalog)
                         <-> In c (List.filter cond catalog')).
  { intros c. rewrite !filter_In, Hsame. reflexivity. }
  destruct (FeeViews.order_limit1 (List.filter cond catalog)) as [c|],
           (FeeViews.order_limit1 (List.filter cond catalog')) as [c'|].
  - destruct H as [Hin Hmin], H' as [Hin' Hmin'].
    pose proof (Hmin c' (proj2 (Hf c') Hin')) as Hle.
    pose proof (Hmin' c (proj1 (Hf c) Hin)) as Hle'.
    apply Hf in Hin'. apply filter_In in Hin as [Hin Hc].
    apply filter_In in Hin' as [Hin' Hc'].
    f_equal. apply Hdistinct; try assumption. lia.
  - destruct H as [Hin _]. apply Hf in Hin. rewrite H' in Hin. destruct Hin.
  - destruct H' as [Hin' _]. apply Hf in Hin'. rewrite H in Hin'. destruct Hin'.
  - reflexivity.
Qed.

(** X15: the outcome of a block does not depend on the order in which the
    catalog lists its rows, provided no two rows of the catalog share an
    ordinal position: two catalogs with the same rows make the hour block,
    and the day block, do the same thing. *)
Theorem blocks_ignore_catalog_order (quote_ident : string -> string)
    (catalog catalog' : list FeeViews.column) :
  Permutation catalog catalog' ->
  (forall c c', In c catalog -> In c' catalog ->
                FeeViews.table_name c = FeeViews.table_name c' ->
                FeeViews.ordinal_position c = FeeViews.ordinal_position c' -> c = c') ->
  FeeViews.hour_block quote_ident catalog = FeeViews.hour_block quote_ident catalog'
  /\ FeeViews.day_block quote_ident catalog = FeeViews.day_block quote_ident catalog'.
Proof.
  intros Hperm Hdistinct.
  assert (Hsame : forall c, In c catalog <-> In c catalog').
  { intros c. split; apply Permutation_in; [exact Hperm | now symmetry]. }
  assert (Hfee : forall tbl names pats,
            FeeViews.select_into (FeeViews.where_fee tbl names pats) catalog
            = FeeViews.select_into (FeeViews.where_fee tbl names pats) catalog').
  { intros tbl names pats. apply select_into_order_free; [exact Hsame|].
    intros c c' Hin Hin' Hc Hc' Hord. apply Hdistinct; try assumption.
    unfold FeeViews.where_fee in Hc, Hc'.
    apply andb_true_iff in Hc as [Hc _]. apply andb_true_iff in Hc' as [Hc' _].
    apply String.eqb_eq in Hc, Hc'. congruence. }
  assert (Htime : forall tbl names,
            FeeViews.select_into (FeeViews.where_time tbl names) catalog
            = FeeViews.select_into (FeeViews.where_time tbl names) catalog').
  { intros tbl names. apply select_into_order_free; [exact Hsame|].
    intros c c' Hin Hin' Hc Hc' Hord. apply Hdistinct; try assumption.
    unfold FeeViews.where_time in Hc, Hc'.
    apply andb_true_iff in Hc as [Hc _]. apply andb_true_iff in Hc' as [Hc' _].
    apply String.eqb_eq in Hc, Hc'. congruence. }
  unfold FeeViews.hour_block, FeeViews.day_block, FeeViews.col_f0, FeeViews.col_f1,
    FeeViews.col_time.
  rewrite !Hfee, !Htime. split; reflexivity.
Qed.

Lemma blocks_ignore_catalog_order_witness :
  FeeViews.hour_block (fun ident => ident) raw_fee_columns
  = FeeViews.hour_block (fun ident => ident) (rev raw_fee_columns).
Proof.
  apply (blocks_ignore_catalog_order (fun ident => ident) raw_fee_columns
           (rev raw_fee_columns)).
  - apply Permutation_rev.
  - intros c c' Hin Hin' _ Hord. cbn in Hin, Hin'.
    repeat (destruct Hin as [<- | Hin]);
      repeat (destruct Hin' as [<- | Hin']);
      try reflexivity; try discriminate Hord; try contradiction.
Defined.

(** X16: a block executes its statement exactly when each of its three
    roles has at least one candidate column in its table (and raises in
    every other case); this holds for the hour block and for the day
    block. *)
Theorem block_executes_iff_roles_resolve (quote_ident : string -> string)
    (catalog : list FeeViews.column) :
  ((exists dyn_sql, FeeViews.hour_block quote_ident catalog = FeeViews.Execute dyn_sql)
   <-> (exists c, In c catalog
                  /\ FeeViews.where_fee "pool_hour_data" FeeViews.fee0_names
                       FeeViews.fee0_patterns c = true)
       /\ (exists c, In c catalog
                     /\ FeeViews.where_fee "pool_hour_data" FeeViews.fee1_names
                          FeeViews.fee1_patterns c = true)
       /\ (exists c, In c catalog
                     /\ FeeViews.where_time "pool_hour_data" FeeViews.hour_time_names c
                        = true))
  /\ ((exists dyn_sql, FeeViews.day_block quote_ident catalog = FeeViews.Execute dyn_sql)
      <-> (exists c, In c catalog
                     /\ FeeViews.where_fee "pool_day_data" FeeViews.fee0_names
                          FeeViews.fee0_patterns c = true)
          /\ (exists c, In c catalog
                        /\ FeeViews.where_fee "pool_day_data" FeeViews.fee1_names
                             FeeViews.fee1_patterns c = true)
          /\ (exists c, In c catalog
                        /\ FeeViews.where_time "pool_day_data" FeeViews.day_time_names c
                           = true)).
Proof.
  rewrite <- !select_into_is_Some.
  unfold FeeViews.hour_block, FeeViews.day_block, FeeViews.col_f0, FeeViews.col_f1,
    FeeViews.col_time.
  split.
  - destruct (FeeViews.select_into
                (FeeViews.where_fee "pool_hour_data" FeeViews.fee0_names
                   FeeViews.fee0_patterns) catalog) as [c0|];
    destruct (FeeViews.select_into
                (FeeViews.where_fee "pool_hour_data" FeeViews.fee1_names
                   FeeViews.fee1_patterns) catalog) as [c1|];
    destruct (FeeViews.select_into
                (FeeViews.where_time "pool_hour_data" FeeViews.hour_time_names)
                catalog) as [ct|]; cbn;
    (split; [intros [sql Hsql]; try discriminate Hsql; repeat split; eauto
            | intros ([x0 H0] & [x1 H1] & [xt Ht]);
              try discriminate H0; try discriminate H1; try discriminate Ht;
              eauto]).
  - destruct (FeeViews.select_into
                (FeeViews.where_fee "pool_day_data" FeeViews.fee0_names
                   FeeViews.fee0_patterns) catalog) as [c0|];
    destruct (FeeViews.select_into
                (FeeViews.where_fee "pool_day_data" FeeViews.fee1_names
                   FeeViews.fee1_patterns) catalog) as [c1|];
    destruct (FeeViews.select_into
                (FeeViews.where_time "pool_day_data" FeeViews.day_time_names)
                catalog) as [ct|]; cbn;
    (split; [intros [sql Hsql]; try discriminate Hsql; repeat split; eauto
            | intros ([x0 H0] & [x1 H1] & [xt Ht]);
              try discriminate H0; try discriminate H1; try discriminate Ht;
              eauto]).
Qed.

Lemma filter_none {A : Type} (f : A -> bool) (l : list A) :
  (forall x, In x l -> f x = false) -> List.filter f l = [].
Proof.
  induction l as [|x l IH]; intros H; [reflexivity|].
  cbn [List.filter]. rewrite (H x) by now left.
  apply IH. intros y Hy. apply H. now right.
Qed.

Lemma select_into_skips (cond : FeeViews.column -> bool)
    (catalog extra : list FeeViews.column) :
  (forall c, In c extra -> cond c = false) ->
  FeeViews.select_into cond (extra ++ catalog) = FeeViews.select_into cond catalog
  /\ FeeViews.select_into cond (catalog ++ extra) = FeeViews.select_into cond catalog.
Proof.
  intros H. unfold FeeViews.select_into.
  rewrite !List.filter_app, (filter_none cond extra H), app_nil_r. now split.
Qed.

(** X17: rows of the catalog that belong to other tables play no part: a
    block does the same thing whether or not such rows are listed before or
    after the rows of its own table. *)
Theorem blocks_ignore_other_tables (quote_ident : string -> string)
    (catalog extra : list FeeViews.column) :
  ((forall c, In c extra -> FeeViews.table_name c <> "pool_hour_data"%string) ->
   FeeViews.hour_block quote_ident (extra ++ catalog)
   = FeeViews.hour_block quote_ident catalog
   /\ FeeViews.hour_block quote_ident (catalog ++ extra)
      = FeeViews.hour_block quote_ident catalog)
  /\ ((forall c, In c extra -> FeeViews.table_name c <> "pool_day_data"%string) ->
      FeeViews.day_block quote_ident (extra ++ catalog)
      = FeeViews.day_block quote_ident catalog
      /\ FeeViews.day_block quote_ident (catalog ++ extra)
         = FeeViews.day_block quote_ident catalog).
Proof.
  assert (Hfee : forall tbl names pats,
            (forall c, In c extra -> FeeViews.table_name c <> tbl) ->
            forall c, In c extra -> FeeViews.where_fee tbl names pats c = false).
  { intros tbl names pats H c Hc. unfold FeeViews.where_fee.
    destruct (String.eqb_spec (FeeViews.table_name c) tbl) as [Heq|]; [|reflexivity].
    destruct (H c Hc Heq). }
  assert (Htime : forall tbl names,
            (forall c, In c extra -> FeeViews.table_name c <> tbl) ->
            forall c, In c extra -> FeeViews.where_time tbl names c = false).
  { intros tbl names H c Hc. unfold FeeViews.where_time.
    destruct (String.eqb_spec (FeeViews.table_name c) tbl) as [Heq|]; [|reflexivity].
    destruct (H c Hc Heq). }
  split; intros H;
    unfold FeeViews.hour_block, FeeViews.day_block, FeeViews.col_f0, FeeViews.col_f1,
      FeeViews.col_time;
    rewrite !(proj1 (select_into_skips _ catalog extra (Hfee _ _ _ H))),
            !(proj2 (select_into_skips _ catalog extra (Hfee _ _ _ H))),
            !(proj1 (select_into_skips _ catalog extra (Htime _ _ H))),
            !(proj2 (select_into_skips _ catalog extra (Htime _ _ H)));
    split; reflexivity.
Qed.

Lemma blocks_ignore_other_tables_witness :
  FeeViews.hour_block (fun ident => ident)
    (firstn 8 FeeViews.declared_catalog ++ raw_fee_columns)
  = FeeViews.hour_block (fun ident => ident) raw_fee_columns.
Proof.
  apply (proj1 (blocks_ignore_other_tables (fun ident => ident) raw_fee_columns
                  (firstn 8 FeeViews.declared_catalog))).
  intros c Hc. cbn in Hc.
  repeat (destruct Hc as [<- | Hc]; [discriminate|]). destruct Hc.
Defined.


(** ** Address case *)

Lemma lower_ascii_idempotent (c : ascii) : lower_ascii (lower_ascii c) = lower_ascii c.
Proof.
  unfold lower_ascii.
  destruct (Nat.leb 65 (nat_of_ascii c) && Nat.leb (nat_of_ascii c) 90) eqn:E;
    [|now rewrite E].
  apply andb_true_iff in E as [Hlo Hhi].
  apply Nat.leb_le in Hlo, Hhi.
  rewrite nat_ascii_embedding by lia.
  replace (Nat.leb (nat_of_ascii c + 32) 90) with false
    by (symmetry; apply Nat.leb_gt; lia).
  now rewrite andb_false_r.
Qed.

Lemma toLowerCase_idempotent (s : string) :
  toLowerCase (toLowerCase s) = toLowerCase s.
Proof.
  induction s as [|c s IH]; [reflexivity|].
  cbn [toLowerCase]. now rewrite lower_ascii_idempotent, IH.
Qed.

(** X18: identifiers are case-normalised: lower-casing is idempotent, so
    [isStable] gives the same answer on an address and on its lower-case
    form, [getOrCreateToken] returns the same id for both, and the
    volume-only handler treats two events that differ only in the letter
    case of the address alike. *)
Theorem address_case_is_ignored (erc20 : ERC20.t) (r : Registry.t)
    (st : Store.t) (event : Swap.t) (addr : string) (chainId : Z) (ts : BigInt.t) :
  toLowerCase (toLowerCase addr) = toLowerCase addr
  /\ V3Pool.isStable (toLowerCase addr) = V3Pool.isStable addr
  /\ snd (Factory.getOrCreateToken erc20 r (toLowerCase addr) chainId ts)
     = snd (Factory.getOrCreateToken erc20 r addr chainId ts)
  /\ V3PoolPlain.handleSwap st
       (Swap.mk (toLowerCase (Swap.address event)) (Swap.amount0 event)
          (Swap.amount1 event) (Swap.sqrtPriceX96 event) (Swap.liquidity event)
          (Swap.timestamp event))
     = V3PoolPlain.handleSwap st event.
Proof.
  split; [apply toLowerCase_idempotent|].
  split; [unfold V3Pool.isStable; now rewrite toLowerCase_idempotent|].
  split.
  - rewrite !(proj1 (getOrCreateToken_facts _ _ _ _ _)).
    apply toLowerCase_idempotent.
  - unfold V3PoolPlain.handleSwap.
    cbn [Swap.address Swap.amount0 Swap.amount1 Swap.timestamp].
    now rewrite toLowerCase_idempotent.
Qed.

